(** * The instance-group-manager resource of the Google (beta) provider

    A shallow embedding of
    [google-beta/resource_compute_instance_group_manager.go]: the
    identifier codec, the field transcoders and the lifecycle
    operations, followed by the properties established about them.

    Conventions of the embedding.
    - Go [string]s are [string]s (sequences of bytes, [ascii]).
    - Go [int] and [int64] values are [Z]: the source performs no
      arithmetic on them apart from a counter bounded by 20, and
      [int64(x)] of an [int] keeps the value.
    - A Go [error] is its message, a [string].
    - [map[string]interface{}] is a [gmap string value]; a failed type
      assertion, a nil dereference or an index out of range is [Panic]. *)

From Stdlib Require Import ZArith String Ascii List Bool Lia.
From stdpp Require Import base option list strings gmap.

Set Default Proof Using "Type".
#[local] Set Warnings "-register-all".
#[local] Open Scope Z_scope.

(* ================================================================== *)
(** * Part I: definitions *)
(* ================================================================== *)

(** ** Results of fallible Go code *)

Definition error := string.

Inductive res (A : Type) : Type :=
| Ok (a : A)          (* the function returned a value and a nil error *)
| Err (e : error)     (* the function returned a non-nil error *)
| Panic               (* the Go runtime panicked *)
| OutOfFuel.          (* a loop of the model was cut short; shown unreachable *)
Arguments Ok {A} a.
Arguments Err {A} e.
Arguments Panic {A}.
Arguments OutOfFuel {A}.

(** ** Package [regexp]: the fragment the source's patterns are written in *)
Module Regexp.

Inductive regex : Type :=
| Void                       (* matches nothing *)
| Eps                        (* the empty string *)
| Lit (c : ascii)            (* a literal byte *)
| Range (lo hi : ascii)      (* [lo-hi] *)
| Alt (r1 r2 : regex)        (* r1|r2, and the members of a class *)
| Cat (r1 r2 : regex)        (* r1r2 *)
| Star (r : regex).          (* r* *)

(** [r+] *)
Definition Plus (r : regex) : regex := Cat r (Star r).

Definition in_range (lo hi c : ascii) : bool :=
  (N_of_ascii lo <=? N_of_ascii c)%N && (N_of_ascii c <=? N_of_ascii hi)%N.

Fixpoint nullable (r : regex) : bool :=
  match r with
  | Void => false
  | Eps => true
  | Lit _ => false
  | Range _ _ => false
  | Alt r1 r2 => nullable r1 || nullable r2
  | Cat r1 r2 => nullable r1 && nullable r2
  | Star _ => true
  end.

Fixpoint deriv (c : ascii) (r : regex) : regex :=
  match r with
  | Void => Void
  | Eps => Void
  | Lit c' => if Ascii.eqb c c' then Eps else Void
  | Range lo hi => if in_range lo hi c then Eps else Void
  | Alt r1 r2 => Alt (deriv c r1) (deriv c r2)
  | Cat r1 r2 =>
      if nullable r1 then Alt (Cat (deriv c r1) r2) (deriv c r2)
      else Cat (deriv c r1) r2
  | Star r1 => Cat (deriv c r1) (Star r1)
  end.

(** [regexp.MustCompile("^" + r + "$").MatchString(s)]: with both
    anchors the whole of [s] has to match [r]. *)
Fixpoint MatchString (r : regex) (s : string) : bool :=
  match s with
  | EmptyString => nullable r
  | String c s' => MatchString (deriv c r) s'
  end.

(** The language of a pattern, as a relation. *)
Inductive matches : regex -> string -> Prop :=
| m_eps : matches Eps ""
| m_lit c : matches (Lit c) (String c "")
| m_range lo hi c : in_range lo hi c = true -> matches (Range lo hi) (String c "")
| m_alt_l r1 r2 s : matches r1 s -> matches (Alt r1 r2) s
| m_alt_r r1 r2 s : matches r2 s -> matches (Alt r1 r2) s
| m_cat r1 r2 s1 s2 : matches r1 s1 -> matches r2 s2 -> matches (Cat r1 r2) (s1 +:+ s2)
| m_star_nil r : matches (Star r) ""
| m_star_app r s1 s2 : matches r s1 -> matches (Star r) s2 -> matches (Star r) (s1 +:+ s2).

End Regexp.
Import Regexp.

(** ** Package [strings] *)
Module Strings.

(** [strings.Split(s, sep)] for a separator of one byte. *)
Fixpoint Split (s : string) (sep : ascii) : list string :=
  match s with
  | EmptyString => [EmptyString]
  | String c s' =>
      if Ascii.eqb c sep then EmptyString :: Split s' sep
      else match Split s' sep with
           | h :: t => String c h :: t
           | [] => [String c EmptyString]
           end
  end.

(** [strings.Contains(s, substr)] *)
Fixpoint Contains (s substr : string) : bool :=
  String.prefix substr s ||
  match s with
  | EmptyString => false
  | String _ s' => Contains s' substr
  end.

(** Whether the byte [c] occurs in [s]. *)
Fixpoint has_byte (c : ascii) (s : string) : bool :=
  match s with
  | EmptyString => false
  | String c' s' => Ascii.eqb c' c || has_byte c s'
  end.

End Strings.

(** ** The identifier codec *)

(** The character class [[a-z0-9-]]. *)
Definition name_class : regex :=
  Alt (Range "a" "z") (Alt (Range "0" "9") (Lit "-")).

(** [instanceGroupManagerIdRegex]:
    ["^" + ProjectRegex + "/[a-z0-9-]+/[a-z0-9-]+$"].  The constant
    [ProjectRegex] is declared in another file of the provider; it is a
    parameter here, a pattern that stands as one factor of the
    concatenation. *)
Definition instanceGroupManagerIdRegex (ProjectRegex : regex) : regex :=
  Cat ProjectRegex
      (Cat (Lit "/") (Cat (Plus name_class) (Cat (Lit "/") (Plus name_class)))).

(** [instanceGroupManagerIdNameRegex]: ["^[a-z0-9-]+$"] *)
Definition instanceGroupManagerIdNameRegex : regex := Plus name_class.

Record instanceGroupManagerId : Type := {
  Project : string;
  Zone : string;
  Name : string;
}.

(** [fmt.Sprintf("%s/%s/%s", i.Project, i.Zone, i.Name)] *)
Definition terraformId (i : instanceGroupManagerId) : string :=
  Project i +:+ "/" +:+ Zone i +:+ "/" +:+ Name i.

Definition invalid_specifier : error :=
  "Invalid instance group manager specifier. Expecting either {projectId}/{zone}/{name} or {name}, where {projectId} and {zone} will be derived from the provider.".

(** [parts[i]] on a slice: out of range panics. *)
Definition index {A} (parts : list A) (i : nat) : res A :=
  match parts !! i with
  | Some x => Ok x
  | None => Panic
  end.

Definition parseInstanceGroupManagerId (ProjectRegex : regex) (id : string)
  : res instanceGroupManagerId :=
  if MatchString (instanceGroupManagerIdRegex ProjectRegex) id then
    let parts := Strings.Split id "/" in
    match index parts 0, index parts 1, index parts 2 with
    | Ok p0, Ok p1, Ok p2 => Ok {| Project := p0; Zone := p1; Name := p2 |}
    | _, _, _ => Panic
    end
  else if MatchString instanceGroupManagerIdNameRegex id then
    Ok {| Project := ""; Zone := ""; Name := id |}
  else
    Err invalid_specifier.

(** The three-part pattern spelled out per component: what a triple has
    to satisfy for its encoding to match [instanceGroupManagerIdRegex].
    A project is a single path segment. *)
Definition well_formed_id (ProjectRegex : regex) (i : instanceGroupManagerId) : bool :=
  MatchString ProjectRegex (Project i)
  && negb (Strings.has_byte "/" (Project i))
  && MatchString (Plus name_class) (Zone i)
  && MatchString (Plus name_class) (Name i).

(** A pattern to evaluate the codec at: a lower-case letter followed by
    letters, digits and hyphens. *)
Definition sample_ProjectRegex : regex := Cat (Range "a" "z") (Star name_class).

(** ** Dynamically typed configuration values *)

(** What an [interface{}] of the configuration holds.  Go's [int] and
    [int64] are both [VInt]: the host converts between them when a value
    is written to the state. *)
Inductive value : Type :=
| VString (s : string)
| VInt (n : Z)
| VBool (b : bool)
| VList (l : list value)              (* []interface{}, []map[string]interface{} *)
| VSet (l : list value)               (* *schema.Set, in the order of its List() *)
| VMap (m : gmap string value).       (* map[string]interface{} *)

#[export] Instance res_ret : MRet res := fun A a => Ok a.
#[export] Instance res_bind : MBind res := fun A B f m =>
  match m with
  | Ok a => f a
  | Err e => Err e
  | Panic => Panic
  | OutOfFuel => OutOfFuel
  end.

(** Type assertions [v.(T)]; the argument is what a map lookup or
    [d.Get] produced, [None] being the nil interface. *)
Definition asString (v : option value) : res string :=
  match v with Some (VString s) => Ok s | _ => Panic end.
Definition asInt (v : option value) : res Z :=
  match v with Some (VInt n) => Ok n | _ => Panic end.
Definition asBool (v : option value) : res bool :=
  match v with Some (VBool b) => Ok b | _ => Panic end.
Definition asList (v : option value) : res (list value) :=
  match v with Some (VList l) => Ok l | _ => Panic end.
Definition asSetList (v : option value) : res (list value) :=
  match v with Some (VSet l) => Ok l | _ => Panic end.
Definition asMap (v : option value) : res (gmap string value) :=
  match v with Some (VMap m) => Ok m | _ => Panic end.

(** [for _, x := range xs { ... }] over a body that updates the
    variables [s] and may panic. *)
Fixpoint range {A S : Type} (xs : list A) (body : S -> A -> res S) (s : S) : res S :=
  match xs with
  | [] => Ok s
  | x :: xs' => s' ← body s x; range xs' body s'
  end.

(** ** The API's structs (package [computeBeta]), with the fields the
    source reads or writes.  A pointer or a slice is an [option]: [None]
    is nil. *)

Module FixedOrPercent.
Record t : Type := {
  Fixed : Z;
  Percent : Z;
  ForceSendFields : list string;
  NullFields : list string;
}.
Definition zero : t :=
  {| Fixed := 0; Percent := 0; ForceSendFields := []; NullFields := [] |}.
End FixedOrPercent.

Module NamedPort.
Record t : Type := { Name : string; Port : Z }.
End NamedPort.

Module AutoHealingPolicy.
Record t : Type := { HealthCheck : string; InitialDelaySec : Z }.
End AutoHealingPolicy.

Module Version.
Record t : Type := {
  Name : string;
  InstanceTemplate : string;
  TargetSize : option FixedOrPercent.t;
}.
End Version.

Module UpdatePolicy.
Record t : Type := {
  MinimalAction : string;
  Type_ : string;
  MaxSurge : option FixedOrPercent.t;
  MaxUnavailable : option FixedOrPercent.t;
  MinReadySec : Z;
}.
Definition zero : t :=
  {| MinimalAction := ""; Type_ := ""; MaxSurge := None;
     MaxUnavailable := None; MinReadySec := 0 |}.
End UpdatePolicy.

Module InstanceGroupManager.
Record t : Type := {
  Name : string;
  Description : string;
  BaseInstanceName : string;
  TargetSize : Z;
  NamedPorts : option (list NamedPort.t);
  TargetPools : option (list string);
  AutoHealingPolicies : option (list AutoHealingPolicy.t);
  Versions : option (list Version.t);
  UpdatePolicy : option UpdatePolicy.t;
  Fingerprint : string;
  Zone : string;
  InstanceGroup : string;
  SelfLink : string;
  ForceSendFields : list string;
}.
Definition zero : t :=
  {| Name := ""; Description := ""; BaseInstanceName := ""; TargetSize := 0;
     NamedPorts := None; TargetPools := None; AutoHealingPolicies := None;
     Versions := None; UpdatePolicy := None; Fingerprint := ""; Zone := "";
     InstanceGroup := ""; SelfLink := ""; ForceSendFields := [] |}.
End InstanceGroupManager.

(** [range] over a slice that may be nil. *)
Definition elems {A} (s : option (list A)) : list A := default [] s.

(** What the source takes from other files of the provider: the project
    pattern, two functions on self links, and the conversion of a set of
    strings to a slice (its argument is the set's [List()]). *)
Class Helpers : Type := {
  ProjectRegex : regex;
  ConvertSelfLinkToV1 : string -> string;
  GetResourceNameFromSelfLink : string -> string;
  convertStringSet : list value -> list string;
}.

(** ** Field transcoders *)

Definition getNamedPortsBeta (nps : list value) : res (list NamedPort.t) :=
  range nps (fun namedPorts v =>
    np ← asMap (Some v);
    name ← asString (np !! "name");
    port ← asInt (np !! "port");
    Ok (namedPorts ++ [ {| NamedPort.Name := name; NamedPort.Port := port |} ])) [].

Definition flattenNamedPortsBeta (namedPorts : list NamedPort.t) : list (gmap string value) :=
  foldl (fun result namedPort =>
    let namedPortMap : gmap string value := ∅ in
    let namedPortMap := <["name" := VString (NamedPort.Name namedPort)]> namedPortMap in
    let namedPortMap := <["port" := VInt (NamedPort.Port namedPort)]> namedPortMap in
    result ++ [namedPortMap]) [] namedPorts.

Definition flattenFixedOrPercent (fixedOrPercent : option FixedOrPercent.t)
  : res (list (gmap string value)) :=
  match fixedOrPercent with
  | None => Panic
  | Some fop =>
      let result : gmap string value := ∅ in
      if 0 <? FixedOrPercent.Percent fop then
        Ok [ <["percent" := VInt (FixedOrPercent.Percent fop)]> result ]
      else if 0 <? FixedOrPercent.Fixed fop then
        Ok [ <["fixed" := VInt (FixedOrPercent.Fixed fop)]> result ]
      else
        Ok []
  end.

Definition flattenVersions `{Helpers} (versions : list Version.t)
  : res (list (gmap string value)) :=
  range versions (fun result version =>
    let versionMap : gmap string value := ∅ in
    let versionMap := <["name" := VString (Version.Name version)]> versionMap in
    let versionMap :=
      <["instance_template" := VString (ConvertSelfLinkToV1 (Version.InstanceTemplate version))]>
        versionMap in
    ts ← flattenFixedOrPercent (Version.TargetSize version);
    let versionMap := <["target_size" := VList (VMap <$> ts)]> versionMap in
    Ok (result ++ [versionMap])) [].

Definition expandAutoHealingPolicies (configured : list value)
  : res (list AutoHealingPolicy.t) :=
  range configured (fun autoHealingPolicies raw =>
    data ← asMap (Some raw);
    hc ← asString (data !! "health_check");
    delay ← asInt (data !! "initial_delay_sec");
    Ok (autoHealingPolicies ++
          [ {| AutoHealingPolicy.HealthCheck := hc;
               AutoHealingPolicy.InitialDelaySec := delay |} ])) [].

Definition expandFixedOrPercent (configured : list value) : res FixedOrPercent.t :=
  range configured (fun fixedOrPercent raw =>
    data ← asMap (Some raw);
    percent ← asInt (data !! "percent");
    if 0 <? percent then
      Ok {| FixedOrPercent.Fixed := FixedOrPercent.Fixed fixedOrPercent;
            FixedOrPercent.Percent := percent;
            FixedOrPercent.ForceSendFields := FixedOrPercent.ForceSendFields fixedOrPercent;
            FixedOrPercent.NullFields := FixedOrPercent.NullFields fixedOrPercent |}
    else
      fixed ← asInt (data !! "fixed");
      Ok {| FixedOrPercent.Fixed := fixed;
            FixedOrPercent.Percent := FixedOrPercent.Percent fixedOrPercent;
            FixedOrPercent.ForceSendFields := ["Fixed"%string];
            FixedOrPercent.NullFields := FixedOrPercent.NullFields fixedOrPercent |})
    FixedOrPercent.zero.

Definition expandVersions (configured : list value) : res (list Version.t) :=
  range configured (fun versions raw =>
    data ← asMap (Some raw);
    name ← asString (data !! "name");
    template ← asString (data !! "instance_template");
    ts ← asList (data !! "target_size");
    targetSize ← expandFixedOrPercent ts;
    Ok (versions ++
          [ {| Version.Name := name; Version.InstanceTemplate := template;
               Version.TargetSize := Some targetSize |} ])) [].

(** One side of the update policy, [max_surge] or [max_unavailable]. *)
Definition expandPolicySide (data : gmap string value) (percent_key fixed_key : string)
  : res FixedOrPercent.t :=
  v ← asInt (data !! percent_key);
  if 0 <? v then
    Ok {| FixedOrPercent.Fixed := 0; FixedOrPercent.Percent := v;
          FixedOrPercent.ForceSendFields := [];
          FixedOrPercent.NullFields := ["Fixed"%string] |}
  else
    fixed ← asInt (data !! fixed_key);
    Ok {| FixedOrPercent.Fixed := fixed; FixedOrPercent.Percent := 0;
          FixedOrPercent.ForceSendFields := ["Fixed"%string];
          FixedOrPercent.NullFields := ["Percent"%string] |}.

Definition expandUpdatePolicy (configured : list value) : res UpdatePolicy.t :=
  range configured (fun updatePolicy raw =>
    data ← asMap (Some raw);
    minimalAction ← asString (data !! "minimal_action");
    type ← asString (data !! "type");
    maxSurge ← expandPolicySide data "max_surge_percent" "max_surge_fixed";
    maxUnavailable ← expandPolicySide data "max_unavailable_percent" "max_unavailable_fixed";
    minReadySec ←
      match data !! "min_ready_sec" with
      | Some v => asInt (Some v)
      | None => Ok (UpdatePolicy.MinReadySec updatePolicy)
      end;
    Ok {| UpdatePolicy.MinimalAction := minimalAction;
          UpdatePolicy.Type_ := type;
          UpdatePolicy.MaxSurge := Some maxSurge;
          UpdatePolicy.MaxUnavailable := Some maxUnavailable;
          UpdatePolicy.MinReadySec := minReadySec |})
    UpdatePolicy.zero.

Definition flattenAutoHealingPolicies (autoHealingPolicies : list AutoHealingPolicy.t)
  : list (gmap string value) :=
  foldl (fun autoHealingPoliciesSchema autoHealingPolicy =>
    let data : gmap string value :=
      {[ "health_check" := VString (AutoHealingPolicy.HealthCheck autoHealingPolicy);
         "initial_delay_sec" := VInt (AutoHealingPolicy.InitialDelaySec autoHealingPolicy) ]} in
    autoHealingPoliciesSchema ++ [data]) [] autoHealingPolicies.

Definition flattenUpdatePolicy (updatePolicy : option UpdatePolicy.t)
  : list (gmap string value) :=
  let results : list (gmap string value) := [] in
  match updatePolicy with
  | Some updatePolicy =>
      let up : gmap string value := ∅ in
      let up :=
        match UpdatePolicy.MaxSurge updatePolicy with
        | Some maxSurge =>
            <["max_surge_percent" := VInt (FixedOrPercent.Percent maxSurge)]>
              (<["max_surge_fixed" := VInt (FixedOrPercent.Fixed maxSurge)]> up)
        | None =>
            <["max_surge_percent" := VInt 0]> (<["max_surge_fixed" := VInt 0]> up)
        end in
      let up :=
        match UpdatePolicy.MaxUnavailable updatePolicy with
        | Some maxUnavailable =>
            <["max_unavailable_percent" := VInt (FixedOrPercent.Percent maxUnavailable)]>
              (<["max_unavailable_fixed" := VInt (FixedOrPercent.Fixed maxUnavailable)]> up)
        | None =>
            <["max_unavailable_percent" := VInt 0]> (<["max_unavailable_fixed" := VInt 0]> up)
        end in
      let up := <["min_ready_sec" := VInt (UpdatePolicy.MinReadySec updatePolicy)]> up in
      let up := <["minimal_action" := VString (UpdatePolicy.MinimalAction updatePolicy)]> up in
      let up := <["type" := VString (UpdatePolicy.Type_ updatePolicy)]> up in
      results ++ [up]
  | None => results
  end.

(** ** Fixed-or-percent blocks as the configuration writes them *)

(** A [target_size] block of the configuration: each field is either set
    or left out. *)
Record fixedOrPercentBlock : Type := {
  set_fixed : option Z;
  set_percent : option Z;
}.

(** The block as the host hands it to [expandFixedOrPercent]: every key
    of the nested schema is present, a [TypeInt] left out reads as 0. *)
Definition block_as_read (x : fixedOrPercentBlock) : value :=
  VMap {[ "fixed" := VInt (default 0 (set_fixed x));
          "percent" := VInt (default 0 (set_percent x)) ]}.

(** The block as a map that holds exactly the fields that are set. *)
Definition block_as_written (x : fixedOrPercentBlock) : gmap string value :=
  let m : gmap string value := ∅ in
  let m := match set_fixed x with Some f => <["fixed" := VInt f]> m | None => m end in
  match set_percent x with Some p => <["percent" := VInt p]> m | None => m end.

(** Exactly one of the two fields is set, to [v]. *)
Definition exactly_one_set (x : fixedOrPercentBlock) (v : Z) : Prop :=
  (set_fixed x = Some v /\ set_percent x = None)
  \/ (set_fixed x = None /\ set_percent x = Some v).

(** [flattenFixedOrPercent(expandFixedOrPercent(x))] *)
Definition flatten_expand (configured : list value) : res (list (gmap string value)) :=
  fop ← expandFixedOrPercent configured; flattenFixedOrPercent (Some fop).

(** Whether a flattened map shows a non-zero value under both keys. *)
Definition nonzero_at (m : gmap string value) (k : string) : bool :=
  match m !! k with
  | Some (VInt n) => negb (n =? 0)
  | _ => false
  end.
Definition presents_both (fixed_key percent_key : string) (m : gmap string value) : bool :=
  nonzero_at m fixed_key && nonzero_at m percent_key.

(** A server value with both fields of [MaxSurge] non-zero. *)
Definition surge_both : UpdatePolicy.t :=
  {| UpdatePolicy.MinimalAction := "REPLACE"; UpdatePolicy.Type_ := "PROACTIVE";
     UpdatePolicy.MaxSurge :=
       Some {| FixedOrPercent.Fixed := 3; FixedOrPercent.Percent := 50;
               FixedOrPercent.ForceSendFields := []; FixedOrPercent.NullFields := [] |};
     UpdatePolicy.MaxUnavailable := None; UpdatePolicy.MinReadySec := 0 |}.

(** ** The resource's schema and [schema.ResourceData] *)

Inductive ValueType : Type := TypeString | TypeInt | TypeBool | TypeList | TypeSet.

(** The top-level fields of [resourceComputeInstanceGroupManager().Schema]. *)
Definition resource_schema : gmap string ValueType :=
  list_to_map
    [ ("base_instance_name", TypeString); ("version", TypeList);
      ("name", TypeString); ("zone", TypeString); ("description", TypeString);
      ("fingerprint", TypeString); ("instance_group", TypeString);
      ("named_port", TypeSet); ("project", TypeString); ("self_link", TypeString);
      ("target_pools", TypeSet); ("target_size", TypeInt);
      ("auto_healing_policies", TypeList); ("update_policy", TypeList);
      ("wait_for_instances", TypeBool) ]%string.

Definition zero_value (t : ValueType) : value :=
  match t with
  | TypeString => VString ""
  | TypeInt => VInt 0
  | TypeBool => VBool false
  | TypeList => VList []
  | TypeSet => VSet []
  end.

(** The host's view of one resource: its id, the values [d.Get] reads,
    and the keys for which [d.HasChange] holds. *)
Record ResourceData : Type := {
  rd_Id : string;
  rd_attrs : gmap string value;
  rd_changed : gset string;
}.

(** [d.Get(key)]: the value, or the zero value of the field's type; nil
    for a key outside the schema. *)
Definition Get (d : ResourceData) (key : string) : option value :=
  match resource_schema !! key with
  | Some t => Some (default (zero_value t) (rd_attrs d !! key))
  | None => None
  end.

(** [d.HasChange(key)] *)
Definition HasChange (d : ResourceData) (key : string) : bool :=
  bool_decide (key ∈ rd_changed d).

(** [d.Set(key, v)], for a [v] of the field's type: the value is stored
    and the call returns nil. *)
Definition Set_ (d : ResourceData) (key : string) (v : value) : ResourceData :=
  {| rd_Id := rd_Id d; rd_attrs := <[key := v]> (rd_attrs d); rd_changed := rd_changed d |}.

(** [d.SetId(id)] *)
Definition SetId (d : ResourceData) (id : string) : ResourceData :=
  {| rd_Id := id; rd_attrs := rd_attrs d; rd_changed := rd_changed d |}.

(** ** The cloud API and the rest of the provider, as the source calls them *)

Inductive reply (A : Type) : Type :=
| Done (a : A)        (* value, nil error *)
| Failed (e : error). (* non-nil error *)
Arguments Done {A} a.
Arguments Failed {A} e.

(** A long-running operation, by name. *)
Definition Operation : Type := string.

Module InstanceGroup.
Record t : Type := { Size : Z }.
End InstanceGroup.

(** Setters for the fields the update request assigns. *)
Module IGM.
Import InstanceGroupManager.
Definition with_TargetPools (v : list string) (m : t) : t :=
  {| Name := Name m; Description := Description m;
     BaseInstanceName := BaseInstanceName m; TargetSize := TargetSize m;
     NamedPorts := NamedPorts m; TargetPools := Some v;
     AutoHealingPolicies := AutoHealingPolicies m; Versions := Versions m;
     UpdatePolicy := UpdatePolicy m; Fingerprint := Fingerprint m; Zone := Zone m;
     InstanceGroup := InstanceGroup m; SelfLink := SelfLink m;
     ForceSendFields := ForceSendFields m |}.
Definition with_AutoHealingPolicies (v : list AutoHealingPolicy.t) (m : t) : t :=
  {| Name := Name m; Description := Description m;
     BaseInstanceName := BaseInstanceName m; TargetSize := TargetSize m;
     NamedPorts := NamedPorts m; TargetPools := TargetPools m;
     AutoHealingPolicies := Some v; Versions := Versions m;
     UpdatePolicy := UpdatePolicy m; Fingerprint := Fingerprint m; Zone := Zone m;
     InstanceGroup := InstanceGroup m; SelfLink := SelfLink m;
     ForceSendFields := ForceSendFields m |}.
Definition with_Versions (v : list Version.t) (m : t) : t :=
  {| Name := Name m; Description := Description m;
     BaseInstanceName := BaseInstanceName m; TargetSize := TargetSize m;
     NamedPorts := NamedPorts m; TargetPools := TargetPools m;
     AutoHealingPolicies := AutoHealingPolicies m; Versions := Some v;
     UpdatePolicy := UpdatePolicy m; Fingerprint := Fingerprint m; Zone := Zone m;
     InstanceGroup := InstanceGroup m; SelfLink := SelfLink m;
     ForceSendFields := ForceSendFields m |}.
Definition with_UpdatePolicy (v : UpdatePolicy.t) (m : t) : t :=
  {| Name := Name m; Description := Description m;
     BaseInstanceName := BaseInstanceName m; TargetSize := TargetSize m;
     NamedPorts := NamedPorts m; TargetPools := TargetPools m;
     AutoHealingPolicies := AutoHealingPolicies m; Versions := Versions m;
     UpdatePolicy := Some v; Fingerprint := Fingerprint m; Zone := Zone m;
     InstanceGroup := InstanceGroup m; SelfLink := SelfLink m;
     ForceSendFields := ForceSendFields m |}.
Definition with_Fingerprint (v : string) (m : t) : t :=
  {| Name := Name m; Description := Description m;
     BaseInstanceName := BaseInstanceName m; TargetSize := TargetSize m;
     NamedPorts := NamedPorts m; TargetPools := TargetPools m;
     AutoHealingPolicies := AutoHealingPolicies m; Versions := Versions m;
     UpdatePolicy := UpdatePolicy m; Fingerprint := v; Zone := Zone m;
     InstanceGroup := InstanceGroup m; SelfLink := SelfLink m;
     ForceSendFields := ForceSendFields m |}.
Definition append_ForceSendFields (v : string) (m : t) : t :=
  {| Name := Name m; Description := Description m;
     BaseInstanceName := BaseInstanceName m; TargetSize := TargetSize m;
     NamedPorts := NamedPorts m; TargetPools := TargetPools m;
     AutoHealingPolicies := AutoHealingPolicies m; Versions := Versions m;
     UpdatePolicy := UpdatePolicy m; Fingerprint := Fingerprint m; Zone := Zone m;
     InstanceGroup := InstanceGroup m; SelfLink := SelfLink m;
     ForceSendFields := ForceSendFields m ++ [v] |}.
End IGM.

(** The calls the source makes, over a world [W] that answers them:
    the configured clients (the [Config] behind [meta]), the helpers of the
    provider that take [d] and the configuration, the operation poller
    and the host's [WaitForState]. *)
Class Cloud (W : Type) : Type := {
  getProject : ResourceData -> W -> reply string;
  getZone : ResourceData -> W -> reply string;
  getRegion : ResourceData -> W -> reply string;
  (* [handleNotFoundError(err, d, resource)]: nil for an error that
     means the resource is gone, after clearing the id of [d];
     otherwise the error to return *)
  handleNotFoundError : error -> string -> option error;
  (* [getZonalBetaResourceFromRegion(getResource, region, client, project)] *)
  getZonalBetaResourceFromRegion :
    (string -> W -> reply InstanceGroupManager.t * W) -> string -> string ->
    W -> reply (option InstanceGroupManager.t) * W;
  InstanceGroupManagers_Get :
    string -> string -> string -> W -> reply InstanceGroupManager.t * W;
  InstanceGroupManagers_Patch :
    string -> string -> string -> InstanceGroupManager.t -> W -> reply Operation * W;
  InstanceGroupManagers_Resize :
    string -> string -> string -> Z -> W -> reply Operation * W;
  InstanceGroupManagers_Delete :
    string -> string -> string -> W -> reply Operation * W;
  InstanceGroups_SetNamedPorts :
    string -> string -> string -> list NamedPort.t -> W -> reply Operation * W;
  InstanceGroups_Get :
    string -> string -> string -> W -> reply InstanceGroup.t * W;
  (* [computeSharedOperationWait(client, op, project, activity)] *)
  computeSharedOperationWait : Operation -> string -> string -> W -> option error * W;
  (* [conf.WaitForState()] with [waitForInstancesRefreshFunc(getManager, d, meta)]
     as its refresh function, which reads through [d] *)
  WaitForState : ResourceData -> W -> (option error * ResourceData) * W;
  (* [time.Sleep(ms * time.Millisecond)] *)
  Sleep : Z -> W -> W;
}.

(** The calls that leave the adapter, recorded in the order made. *)
Inductive Call : Type :=
| CManagersGet (project zone name : string)
| CZonalSearch (region project : string)
| CPatch (project zone name : string) (body : InstanceGroupManager.t)
| CResize (project zone name : string) (size : Z)
| CDelete (project zone name : string)
| CSetNamedPorts (project zone name : string) (ports : list NamedPort.t)
| CGroupsGet (project zone name : string)
| COperationWait (op : Operation) (project activity : string)
| CWaitForState
| CSleep (ms : Z).

(** ** The monad of a lifecycle operation: the world, [d], and the log
    of calls are threaded; [Err] is the operation returning an error. *)
Record St (W : Type) : Type := mkSt {
  world : W;
  data : ResourceData;
  calls : list Call;
}.
Arguments mkSt {W} world data calls.
Arguments world {W} s.
Arguments data {W} s.
Arguments calls {W} s.

Definition M (W A : Type) : Type := St W -> res A * St W.

#[export] Instance M_ret {W} : MRet (M W) := fun A a st => (Ok a, st).
#[export] Instance M_bind {W} : MBind (M W) := fun A B f m st =>
  match m st with
  | (Ok a, st') => f a st'
  | (Err e, st') => (Err e, st')
  | (Panic, st') => (Panic, st')
  | (OutOfFuel, st') => (OutOfFuel, st')
  end.

Section Primitives.
Context {W : Type}.

(** [return err] *)
Definition fail {A} (e : error) : M W A := fun st => (Err e, st).

(** A pure step that may panic. *)
Definition lift {A} (r : res A) : M W A := fun st => (r, st).

(** [v, err := f(d, config); if err != nil { return err }] *)
Definition try {A} (f : W -> reply A) : M W A := fun st =>
  match f (world st) with
  | Done a => (Ok a, st)
  | Failed e => (Err e, st)
  end.

(** [v, _ = f(d, config)]: the error is dropped, [v] is then [zero]. *)
Definition try_or {A} (f : W -> reply A) (zero : A) : M W A := fun st =>
  match f (world st) with
  | Done a => (Ok a, st)
  | Failed _ => (Ok zero, st)
  end.

Definition get_d : M W ResourceData := fun st => (Ok (data st), st).

Definition put_d (d : ResourceData) : M W unit := fun st =>
  (Ok tt, mkSt (world st) d (calls st)).

Definition d_Set (key : string) (v : value) : M W unit := fun st =>
  (Ok tt, mkSt (world st) (Set_ (data st) key v) (calls st)).

Definition d_SetId (id : string) : M W unit := fun st =>
  (Ok tt, mkSt (world st) (SetId (data st) id) (calls st)).

(** A call that leaves the adapter: logged, answered by the world. *)
Definition call {A} (c : Call) (f : W -> A * W) : M W A := fun st =>
  let '(a, w) := f (world st) in
  (Ok a, mkSt w (data st) (calls st ++ [c])).

(** [if err != nil { return err }] *)
Definition check (err : option error) : M W unit :=
  match err with
  | Some e => fail e
  | None => mret tt
  end.

End Primitives.

(** ** Lifecycle operations *)

(** [%q] of a string that needs no escaping. *)
Definition quoted (s : string) : string :=
  String (ascii_of_nat 34) (s +:+ String (ascii_of_nat 34) "").

Section Lifecycle.
Context {helpers : Helpers} {W : Type} {cloud : Cloud W}.

(** [getManager(d, meta)].  [zonalID.Zone, _ = getZone(d, config)]
    drops the error: a failed [getZone] leaves the empty zone. *)
Definition getManager : M W (option InstanceGroupManager.t) :=
  d ← get_d;
  zonalID ← lift (parseInstanceGroupManagerId ProjectRegex (rd_Id d));
  project ← (if decide (Project zonalID = "") then try (getProject d)
             else mret (Project zonalID));
  zone ← (if decide (Zone zonalID = "") then try_or (getZone d) ""%string
          else mret (Zone zonalID));
  let name := Name zonalID in
  manager ←
    (if decide (zone = "") then
       region ← try (getRegion d);
       resource ← call (CZonalSearch region project)
         (getZonalBetaResourceFromRegion
            (fun zone => InstanceGroupManagers_Get project zone name) region project);
       match resource with
       | Failed e => fail e
       | Done resource => mret (Some resource)
       end
     else
       r ← call (CManagersGet project zone name)
             (InstanceGroupManagers_Get project zone name);
       match r with
       | Failed e =>
           match handleNotFoundError e ("Instance Group Manager " +:+ quoted name) with
           | Some e' => fail e'
           | None => _ ← d_SetId ""; mret None      (* return nil, nil *)
           end
       | Done manager => mret (Some (Some manager))
       end);
  match manager with
  | None => mret None
  | Some None =>
      (* The resource doesn't exist anymore *)
      _ ← d_SetId "";
      mret None
  | Some (Some manager) => mret (Some manager)
  end.

(** [resourceComputeInstanceGroupManagerRead] *)
Definition resourceComputeInstanceGroupManagerRead : M W unit :=
  d ← get_d;
  project ← try (getProject d);
  manager ← getManager;
  match manager with
  | None => d_SetId ""
  | Some manager =>
      _ ← d_Set "base_instance_name"
            (VString (InstanceGroupManager.BaseInstanceName manager));
      _ ← d_Set "name" (VString (InstanceGroupManager.Name manager));
      _ ← d_Set "zone"
            (VString (GetResourceNameFromSelfLink (InstanceGroupManager.Zone manager)));
      _ ← d_Set "description" (VString (InstanceGroupManager.Description manager));
      _ ← d_Set "project" (VString project);
      _ ← d_Set "target_size" (VInt (InstanceGroupManager.TargetSize manager));
      _ ← d_Set "target_pools"
            (VSet (VString <$> elems (InstanceGroupManager.TargetPools manager)));
      _ ← d_Set "named_port"
            (VSet (VMap <$> flattenNamedPortsBeta
                              (elems (InstanceGroupManager.NamedPorts manager))));
      _ ← d_Set "fingerprint" (VString (InstanceGroupManager.Fingerprint manager));
      _ ← d_Set "instance_group"
            (VString (ConvertSelfLinkToV1 (InstanceGroupManager.InstanceGroup manager)));
      _ ← d_Set "self_link"
            (VString (ConvertSelfLinkToV1 (InstanceGroupManager.SelfLink manager)));
      _ ← d_Set "auto_healing_policies"
            (VList (VMap <$> flattenAutoHealingPolicies
                               (elems (InstanceGroupManager.AutoHealingPolicies manager))));
      versions ← lift (flattenVersions (elems (InstanceGroupManager.Versions manager)));
      _ ← d_Set "version" (VList (VMap <$> versions));
      _ ← d_Set "update_policy"
            (VList (VMap <$> flattenUpdatePolicy (InstanceGroupManager.UpdatePolicy manager)));
      d ← get_d;
      wait ← lift (asBool (Get d "wait_for_instances"));
      if (wait : bool) then
        r ← call CWaitForState (WaitForState d);
        _ ← put_d r.2;
        check r.1
      else mret tt
  end.

(** The request of [resourceComputeInstanceGroupManagerUpdate]
    (lines 476-500): [updatedManager] and the flag [change]. *)
Definition updatedManager_of (d : ResourceData) : res (InstanceGroupManager.t * bool) :=
  fingerprint ← asString (Get d "fingerprint");
  let updatedManager := IGM.with_Fingerprint fingerprint InstanceGroupManager.zero in
  let change := false in
  '(updatedManager, change) ←
    (if HasChange d "target_pools" then
       pools ← asSetList (Get d "target_pools");
       Ok (IGM.with_TargetPools (convertStringSet pools) updatedManager, true)
     else Ok (updatedManager, change));
  '(updatedManager, change) ←
    (if HasChange d "auto_healing_policies" then
       configured ← asList (Get d "auto_healing_policies");
       policies ← expandAutoHealingPolicies configured;
       Ok (IGM.append_ForceSendFields "AutoHealingPolicies"
             (IGM.with_AutoHealingPolicies policies updatedManager), true)
     else Ok (updatedManager, change));
  '(updatedManager, change) ←
    (if HasChange d "version" then
       configured ← asList (Get d "version");
       versions ← expandVersions configured;
       Ok (IGM.with_Versions versions updatedManager, true)
     else Ok (updatedManager, change));
  '(updatedManager, change) ←
    (if HasChange d "update_policy" then
       configured ← asList (Get d "update_policy");
       policy ← expandUpdatePolicy configured;
       Ok (IGM.with_UpdatePolicy policy updatedManager, true)
     else Ok (updatedManager, change));
  Ok (updatedManager, change).

(** Lines 502-512: the patch. *)
Definition update_patch (d : ResourceData) (project zone : string)
    (updatedManager : InstanceGroupManager.t) (change : bool) : M W unit :=
  if change then
    name ← lift (asString (Get d "name"));
    r ← call (CPatch project zone name updatedManager)
          (InstanceGroupManagers_Patch project zone name updatedManager);
    match r with
    | Failed e => fail ("Error updating managed group instances: " +:+ e)
    | Done op =>
        err ← call (COperationWait op project "Updating managed group instances")
                (computeSharedOperationWait op project "Updating managed group instances");
        check err
    end
  else mret tt.

(** Lines 514-537: named ports can't be updated through PATCH. *)
Definition update_named_port (d : ResourceData) (project zone : string) : M W unit :=
  if HasChange d "named_port" then
    nps ← lift (asSetList (Get d "named_port"));
    namedPorts ← lift (getNamedPortsBeta nps);
    name ← lift (asString (Get d "name"));
    r ← call (CSetNamedPorts project zone name namedPorts)
          (InstanceGroups_SetNamedPorts project zone name namedPorts);
    match r with
    | Failed e => fail ("Error updating InstanceGroupManager: " +:+ e)
    | Done op =>
        err ← call (COperationWait op project "Updating InstanceGroupManager")
                (computeSharedOperationWait op project "Updating InstanceGroupManager");
        check err
    end
  else mret tt.

(** Lines 539-554: target_size should be updated through resize. *)
Definition update_target_size (d : ResourceData) (project zone : string) : M W unit :=
  if HasChange d "target_size" then
    targetSize ← lift (asInt (Get d "target_size"));
    name ← lift (asString (Get d "name"));
    r ← call (CResize project zone name targetSize)
          (InstanceGroupManagers_Resize project zone name targetSize);
    match r with
    | Failed e => fail ("Error updating InstanceGroupManager: " +:+ e)
    | Done op =>
        err ← call (COperationWait op project "Updating InstanceGroupManager")
                (computeSharedOperationWait op project "Updating InstanceGroupManager");
        check err
    end
  else mret tt.

(** [resourceComputeInstanceGroupManagerUpdate].  Nothing writes to
    [d] before the final read, so [d] is taken once. *)
Definition update_from (d : ResourceData) : M W unit :=
  project ← try (getProject d);
  zone ← try (getZone d);
  request ← lift (updatedManager_of d);
  _ ← update_patch d project zone request.1 request.2;
  _ ← update_named_port d project zone;
  _ ← update_target_size d project zone;
  resourceComputeInstanceGroupManagerRead.

Definition resourceComputeInstanceGroupManagerUpdate : M W unit :=
  d ← get_d; update_from d.

(** Lines 582-587: [for err != nil && attempt < 20].  [remaining] is
    [20 - attempt]; [r] is the pair [(op, err)]. *)
Fixpoint delete_retry (remaining : nat) (project zone name : string)
    (r : reply Operation) : M W (reply Operation) :=
  match r, remaining with
  | Failed _, S remaining' =>
      _ ← call (CSleep 2000) (fun w => (tt, Sleep 2000 w));
      r' ← call (CDelete project zone name)
             (InstanceGroupManagers_Delete project zone name);
      delete_retry remaining' project zone name r'
  | _, _ => mret r
  end.

Definition not_shrinking : error :=
  "Error, instance group isn't shrinking during delete".

(** Lines 598-618: [for err != nil && currentSize > 0].  In the body,
    [instanceGroup, err := ...Get(...).Do()] declares a second [err],
    local to the block of the body: the assignment
    [err = computeSharedOperationWait(...)] that ends the body is to
    that one, and the condition of the loop and the test for "timeout"
    read the first, which keeps the outcome of the poll that preceded
    the loop.  Every turn lowers [currentSize], so [Z.to_nat currentSize]
    turns are enough. *)
Fixpoint delete_drain (fuel : nat) (op : Operation) (project zone name : string)
    (err : option error) (currentSize : Z) : M W unit :=
  match err with
  | Some e =>
      if 0 <? currentSize then
        match fuel with
        | O => lift OutOfFuel
        | S fuel' =>
            if negb (Strings.Contains e "timeout") then fail e
            else
              r ← call (CGroupsGet project zone name)
                    (InstanceGroups_Get project zone name);
              match r with
              | Failed e' => fail ("Error getting instance group size: " +:+ e')
              | Done instanceGroup =>
                  let instanceGroupSize := InstanceGroup.Size instanceGroup in
                  if currentSize <=? instanceGroupSize then fail not_shrinking
                  else
                    let currentSize := instanceGroupSize in
                    (* assigned to the [err] of the body *)
                    _ ← call (COperationWait op project "Deleting InstanceGroupManager")
                          (computeSharedOperationWait op project
                             "Deleting InstanceGroupManager");
                    delete_drain fuel' op project zone name err currentSize
              end
        end
      else mret tt
  | None => mret tt
  end.

(** [resourceComputeInstanceGroupManagerDelete].  [d] is written to
    only by the final [d.SetId], so it is taken once. *)
Definition delete_from (d : ResourceData) : M W unit :=
  zonalID ← lift (parseInstanceGroupManagerId ProjectRegex (rd_Id d));
  project ← (if decide (Project zonalID = "") then try (getProject d)
             else mret (Project zonalID));
  zone ← (if decide (Zone zonalID = "") then try (getZone d)
          else mret (Zone zonalID));
  let name := Name zonalID in
  r ← call (CDelete project zone name) (InstanceGroupManagers_Delete project zone name);
  r ← delete_retry 20 project zone name r;
  match r with
  | Failed e => fail ("Error deleting instance group manager: " +:+ e)
  | Done op =>
      currentSize ← lift (asInt (Get d "target_size"));
      err ← call (COperationWait op project "Deleting InstanceGroupManager")
              (computeSharedOperationWait op project "Deleting InstanceGroupManager");
      _ ← delete_drain (Z.to_nat currentSize) op project zone name err currentSize;
      d_SetId ""
  end.

Definition resourceComputeInstanceGroupManagerDelete : M W unit :=
  d ← get_d; delete_from d.

Definition invalid_import_id : error :=
  "Invalid instance group manager import ID. Expecting {projectId}/{zone}/{name}.".

(** [resourceInstanceGroupManagerStateImporter]; the slice it returns
    holds [d] itself. *)
Definition resourceInstanceGroupManagerStateImporter : M W (list ResourceData) :=
  _ ← d_Set "wait_for_instances" (VBool false);
  d ← get_d;
  zonalID ← lift (parseInstanceGroupManagerId ProjectRegex (rd_Id d));
  if bool_decide (Zone zonalID = "") || bool_decide (Project zonalID = "") then
    fail invalid_import_id
  else
    _ ← d_Set "project" (VString (Project zonalID));
    _ ← d_Set "zone" (VString (Zone zonalID));
    _ ← d_Set "name" (VString (Name zonalID));
    d ← get_d;
    mret [d].

End Lifecycle.

(** ** Vocabulary of the statements *)

(** [m] keeps the state property [I]. *)
Definition preserves {W A} (I : St W -> Prop) (m : M W A) : Prop :=
  forall st, I st -> I (m st).2.

(** The log is [before] followed by calls that all satisfy [allowed]. *)
Definition extends_with {W} (before : list Call) (allowed : Call -> Prop) (st : St W) : Prop :=
  exists new, calls st = before ++ new /\ Forall allowed new.

Definition is_patch (c : Call) : bool :=
  match c with CPatch _ _ _ _ => true | _ => false end.
Definition is_resize (c : Call) : bool :=
  match c with CResize _ _ _ _ => true | _ => false end.
Definition is_set_named_ports (c : Call) : bool :=
  match c with CSetNamedPorts _ _ _ _ => true | _ => false end.
Definition is_wait_for_state (c : Call) : bool :=
  match c with CWaitForState => true | _ => false end.

(** The calls a read makes. *)
Definition read_call (c : Call) : bool :=
  match c with
  | CManagersGet _ _ _ | CZonalSearch _ _ | CWaitForState => true
  | _ => false
  end.

(** [wait_for_instances] is off and no [WaitForState] was logged after
    [before]. *)
Definition flag_off {W} (before : list Call) (st : St W) : Prop :=
  Get (data st) "wait_for_instances" = Some (VBool false)
  /\ extends_with before (fun c => is_wait_for_state c = false) st.

(** A patch is sent when one of these four fields changed. *)
Definition patch_field_changed (d : ResourceData) : bool :=
  HasChange d "target_pools" || HasChange d "auto_healing_policies"
  || HasChange d "version" || HasChange d "update_policy".

(** [body] holds the stored fingerprint, each of the four fields that
    changed, expanded from [d], and none of the others; of the fields
    it holds, [AutoHealingPolicies] alone is listed in
    [ForceSendFields]. *)
Definition carries_changed_fields `{Helpers} (d : ResourceData)
    (body : InstanceGroupManager.t) : Prop :=
  asString (Get d "fingerprint") = Ok (InstanceGroupManager.Fingerprint body)
  /\ (if HasChange d "target_pools"
      then exists pools, asSetList (Get d "target_pools") = Ok pools
             /\ InstanceGroupManager.TargetPools body = Some (convertStringSet pools)
      else InstanceGroupManager.TargetPools body = None)
  /\ (if HasChange d "auto_healing_policies"
      then exists configured policies,
             asList (Get d "auto_healing_policies") = Ok configured
             /\ expandAutoHealingPolicies configured = Ok policies
             /\ InstanceGroupManager.AutoHealingPolicies body = Some policies
      else InstanceGroupManager.AutoHealingPolicies body = None)
  /\ (if HasChange d "version"
      then exists configured versions,
             asList (Get d "version") = Ok configured
             /\ expandVersions configured = Ok versions
             /\ InstanceGroupManager.Versions body = Some versions
      else InstanceGroupManager.Versions body = None)
  /\ (if HasChange d "update_policy"
      then exists configured policy,
             asList (Get d "update_policy") = Ok configured
             /\ expandUpdatePolicy configured = Ok policy
             /\ InstanceGroupManager.UpdatePolicy body = Some policy
      else InstanceGroupManager.UpdatePolicy body = None)
  /\ InstanceGroupManager.NamedPorts body = None
  /\ InstanceGroupManager.TargetSize body = 0
  /\ InstanceGroupManager.ForceSendFields body
     = (if HasChange d "auto_healing_policies"
        then ["AutoHealingPolicies"%string] else []).

(** The fields an update acts on, and [key] being the only one of them
    that changed. *)
Definition update_keys : list string :=
  [ "target_pools"; "auto_healing_policies"; "version"; "update_policy";
    "named_port"; "target_size" ]%string.
Definition only_changed (d : ResourceData) (key : string) : Prop :=
  Forall (fun k => HasChange d k = bool_decide (k = key)) update_keys.

(** [x], or what the provider resolves when [x] is empty. *)
Definition resolved (x : string) (fallback : reply string) : reply string :=
  if decide (x = ""%string) then fallback else Done x.

Definition failed {A} (r : reply A) : bool :=
  match r with Failed _ => true | Done _ => false end.

(** The answer to delete request number [k], counted from 0, and the
    world it leaves, when each request before it was followed by the
    sleep of 2000 ms and a new request. *)
Fixpoint nth_delete {W} `{Cloud W} (project zone name : string) (k : nat) (w : W)
  : reply Operation * W :=
  match k with
  | O => InstanceGroupManagers_Delete project zone name w
  | S k' =>
      InstanceGroupManagers_Delete project zone name
        (Sleep 2000 (nth_delete project zone name k' w).2)
  end.

(** The calls of [k] retries. *)
Fixpoint retry_calls (project zone name : string) (k : nat) : list Call :=
  match k with
  | O => []
  | S k' => CSleep 2000 :: CDelete project zone name :: retry_calls project zone name k'
  end.

Definition is_delete_or_sleep (c : Call) : bool :=
  match c with CDelete _ _ _ | CSleep _ => true | _ => false end.

Definition deleting : string := "Deleting InstanceGroupManager".

(** [m] never stops for lack of fuel. *)
Definition in_fuel {W A} (m : M W A) : Prop :=
  forall st, (m st).1 <> OutOfFuel.

(** ** A world that answers from a script *)
Module Scripted.

Inductive answer : Type :=
| AOperation (r : reply Operation)
| AWait (err : option error)
| AGroup (r : reply InstanceGroup.t)
| AManager (r : reply InstanceGroupManager.t).

Definition world : Type := list answer.

Definition exhausted : error := "script exhausted".

Definition next_operation (w : world) : reply Operation * world :=
  match w with
  | AOperation r :: w' => (r, w')
  | _ => (Failed exhausted, w)
  end.
Definition next_wait (w : world) : option error * world :=
  match w with
  | AWait err :: w' => (err, w')
  | _ => (Some exhausted, w)
  end.
Definition next_group (w : world) : reply InstanceGroup.t * world :=
  match w with
  | AGroup r :: w' => (r, w')
  | _ => (Failed exhausted, w)
  end.
Definition next_manager (w : world) : reply InstanceGroupManager.t * world :=
  match w with
  | AManager r :: w' => (r, w')
  | _ => (Failed exhausted, w)
  end.

Definition strings_of (l : list value) : list string :=
  omap (fun v => match v with VString s => Some s | _ => None end) l.

Definition helpers : Helpers :=
  {| ProjectRegex := sample_ProjectRegex;
     ConvertSelfLinkToV1 := fun s => s;
     GetResourceNameFromSelfLink := fun s => s;
     convertStringSet := strings_of |}.

Definition cloud : Cloud world :=
  {| getProject := fun _ _ => Done "my-project"%string;
     getZone := fun _ _ => Done "us-central1-a"%string;
     getRegion := fun _ _ => Done "us-central1"%string;
     handleNotFoundError := fun e _ => Some e;
     getZonalBetaResourceFromRegion := fun _ _ _ w =>
       match next_manager w with
       | (Done m, w') => (Done (Some m), w')
       | (Failed e, w') => (Failed e, w')
       end;
     InstanceGroupManagers_Get := fun _ _ _ => next_manager;
     InstanceGroupManagers_Patch := fun _ _ _ _ => next_operation;
     InstanceGroupManagers_Resize := fun _ _ _ _ => next_operation;
     InstanceGroupManagers_Delete := fun _ _ _ => next_operation;
     InstanceGroups_SetNamedPorts := fun _ _ _ _ => next_operation;
     InstanceGroups_Get := fun _ _ _ => next_group;
     computeSharedOperationWait := fun _ _ _ => next_wait;
     WaitForState := fun d w => let '(err, w') := next_wait w in ((err, d), w');
     Sleep := fun _ w => w |}.

(** A resource with the given id, values and changed keys. *)
Definition resource (id : string) (attrs : list (string * value)) (changed : list string)
  : ResourceData :=
  {| rd_Id := id; rd_attrs := list_to_map attrs; rd_changed := list_to_set changed |}.

Definition start (w : world) (d : ResourceData) : St world := mkSt w d [].

(** A group of ten instances, and a deletion during which three polls
    time out while the group shrinks from 10 to 6, to 3 and to 0. *)
Definition group_of_ten : ResourceData :=
  resource "my-project/us-central1-a/igm-1"
    [("name", VString "igm-1"); ("target_size", VInt 10)]%string [].

Definition timed_out : error := "timeout while waiting for state to become 'DONE'".

Definition shrinking : world :=
  [ AOperation (Done "operation-1"%string);
    AWait (Some timed_out); AGroup (Done {| InstanceGroup.Size := 6 |});
    AWait (Some timed_out); AGroup (Done {| InstanceGroup.Size := 3 |});
    AWait (Some timed_out); AGroup (Done {| InstanceGroup.Size := 0 |});
    AWait (Some timed_out) ].

(** Resources to evaluate an update at: one whose [target_pools]
    changed, one whose [named_port] changed, one whose [target_size]
    changed. *)
Definition pools_changed : ResourceData :=
  resource "my-project/us-central1-a/igm-1"
    [("name", VString "igm-1"); ("fingerprint", VString "abc123");
     ("target_pools", VSet [VString "pool-a"])]%string
    ["target_pools"%string].

Definition ports_changed : ResourceData :=
  resource "my-project/us-central1-a/igm-1"
    [("name", VString "igm-1"); ("fingerprint", VString "abc123");
     ("named_port",
      VSet [VMap {[ "name" := VString "http"; "port" := VInt 80 ]}])]%string
    ["named_port"%string].

Definition size_changed : ResourceData :=
  resource "my-project/us-central1-a/igm-1"
    [("name", VString "igm-1"); ("fingerprint", VString "abc123");
     ("target_size", VInt 3)]%string
    ["target_size"%string].

(** An update whose one request is accepted and completes, followed
    by the read. *)
Definition accepting : world :=
  [ AOperation (Done "operation-7"%string); AWait None;
    AManager (Done InstanceGroupManager.zero) ].

(** A delete request that succeeds at the second retry. *)
Definition flaky : world :=
  [ AOperation (Failed "backend error"%string);
    AOperation (Failed "backend error"%string);
    AOperation (Done "operation-1"%string); AWait None ].

(** A resource to import, with the flag supplied as true. *)
Definition to_import : ResourceData :=
  resource "my-project/us-central1-a/igm-1"
    [("wait_for_instances", VBool true)]%string [].

(** The deletion of the group of ten when the first poll times out,
    the group has six instances, and the second poll fails for a reason
    other than a timeout. *)
Definition forbidden : error := "googleapi: Error 403: Forbidden".

Definition second_poll_fails : world :=
  [ AOperation (Done "operation-1"%string);
    AWait (Some timed_out); AGroup (Done {| InstanceGroup.Size := 6 |});
    AWait (Some forbidden); AGroup (Done {| InstanceGroup.Size := 3 |});
    AWait None; AGroup (Done {| InstanceGroup.Size := 0 |});
    AWait None ].

(** The same when the second poll succeeds: the operation is done and
    the group is gone. *)
Definition not_found : error := "googleapi: Error 404: Not Found".

Definition second_poll_succeeds : world :=
  [ AOperation (Done "operation-1"%string);
    AWait (Some timed_out); AGroup (Done {| InstanceGroup.Size := 6 |});
    AWait None; AGroup (Failed not_found) ].

(** The same deletion with a group that still has ten instances at
    the first poll that times out. *)
Definition stuck : world :=
  [ AOperation (Done "operation-1"%string);
    AWait (Some timed_out); AGroup (Done {| InstanceGroup.Size := 10 |}) ].

End Scripted.

(** ** Further vocabulary: the transcoders *)


(** A flattened fixed-or-percent map, read as the block it shows. *)
Definition block_of_flat (m : gmap string value) : fixedOrPercentBlock :=
  {| set_fixed := match m !! "fixed" with Some (VInt n) => Some n | _ => None end;
     set_percent := match m !! "percent" with Some (VInt n) => Some n | _ => None end |}.

(** What the host hands to [expandFixedOrPercent] for a value that was
    flattened into the state: each map with every key of the nested
    schema filled in. *)
Definition reread (ts : list (gmap string value)) : list value :=
  (fun m => block_as_read (block_of_flat m)) <$> ts.

(** One side of an update policy as [expandUpdatePolicy] sends it:
    a positive percent with [Fixed] nulled, or a fixed value, forced,
    with [Percent] nulled. *)
Definition sent_exclusive (fop : FixedOrPercent.t) : Prop :=
  (0 < FixedOrPercent.Percent fop /\ FixedOrPercent.Fixed fop = 0
   /\ FixedOrPercent.ForceSendFields fop = []
   /\ FixedOrPercent.NullFields fop = ["Fixed"%string])
  \/ (FixedOrPercent.Percent fop = 0
      /\ FixedOrPercent.ForceSendFields fop = ["Fixed"%string]
      /\ FixedOrPercent.NullFields fop = ["Percent"%string]).

(** The side that [expandUpdatePolicy] builds from a percent and a
    fixed value: the percent when positive, the fixed value otherwise. *)
Definition side_of (fixed percent : Z) : FixedOrPercent.t :=
  if 0 <? percent then
    {| FixedOrPercent.Fixed := 0; FixedOrPercent.Percent := percent;
       FixedOrPercent.ForceSendFields := [];
       FixedOrPercent.NullFields := ["Fixed"%string] |}
  else
    {| FixedOrPercent.Fixed := fixed; FixedOrPercent.Percent := 0;
       FixedOrPercent.ForceSendFields := ["Fixed"%string];
       FixedOrPercent.NullFields := ["Percent"%string] |}.


(** The flattened version [m] holds the name of [v], its template as a
    v1 self link, and its target size as [flattenFixedOrPercent] gives
    it. *)
Definition version_entry `{Helpers} (v : Version.t) (m : gmap string value) : Prop :=
  m !! "name" = Some (VString (Version.Name v))
  /\ m !! "instance_template"
     = Some (VString (ConvertSelfLinkToV1 (Version.InstanceTemplate v)))
  /\ exists ts, flattenFixedOrPercent (Version.TargetSize v) = Ok ts
       /\ m !! "target_size" = Some (VList (VMap <$> ts)).

(** Neither side of a flattened update policy shows a non-zero fixed
    value next to a non-zero percent. *)
Definition policy_shows_one (m : gmap string value) : Prop :=
  presents_both "max_surge_fixed" "max_surge_percent" m = false
  /\ presents_both "max_unavailable_fixed" "max_unavailable_percent" m = false.

(** ** Further vocabulary: identifiers *)

(** How often the byte [c] occurs in [s]. *)
Fixpoint count_byte (c : ascii) (s : string) : nat :=
  match s with
  | EmptyString => O
  | String c' s' => (if Ascii.eqb c' c then 1 else 0) + count_byte c s'
  end.

(** ** Further vocabulary: reads *)

(** [x], or what [getZone] gives when [x] is empty, its error dropped. *)
Definition resolved_or_empty (x : string) (fallback : reply string) : string :=
  if decide (x = ""%string) then
    match fallback with Done z => z | Failed _ => ""%string end
  else x.

(** [d] after the [d.Set] calls of a read (lines 421-445) for the
    manager [m], with [project] from [getProject] and [versions] from
    [flattenVersions]. *)
Definition read_state `{Helpers} (d : ResourceData) (project : string)
    (m : InstanceGroupManager.t) (versions : list (gmap string value)) : ResourceData :=
  let d := Set_ d "base_instance_name" (VString (InstanceGroupManager.BaseInstanceName m)) in
  let d := Set_ d "name" (VString (InstanceGroupManager.Name m)) in
  let d := Set_ d "zone"
             (VString (GetResourceNameFromSelfLink (InstanceGroupManager.Zone m))) in
  let d := Set_ d "description" (VString (InstanceGroupManager.Description m)) in
  let d := Set_ d "project" (VString project) in
  let d := Set_ d "target_size" (VInt (InstanceGroupManager.TargetSize m)) in
  let d := Set_ d "target_pools"
             (VSet (VString <$> elems (InstanceGroupManager.TargetPools m))) in
  let d := Set_ d "named_port"
             (VSet (VMap <$> flattenNamedPortsBeta
                               (elems (InstanceGroupManager.NamedPorts m)))) in
  let d := Set_ d "fingerprint" (VString (InstanceGroupManager.Fingerprint m)) in
  let d := Set_ d "instance_group"
             (VString (ConvertSelfLinkToV1 (InstanceGroupManager.InstanceGroup m))) in
  let d := Set_ d "self_link"
             (VString (ConvertSelfLinkToV1 (InstanceGroupManager.SelfLink m))) in
  let d := Set_ d "auto_healing_policies"
             (VList (VMap <$> flattenAutoHealingPolicies
                                (elems (InstanceGroupManager.AutoHealingPolicies m)))) in
  let d := Set_ d "version" (VList (VMap <$> versions)) in
  Set_ d "update_policy"
    (VList (VMap <$> flattenUpdatePolicy (InstanceGroupManager.UpdatePolicy m))).

(** The resource name that [getManager] passes to
    [handleNotFoundError]. *)
Definition manager_label (name : string) : string :=
  "Instance Group Manager " +:+ quoted name.

(** ** Further vocabulary: updates and deletes *)

Definition updating_patch : string := "Updating managed group instances".
Definition updating : string := "Updating InstanceGroupManager".

(** [m] leaves [d] as it is. *)
Definition keeps_data {W A} (m : M W A) : Prop :=
  forall st, data (m st).2 = data st.

(** [m] clears the id when it returns nil and leaves [d] as it is
    otherwise. *)
Definition clears_id_when_nil {W} (m : M W unit) : Prop :=
  forall st,
    data (m st).2 = match (m st).1 with
                    | Ok _ => SetId (data st) ""
                    | _ => data st
                    end.

Definition is_delete_request (c : Call) : bool :=
  match c with CDelete _ _ _ => true | _ => false end.
Definition is_groups_get (c : Call) : bool :=
  match c with CGroupsGet _ _ _ => true | _ => false end.

(** The calls a delete makes. *)
Definition delete_call (c : Call) : bool :=
  match c with
  | CDelete _ _ _ | CSleep _ | COperationWait _ _ _ | CGroupsGet _ _ _ => true
  | _ => false
  end.

(** How many calls of [l] satisfy [f]. *)
Fixpoint count_calls (f : Call -> bool) (l : list Call) : nat :=
  match l with
  | [] => O
  | c :: l' => (if f c then 1 else 0) + count_calls f l'
  end.

(** [m] makes only calls of a delete, at most [requests] delete
    requests and at most [reads] reads of the group's size. *)
Definition within {W A} (m : M W A) (requests reads : nat) : Prop :=
  forall st, exists new,
    calls (m st).2 = calls st ++ new
    /\ Forall (fun c => delete_call c = true) new
    /\ (count_calls is_delete_request new <= requests)%nat
    /\ (count_calls is_groups_get new <= reads)%nat.

(** The baseline of the loop of a delete: [target_size] as [d] has it. *)
Definition baseline (d : ResourceData) : nat :=
  match asInt (Get d "target_size") with
  | Ok currentSize => Z.to_nat currentSize
  | _ => O
  end.

(** ** Create *)

(** [InstanceGroupManagers.Insert(project, zone, manager).Do()], the
    call of the source that only a create makes. *)
Class CloudInsert (W : Type) : Type := {
  InstanceGroupManagers_Insert :
    string -> string -> InstanceGroupManager.t -> W -> reply Operation * W;
}.

(** A call answered by the world for which [Call] has no entry: the
    log is left as it is. *)
Definition unlogged {W A} (f : W -> A * W) : M W A := fun st =>
  let '(a, w) := f (world st) in
  (Ok a, mkSt w (data st) (calls st)).

Section Create.
Context {helpers : Helpers} {W : Type} {cloud : Cloud W} {inserts : CloudInsert W}.

(** Lines 279-291: the manager of the creation request. *)
Definition create_manager (d : ResourceData) : res InstanceGroupManager.t :=
  name ← asString (Get d "name");
  description ← asString (Get d "description");
  baseInstanceName ← asString (Get d "base_instance_name");
  targetSize ← asInt (Get d "target_size");
  nps ← asSetList (Get d "named_port");
  namedPorts ← getNamedPortsBeta nps;
  pools ← asSetList (Get d "target_pools");
  healing ← asList (Get d "auto_healing_policies");
  autoHealingPolicies ← expandAutoHealingPolicies healing;
  configuredVersions ← asList (Get d "version");
  versions ← expandVersions configuredVersions;
  configuredPolicy ← asList (Get d "update_policy");
  updatePolicy ← expandUpdatePolicy configuredPolicy;
  Ok {| InstanceGroupManager.Name := name;
        InstanceGroupManager.Description := description;
        InstanceGroupManager.BaseInstanceName := baseInstanceName;
        InstanceGroupManager.TargetSize := targetSize;
        InstanceGroupManager.NamedPorts := Some namedPorts;
        InstanceGroupManager.TargetPools := Some (convertStringSet pools);
        InstanceGroupManager.AutoHealingPolicies := Some autoHealingPolicies;
        InstanceGroupManager.Versions := Some versions;
        InstanceGroupManager.UpdatePolicy := Some updatePolicy;
        InstanceGroupManager.Fingerprint := "";
        InstanceGroupManager.Zone := "";
        InstanceGroupManager.InstanceGroup := "";
        InstanceGroupManager.SelfLink := "";
        (* Force send TargetSize to allow a value of 0. *)
        InstanceGroupManager.ForceSendFields := ["TargetSize"%string] |}.

(** [resourceComputeInstanceGroupManagerCreate].  [d] is written to
    only by [d.SetId] and by the final read, so it is taken once. *)
Definition create_from (d : ResourceData) : M W unit :=
  project ← try (getProject d);
  zone ← try (getZone d);
  manager ← lift (create_manager d);
  r ← unlogged (InstanceGroupManagers_Insert project zone manager);
  match r with
  | Failed e => fail ("Error creating InstanceGroupManager: " +:+ e)
  | Done op =>
      (* It probably maybe worked, so store the ID now *)
      _ ← d_SetId (terraformId {| Project := project; Zone := zone;
                                  Name := InstanceGroupManager.Name manager |});
      err ← call (COperationWait op project "Creating InstanceGroupManager")
              (computeSharedOperationWait op project "Creating InstanceGroupManager");
      _ ← check err;
      resourceComputeInstanceGroupManagerRead
  end.

Definition resourceComputeInstanceGroupManagerCreate : M W unit :=
  d ← get_d; create_from d.

End Create.

Definition creating : string := "Creating InstanceGroupManager".

(** ** Further vocabulary: a version, configured and read back *)

(** A [version] block with name [n], template [t] and the target size
    block [x], as the host hands it to [expandVersions]. *)
Definition configured_version (n t : string) (x : fixedOrPercentBlock) : value :=
  VMap {[ "name" := VString n; "instance_template" := VString t;
          "target_size" := VList [block_as_read x] ]}.

(** The same block as [flattenVersions] writes it. *)
Definition flattened_version `{Helpers} (n t : string) (x : fixedOrPercentBlock)
  : gmap string value :=
  <["target_size" := VList [VMap (block_as_written x)]]>
    (<["instance_template" := VString (ConvertSelfLinkToV1 t)]>
       (<["name" := VString n]> (∅ : gmap string value))).

(** The target size block sets exactly one field, to a positive value. *)
Definition one_positive (x : fixedOrPercentBlock) : Prop :=
  exists v, exactly_one_set x v /\ 0 < v.

(** The calls an update makes. *)
Definition update_call (d : ResourceData) (c : Call) : Prop :=
  match c with
  | CPatch _ _ _ _ => patch_field_changed d = true
  | CSetNamedPorts _ _ _ _ => HasChange d "named_port" = true
  | CResize _ _ _ _ => HasChange d "target_size" = true
  | COperationWait _ _ _ => True
  | c => read_call c = true
  end.

(** ** Further resources and worlds to evaluate at *)
Module Samples.
Import Scripted.

Definition inserts : CloudInsert world :=
  {| InstanceGroupManagers_Insert := fun _ _ _ => next_operation |}.

(** The scripted world with a [handleNotFoundError] that takes the 404
    of the API for "gone" and words any other error. *)
Definition cloud_gone : Cloud world :=
  {| getProject := fun _ _ => Done "my-project"%string;
     getZone := fun _ _ => Done "us-central1-a"%string;
     getRegion := fun _ _ => Done "us-central1"%string;
     handleNotFoundError := fun e label =>
       if String.eqb e not_found then None
       else Some ("Error reading " +:+ label +:+ ": " +:+ e)%string;
     getZonalBetaResourceFromRegion := fun _ _ _ w =>
       match next_manager w with
       | (Done m, w') => (Done (Some m), w')
       | (Failed e, w') => (Failed e, w')
       end;
     InstanceGroupManagers_Get := fun _ _ _ => next_manager;
     InstanceGroupManagers_Patch := fun _ _ _ _ => next_operation;
     InstanceGroupManagers_Resize := fun _ _ _ _ => next_operation;
     InstanceGroupManagers_Delete := fun _ _ _ => next_operation;
     InstanceGroups_SetNamedPorts := fun _ _ _ _ => next_operation;
     InstanceGroups_Get := fun _ _ _ => next_group;
     computeSharedOperationWait := fun _ _ _ => next_wait;
     WaitForState := fun d w => let '(err, w') := next_wait w in ((err, d), w');
     Sleep := fun _ w => w |}.

(** The scripted world of a provider without a default zone, whose
    search through the region finds nothing. *)
Definition cloud_no_zone : Cloud world :=
  {| getProject := fun _ _ => Done "my-project"%string;
     getZone := fun _ _ => Failed "zone: required field is not set"%string;
     getRegion := fun _ _ => Done "us-central1"%string;
     handleNotFoundError := fun e _ => Some e;
     getZonalBetaResourceFromRegion := fun _ _ _ w => (Done None, w);
     InstanceGroupManagers_Get := fun _ _ _ => next_manager;
     InstanceGroupManagers_Patch := fun _ _ _ _ => next_operation;
     InstanceGroupManagers_Resize := fun _ _ _ _ => next_operation;
     InstanceGroupManagers_Delete := fun _ _ _ => next_operation;
     InstanceGroups_SetNamedPorts := fun _ _ _ _ => next_operation;
     InstanceGroups_Get := fun _ _ _ => next_group;
     computeSharedOperationWait := fun _ _ _ => next_wait;
     WaitForState := fun d w => let '(err, w') := next_wait w in ((err, d), w');
     Sleep := fun _ w => w |}.

Definition http : value := VMap {[ "name" := VString "http"; "port" := VInt 80 ]}.

Definition canary : fixedOrPercentBlock :=
  {| set_fixed := None; set_percent := Some 20 |}.

Definition policy : value :=
  VMap {[ "minimal_action" := VString "REPLACE"; "type" := VString "PROACTIVE";
          "max_surge_fixed" := VInt 4; "max_surge_percent" := VInt 50;
          "max_unavailable_fixed" := VInt 0; "max_unavailable_percent" := VInt 0;
          "min_ready_sec" := VInt 30 ]}.

(** A manager as the API reports it. *)
Definition served : InstanceGroupManager.t :=
  {| InstanceGroupManager.Name := "igm-1";
     InstanceGroupManager.Description := "";
     InstanceGroupManager.BaseInstanceName := "igm";
     InstanceGroupManager.TargetSize := 3;
     InstanceGroupManager.NamedPorts := None;
     InstanceGroupManager.TargetPools := None;
     InstanceGroupManager.AutoHealingPolicies := None;
     InstanceGroupManager.Versions :=
       Some [ {| Version.Name := "v1"; Version.InstanceTemplate := "templates/t1";
                 Version.TargetSize :=
                   Some {| FixedOrPercent.Fixed := 0; FixedOrPercent.Percent := 100;
                           FixedOrPercent.ForceSendFields := [];
                           FixedOrPercent.NullFields := [] |} |} ];
     InstanceGroupManager.UpdatePolicy := None;
     InstanceGroupManager.Fingerprint := "fp-2";
     InstanceGroupManager.Zone := "zones/us-central1-a";
     InstanceGroupManager.InstanceGroup := "instanceGroups/igm-1";
     InstanceGroupManager.SelfLink := "instanceGroupManagers/igm-1";
     InstanceGroupManager.ForceSendFields := [] |}.

(** A resource in the state, unchanged; the same with the flag on; one
    known by its name only; an empty group; one with all three kinds
    of change; one to create. *)
Definition known : ResourceData :=
  resource "my-project/us-central1-a/igm-1"
    [("name", VString "igm-1"); ("fingerprint", VString "fp-1")]%string [].

Definition known_waiting : ResourceData :=
  resource "my-project/us-central1-a/igm-1"
    [("name", VString "igm-1"); ("wait_for_instances", VBool true)]%string [].

Definition by_name : ResourceData := resource "igm-1" [] [].

Definition empty_group : ResourceData :=
  resource "my-project/us-central1-a/igm-1"
    [("name", VString "igm-1"); ("target_size", VInt 0)]%string [].

Definition all_changed : ResourceData :=
  resource "my-project/us-central1-a/igm-1"
    [("name", VString "igm-1"); ("fingerprint", VString "fp-1");
     ("target_pools", VSet [VString "pool-a"]);
     ("named_port", VSet [http]); ("target_size", VInt 5)]%string
    ["target_pools"; "named_port"; "target_size"]%string.

Definition to_create : ResourceData :=
  resource ""
    [("name", VString "igm-1"); ("base_instance_name", VString "igm");
     ("version", VList [configured_version "v1" "templates/t1" canary]);
     ("update_policy", VList [policy])]%string [].

Definition operation (name : string) : answer := AOperation (Done name).

End Samples.

(** ** The body of a request

    The API client (package [computeBeta], not in this file) writes a
    request struct to JSON with [omitempty] on each field: a field
    whose value is empty (the empty string, the number 0, a nil
    pointer, a slice without elements, nil or not) is left out of the
    body, unless its name is listed in [ForceSendFields].  The source
    relies on it: it lists [TargetSize] "to allow a value of 0" (line
    289), [Fixed] to "allow setting this value to 0" (line 688), and
    [AutoHealingPolicies] whenever they changed (line 488). *)

Definition no_elements {A} (l : list A) : bool :=
  match l with [] => true | _ :: _ => false end.

(** The fields of a manager by their Go names, each with whether its
    value is empty. *)
Definition empty_fields (m : InstanceGroupManager.t) : list (string * bool) :=
  [ ("Name", String.eqb (InstanceGroupManager.Name m) "");
    ("Description", String.eqb (InstanceGroupManager.Description m) "");
    ("BaseInstanceName", String.eqb (InstanceGroupManager.BaseInstanceName m) "");
    ("TargetSize", Z.eqb (InstanceGroupManager.TargetSize m) 0);
    ("NamedPorts", no_elements (elems (InstanceGroupManager.NamedPorts m)));
    ("TargetPools", no_elements (elems (InstanceGroupManager.TargetPools m)));
    ("AutoHealingPolicies",
     no_elements (elems (InstanceGroupManager.AutoHealingPolicies m)));
    ("Versions", no_elements (elems (InstanceGroupManager.Versions m)));
    ("UpdatePolicy",
     match InstanceGroupManager.UpdatePolicy m with None => true | Some _ => false end);
    ("Fingerprint", String.eqb (InstanceGroupManager.Fingerprint m) "");
    ("Zone", String.eqb (InstanceGroupManager.Zone m) "");
    ("InstanceGroup", String.eqb (InstanceGroupManager.InstanceGroup m) "");
    ("SelfLink", String.eqb (InstanceGroupManager.SelfLink m) "") ]%string.

(** The body of the request for [m] has the field [field]. *)
Definition in_body (m : InstanceGroupManager.t) (field : string) : bool :=
  existsb (String.eqb field) (InstanceGroupManager.ForceSendFields m)
  || existsb (fun e => String.eqb e.1 field && negb e.2) (empty_fields m).

(** A resource whose [target_pools] changed to the set without
    elements: the last target pool was taken out of the configuration. *)
Definition pools_cleared : ResourceData :=
  Scripted.resource "my-project/us-central1-a/igm-1"
    [("name", VString "igm-1"); ("fingerprint", VString "abc123");
     ("target_pools", VSet [])]%string
    ["target_pools"%string].

(* ================================================================== *)
(** * Part II: properties *)
(* ================================================================== *)

(** ** Regular expressions: the matcher decides the language *)
Section RegexpFacts.

Lemma append_nil_l (s : string) : ("" +:+ s)%string = s.
Proof. reflexivity. Qed.

Lemma append_cons (c : ascii) (s1 s2 : string) :
  (String c s1 +:+ s2)%string = String c (s1 +:+ s2).
Proof. reflexivity. Qed.

Lemma nullable_matches r : nullable r = true <-> matches r "".
Proof.
  split.
  - induction r; simpl; intros H; try discriminate.
    + constructor.
    + apply orb_true_iff in H as [H|H]; [apply m_alt_l | apply m_alt_r]; auto.
    + apply andb_true_iff in H as [H1 H2].
      change ""%string with ("" +:+ "")%string. constructor; auto.
    + constructor.
  - intros H. remember ""%string as s eqn:Hs.
    induction H; simpl; try discriminate; auto.
    + rewrite IHmatches; auto.
    + rewrite IHmatches, orb_true_r; auto.
    + destruct s1; rewrite ?append_nil_l, ?append_cons in Hs; [|discriminate].
      rewrite IHmatches1, IHmatches2; auto.
Qed.

Lemma matches_star_cons r c s :
  matches (Star r) (String c s) ->
  exists s1 s2, s = (s1 +:+ s2)%string /\ matches r (String c s1) /\ matches (Star r) s2.
Proof.
  intros H. remember (Star r) as r' eqn:Hr. remember (String c s) as t eqn:Ht.
  revert s Ht. induction H; intros s0 Ht; try discriminate.
  inversion Hr; subst r0.
  destruct s1 as [|c1 s1]; rewrite ?append_nil_l, ?append_cons in Ht.
  - apply IHmatches2; auto.
  - inversion Ht; subst. eauto.
Qed.

Lemma matches_cat_inv r1 r2 s :
  matches (Cat r1 r2) s ->
  exists s1 s2, s = (s1 +:+ s2)%string /\ matches r1 s1 /\ matches r2 s2.
Proof. inversion 1; subst; eauto. Qed.

Lemma matches_alt_inv r1 r2 s :
  matches (Alt r1 r2) s -> matches r1 s \/ matches r2 s.
Proof. inversion 1; subst; auto. Qed.

Lemma matches_cat_cons r1 r2 c s1 s2 :
  matches r1 (String c s1) -> matches r2 s2 ->
  matches (Cat r1 r2) (String c (s1 +:+ s2)).
Proof.
  intros H1 H2. change (String c (s1 +:+ s2)) with (String c s1 +:+ s2)%string.
  constructor; auto.
Qed.

Lemma deriv_matches c r s : matches (deriv c r) s <-> matches r (String c s).
Proof.
  revert s. induction r; intros s; simpl.
  - split; inversion 1.
  - split; inversion 1.
  - destruct (Ascii.eqb_spec c c0) as [->|Hne]; split; intros H; inversion H; subst.
    + constructor.
    + constructor.
    + congruence.
  - destruct (in_range lo hi c) eqn:E; split; intros H; inversion H; subst.
    + constructor; auto.
    + constructor.
    + congruence.
  - split; intros H; apply matches_alt_inv in H as [H|H].
    + apply m_alt_l, IHr1; auto.
    + apply m_alt_r, IHr2; auto.
    + apply m_alt_l, IHr1; auto.
    + apply m_alt_r, IHr2; auto.
  - destruct (nullable r1) eqn:E.
    + split; intros H.
      * apply matches_alt_inv in H as [H|H].
        -- apply matches_cat_inv in H as (s1 & s2 & -> & H1 & H2).
           apply matches_cat_cons; auto. apply IHr1; auto.
        -- change (String c s) with ("" +:+ String c s)%string.
           constructor; [apply nullable_matches; auto | apply IHr2; auto].
      * apply matches_cat_inv in H as (s1 & s2 & Hs & H1 & H2).
        destruct s1 as [|c1 s1]; rewrite ?append_nil_l, ?append_cons in Hs.
        -- subst. apply m_alt_r, IHr2; auto.
        -- inversion Hs; subst. apply m_alt_l. constructor; auto. apply IHr1; auto.
    + split; intros H.
      * apply matches_cat_inv in H as (s1 & s2 & -> & H1 & H2).
        apply matches_cat_cons; auto. apply IHr1; auto.
      * apply matches_cat_inv in H as (s1 & s2 & Hs & H1 & H2).
        destruct s1 as [|c1 s1]; rewrite ?append_nil_l, ?append_cons in Hs.
        -- apply nullable_matches in H1. congruence.
        -- inversion Hs; subst. constructor; auto. apply IHr1; auto.
  - split; intros H.
    + apply matches_cat_inv in H as (s1 & s2 & -> & H1 & H2).
      change (String c (s1 +:+ s2)) with (String c s1 +:+ s2)%string.
      constructor; auto. apply IHr; auto.
    + apply matches_star_cons in H as (s1 & s2 & -> & H1 & H2).
      constructor; auto. apply IHr; auto.
Qed.

Lemma MatchString_matches r s : MatchString r s = true <-> matches r s.
Proof.
  revert r. induction s as [|c s IH]; intros r; simpl.
  - apply nullable_matches.
  - rewrite IH. apply deriv_matches.
Qed.

End RegexpFacts.

(** ** Strings: bytes, concatenation and [Split] *)
Section StringFacts.

Lemma has_byte_append c (s1 s2 : string) :
  Strings.has_byte c (s1 +:+ s2) = Strings.has_byte c s1 || Strings.has_byte c s2.
Proof.
  induction s1 as [|c1 s1 IH]; [reflexivity|].
  rewrite append_cons. simpl. rewrite IH. apply orb_assoc.
Qed.

Lemma Split_nonempty s sep : Strings.Split s sep <> [].
Proof.
  destruct s as [|c s]; simpl; [discriminate|].
  destruct (Ascii.eqb c sep); [discriminate|].
  destruct (Strings.Split s sep); discriminate.
Qed.

Lemma Split_no_sep s sep :
  Strings.has_byte sep s = false -> Strings.Split s sep = [s].
Proof.
  induction s as [|c s IH]; simpl; [reflexivity|].
  intros H. apply orb_false_iff in H as [Hc Hs].
  rewrite Hc, (IH Hs). reflexivity.
Qed.

Lemma Split_append s1 s2 sep :
  Strings.has_byte sep s1 = false ->
  Strings.Split (s1 +:+ String sep s2) sep = s1 :: Strings.Split s2 sep.
Proof.
  induction s1 as [|c s1 IH]; intros H.
  - rewrite append_nil_l. simpl. rewrite Ascii.eqb_refl. reflexivity.
  - simpl in H. apply orb_false_iff in H as [Hc Hs].
    rewrite append_cons. simpl. rewrite Hc, (IH Hs). reflexivity.
Qed.

Lemma append_assoc (s1 s2 s3 : string) :
  ((s1 +:+ s2) +:+ s3)%string = (s1 +:+ (s2 +:+ s3))%string.
Proof.
  induction s1 as [|c s1 IH]; [reflexivity|].
  rewrite !append_cons, IH. reflexivity.
Qed.

End StringFacts.

(** ** The language of the two identifier patterns *)
Section IdPatterns.

Lemma name_class_byte s :
  matches name_class s -> exists c, s = String c "" /\ Ascii.eqb c "/" = false.
Proof.
  unfold name_class. intros H.
  apply matches_alt_inv in H as [H|H]; [|apply matches_alt_inv in H as [H|H]];
    inversion H; subst; eexists; split; try reflexivity.
  - destruct (Ascii.eqb_spec c "/") as [->|]; [discriminate | reflexivity].
  - destruct (Ascii.eqb_spec c "/") as [->|]; [discriminate | reflexivity].
Qed.

Lemma name_star_no_slash s :
  matches (Star name_class) s -> Strings.has_byte "/" s = false.
Proof.
  intros H. remember (Star name_class) as r eqn:Hr.
  induction H; try discriminate; [reflexivity|].
  inversion Hr; subst r.
  apply name_class_byte in H as (c & -> & Hc).
  rewrite has_byte_append. simpl. rewrite Hc. simpl. auto.
Qed.

Lemma name_plus_no_slash s :
  matches (Plus name_class) s -> Strings.has_byte "/" s = false.
Proof.
  intros H. apply matches_cat_inv in H as (s1 & s2 & -> & H1 & H2).
  apply name_class_byte in H1 as (c & -> & Hc).
  rewrite has_byte_append, (name_star_no_slash _ H2). simpl. rewrite Hc. reflexivity.
Qed.

(** Every string of the three-part pattern has a slash, whatever the
    project pattern is. *)
Lemma id_pattern_has_slash P s :
  matches (instanceGroupManagerIdRegex P) s -> Strings.has_byte "/" s = true.
Proof.
  intros H. apply matches_cat_inv in H as (s1 & s2 & -> & _ & H).
  apply matches_cat_inv in H as (s3 & s4 & -> & H & _).
  inversion H; subst. rewrite has_byte_append. simpl. apply orb_true_r.
Qed.

Lemma bare_name_not_three_part P s :
  MatchString instanceGroupManagerIdNameRegex s = true ->
  MatchString (instanceGroupManagerIdRegex P) s = false.
Proof.
  intros H. apply MatchString_matches, name_plus_no_slash in H.
  destruct (MatchString (instanceGroupManagerIdRegex P) s) eqn:E; [|reflexivity].
  apply MatchString_matches, id_pattern_has_slash in E. congruence.
Qed.

Lemma encoded_matches P i :
  well_formed_id P i = true ->
  matches (instanceGroupManagerIdRegex P) (terraformId i).
Proof.
  unfold well_formed_id. rewrite !andb_true_iff.
  intros [[[Hp _] Hz] Hn]. apply MatchString_matches in Hp, Hz, Hn.
  unfold terraformId, instanceGroupManagerIdRegex.
  constructor; [assumption|].
  change ("/" +:+ Zone i +:+ "/" +:+ Name i)%string
    with (String "/" "" +:+ (Zone i +:+ (String "/" "" +:+ Name i)))%string.
  repeat (constructor; try assumption).
Qed.

Lemma encoded_split P i :
  well_formed_id P i = true ->
  Strings.Split (terraformId i) "/" = [Project i; Zone i; Name i].
Proof.
  unfold well_formed_id. rewrite !andb_true_iff, negb_true_iff.
  intros [[[_ Hp] Hz] Hn].
  apply MatchString_matches, name_plus_no_slash in Hz, Hn.
  unfold terraformId.
  change ("/" +:+ Zone i +:+ "/" +:+ Name i)%string
    with (String "/" (Zone i +:+ String "/" (Name i))).
  rewrite (Split_append _ _ _ Hp), (Split_append _ _ _ Hz), (Split_no_sep _ _ Hn).
  reflexivity.
Qed.

End IdPatterns.

(** ** C1, C2: the identifier codec *)

(** C1. Decoding the encoding of a well-formed triple gives the triple
    back: when the project matches the project pattern and is one path
    segment, and zone and name match [[a-z0-9-]+],
    [parseInstanceGroupManagerId (terraformId x)] returns [x]. *)
Theorem C1_parse_terraformId (P : regex) (x : instanceGroupManagerId) :
  well_formed_id P x = true ->
  parseInstanceGroupManagerId P (terraformId x) = Ok x.
Proof.
  intros Hx. unfold parseInstanceGroupManagerId.
  rewrite (proj2 (MatchString_matches _ _) (encoded_matches P x Hx)).
  rewrite (encoded_split P x Hx). destruct x; reflexivity.
Qed.

Lemma C1_parse_terraformId_witness :
  let x := {| Project := "my-project"; Zone := "us-central1-a"; Name := "igm-1" |} in
  well_formed_id sample_ProjectRegex x = true
  /\ parseInstanceGroupManagerId sample_ProjectRegex (terraformId x) = Ok x.
Proof.
  intros x. split; [vm_compute; reflexivity|].
  apply (C1_parse_terraformId sample_ProjectRegex x). vm_compute. reflexivity.
Defined.

(** The triple a bare name parses to has no project and no zone; it is
    not well formed, and its encoding is rejected. *)
Example bare_triple_encoding_rejected :
  parseInstanceGroupManagerId sample_ProjectRegex
    (terraformId {| Project := ""; Zone := ""; Name := "igm-1" |})
  = Err invalid_specifier.
Proof. vm_compute. reflexivity. Qed.

(** C2. A bare name, a string matching [^[a-z0-9-]+$], parses to the
    triple with empty project and zone; a string matching neither the
    three-part pattern nor the bare-name pattern is rejected with the
    invalid-specifier error. *)
Theorem C2_parse_bare_name_or_error (P : regex) (s : string) :
  (MatchString instanceGroupManagerIdNameRegex s = true ->
   parseInstanceGroupManagerId P s = Ok {| Project := ""; Zone := ""; Name := s |})
  /\
  (MatchString (instanceGroupManagerIdRegex P) s = false ->
   MatchString instanceGroupManagerIdNameRegex s = false ->
   parseInstanceGroupManagerId P s = Err invalid_specifier).
Proof.
  unfold parseInstanceGroupManagerId. split.
  - intros Hn. rewrite (bare_name_not_three_part P s Hn), Hn. reflexivity.
  - intros H3 Hn. rewrite H3, Hn. reflexivity.
Qed.

Lemma C2_parse_bare_name_or_error_witness :
  (MatchString instanceGroupManagerIdNameRegex "igm-1" = true
   /\ parseInstanceGroupManagerId sample_ProjectRegex "igm-1"
      = Ok {| Project := ""; Zone := ""; Name := "igm-1" |})
  /\ (MatchString (instanceGroupManagerIdRegex sample_ProjectRegex) "proj/zone" = false
      /\ MatchString instanceGroupManagerIdNameRegex "proj/zone" = false
      /\ parseInstanceGroupManagerId sample_ProjectRegex "proj/zone"
         = Err invalid_specifier).
Proof.
  split; [split | split; [|split]].
  - vm_compute. reflexivity.
  - apply (proj1 (C2_parse_bare_name_or_error sample_ProjectRegex "igm-1")).
    vm_compute. reflexivity.
  - vm_compute. reflexivity.
  - vm_compute. reflexivity.
  - apply (proj2 (C2_parse_bare_name_or_error sample_ProjectRegex "proj/zone"));
      vm_compute; reflexivity.
Defined.

(** ** C3, C4, C9: the fixed-or-percent transcoders *)
Section FixedOrPercentFacts.

Lemma expand_one_percent (m : gmap string value) (p : Z) :
  m !! "percent" = Some (VInt p) -> 0 < p ->
  expandFixedOrPercent [VMap m]
  = Ok {| FixedOrPercent.Fixed := 0; FixedOrPercent.Percent := p;
          FixedOrPercent.ForceSendFields := []; FixedOrPercent.NullFields := [] |}.
Proof.
  intros Hm Hp. unfold expandFixedOrPercent. simpl. rewrite Hm. simpl.
  destruct (Z.ltb_spec 0 p); [reflexivity | lia].
Qed.

Lemma expand_one_fixed (m : gmap string value) (p f : Z) :
  m !! "percent" = Some (VInt p) -> p <= 0 -> m !! "fixed" = Some (VInt f) ->
  expandFixedOrPercent [VMap m]
  = Ok {| FixedOrPercent.Fixed := f; FixedOrPercent.Percent := 0;
          FixedOrPercent.ForceSendFields := ["Fixed"%string];
          FixedOrPercent.NullFields := [] |}.
Proof.
  intros Hm Hp Hf. unfold expandFixedOrPercent. simpl. rewrite Hm. simpl.
  destruct (Z.ltb_spec 0 p); [lia|]. rewrite Hf. reflexivity.
Qed.

Lemma flatten_cases (v : FixedOrPercent.t) :
  flattenFixedOrPercent (Some v)
  = Ok (if 0 <? FixedOrPercent.Percent v
        then [ {[ "percent" := VInt (FixedOrPercent.Percent v) ]} ]
        else if 0 <? FixedOrPercent.Fixed v
        then [ {[ "fixed" := VInt (FixedOrPercent.Fixed v) ]} ]
        else []).
Proof.
  unfold flattenFixedOrPercent.
  destruct (0 <? FixedOrPercent.Percent v); [reflexivity|].
  destruct (0 <? FixedOrPercent.Fixed v); reflexivity.
Qed.

Lemma block_lookup_percent (x : fixedOrPercentBlock) :
  ({[ "fixed" := VInt (default 0 (set_fixed x));
      "percent" := VInt (default 0 (set_percent x)) ]} : gmap string value) !! "percent"
  = Some (VInt (default 0 (set_percent x))).
Proof. by simplify_map_eq. Qed.

Lemma block_lookup_fixed (x : fixedOrPercentBlock) :
  ({[ "fixed" := VInt (default 0 (set_fixed x));
      "percent" := VInt (default 0 (set_percent x)) ]} : gmap string value) !! "fixed"
  = Some (VInt (default 0 (set_fixed x))).
Proof. by simplify_map_eq. Qed.

End FixedOrPercentFacts.

(** C3 as stated fails at zero: a block that sets only [fixed = 0] is
    sent with [Fixed] forced, and flattens to the empty list instead of
    to the block. *)
Lemma C3_counterexample_fixed_zero :
  let x := {| set_fixed := Some 0; set_percent := None |} in
  exactly_one_set x 0 /\ 0 <= 0
  /\ flatten_expand [block_as_read x] = Ok []
  /\ flatten_expand [block_as_read x] <> Ok [block_as_written x].
Proof.
  intros x. split; [left; split; reflexivity|]. split; [lia|].
  assert (E : flatten_expand [block_as_read x] = Ok []) by (vm_compute; reflexivity).
  split; [exact E|]. rewrite E. discriminate.
Qed.

(** C3 (amended). For every fixed-or-percent block in which exactly one
    of [fixed] and [percent] is set and that field is strictly positive,
    [flattenFixedOrPercent (expandFixedOrPercent x)] is the block. *)
Theorem C3_flatten_expand_positive (x : fixedOrPercentBlock) (v : Z) :
  exactly_one_set x v -> 0 < v ->
  flatten_expand [block_as_read x] = Ok [block_as_written x].
Proof.
  intros [[Hf Hp]|[Hf Hp]] Hv; unfold flatten_expand, block_as_read.
  - rewrite (expand_one_fixed _ 0 v).
    + cbn [mbind res_bind]. rewrite flatten_cases. simpl. destruct (Z.ltb_spec 0 v); [|lia].
      unfold block_as_written. rewrite Hf, Hp. reflexivity.
    + rewrite block_lookup_percent, Hp. reflexivity.
    + lia.
    + rewrite block_lookup_fixed, Hf. reflexivity.
  - rewrite (expand_one_percent _ v).
    + cbn [mbind res_bind]. rewrite flatten_cases. simpl. destruct (Z.ltb_spec 0 v); [|lia].
      unfold block_as_written. rewrite Hf, Hp. reflexivity.
    + rewrite block_lookup_percent, Hp. reflexivity.
    + lia.
Qed.

Lemma C3_flatten_expand_positive_witness :
  let x := {| set_fixed := None; set_percent := Some 100 |} in
  exactly_one_set x 100 /\ 0 < 100
  /\ flatten_expand [block_as_read x] = Ok [block_as_written x].
Proof.
  intros x.
  assert (H1 : exactly_one_set x 100) by (right; split; reflexivity).
  assert (H2 : 0 < 100) by lia.
  exact (conj H1 (conj H2 (C3_flatten_expand_positive x 100 H1 H2))).
Defined.

(** A field set to zero or less is sent, and read back as no block. *)
Lemma flatten_expand_nonpositive (x : fixedOrPercentBlock) (v : Z) :
  exactly_one_set x v -> v <= 0 ->
  flatten_expand [block_as_read x] = Ok [].
Proof.
  intros [[Hf Hp]|[Hf Hp]] Hv; unfold flatten_expand, block_as_read.
  - rewrite (expand_one_fixed _ 0 v);
      rewrite ?block_lookup_percent, ?block_lookup_fixed, ?Hf, ?Hp; try reflexivity; try lia.
    cbn [mbind res_bind]. rewrite flatten_cases. simpl. destruct (Z.ltb_spec 0 v); [lia | reflexivity].
  - rewrite (expand_one_fixed _ v 0);
      rewrite ?block_lookup_percent, ?block_lookup_fixed, ?Hf, ?Hp; try reflexivity; try lia.
  Qed.

(** C4. Precedence in both directions.  Reading: a server value
    flattens to one map holding only [percent] when [Percent > 0], else
    to one map holding only [fixed] when [Fixed > 0], else to the empty
    list.  Writing: a configured map with [percent > 0] sets [Percent];
    otherwise [Fixed] is set and listed in [ForceSendFields], also when
    it is zero. *)
Theorem C4_fixed_or_percent_precedence :
  (forall v : FixedOrPercent.t,
     flattenFixedOrPercent (Some v)
     = Ok (if 0 <? FixedOrPercent.Percent v
           then [ {[ "percent" := VInt (FixedOrPercent.Percent v) ]} ]
           else if 0 <? FixedOrPercent.Fixed v
           then [ {[ "fixed" := VInt (FixedOrPercent.Fixed v) ]} ]
           else []))
  /\ (forall (m : gmap string value) (p : Z),
        m !! "percent" = Some (VInt p) -> 0 < p ->
        expandFixedOrPercent [VMap m]
        = Ok {| FixedOrPercent.Fixed := 0; FixedOrPercent.Percent := p;
                FixedOrPercent.ForceSendFields := [];
                FixedOrPercent.NullFields := [] |})
  /\ (forall (m : gmap string value) (p f : Z),
        m !! "percent" = Some (VInt p) -> p <= 0 ->
        m !! "fixed" = Some (VInt f) ->
        expandFixedOrPercent [VMap m]
        = Ok {| FixedOrPercent.Fixed := f; FixedOrPercent.Percent := 0;
                FixedOrPercent.ForceSendFields := ["Fixed"%string];
                FixedOrPercent.NullFields := [] |}).
Proof.
  split; [exact flatten_cases|].
  split; [exact expand_one_percent | exact expand_one_fixed].
Qed.

Lemma C4_fixed_or_percent_precedence_witness :
  let m1 : gmap string value := {[ "fixed" := VInt 0; "percent" := VInt 40 ]} in
  let m0 : gmap string value := {[ "fixed" := VInt 0; "percent" := VInt 0 ]} in
  (m1 !! "percent" = Some (VInt 40) /\ 0 < 40
   /\ expandFixedOrPercent [VMap m1]
      = Ok {| FixedOrPercent.Fixed := 0; FixedOrPercent.Percent := 40;
              FixedOrPercent.ForceSendFields := [];
              FixedOrPercent.NullFields := [] |})
  /\ (m0 !! "percent" = Some (VInt 0) /\ 0 <= 0 /\ m0 !! "fixed" = Some (VInt 0)
      /\ expandFixedOrPercent [VMap m0]
         = Ok {| FixedOrPercent.Fixed := 0; FixedOrPercent.Percent := 0;
                 FixedOrPercent.ForceSendFields := ["Fixed"%string];
                 FixedOrPercent.NullFields := [] |}).
Proof.
  intros m1 m0.
  assert (P1 : m1 !! "percent" = Some (VInt 40)) by (vm_compute; reflexivity).
  assert (P0 : m0 !! "percent" = Some (VInt 0)) by (vm_compute; reflexivity).
  assert (F0 : m0 !! "fixed" = Some (VInt 0)) by (vm_compute; reflexivity).
  assert (L1 : 0 < 40) by lia.
  assert (L0 : 0 <= 0) by lia.
  destruct C4_fixed_or_percent_precedence as (_ & Hpercent & Hfixed).
  exact (conj (conj P1 (conj L1 (Hpercent m1 40 P1 L1)))
              (conj P0 (conj L0 (conj F0 (Hfixed m0 0 0 P0 L0 F0))))).
Defined.

Section MutualExclusion.
Context `{Helpers}.

Lemma flatten_never_both (v : FixedOrPercent.t) (out : list (gmap string value)) :
  flattenFixedOrPercent (Some v) = Ok out ->
  Forall (fun m => presents_both "fixed" "percent" m = false) out.
Proof.
  rewrite flatten_cases. intros [= <-].
  destruct (0 <? FixedOrPercent.Percent v); [|destruct (0 <? FixedOrPercent.Fixed v)];
    repeat constructor.
  all: unfold presents_both, nonzero_at; simplify_map_eq; apply andb_false_r.
Qed.

(** The [target_size] entry of every flattened version comes from
    [flattenFixedOrPercent]. *)
Lemma flattenVersions_target_size (versions : list Version.t) :
  forall acc out,
    Forall (fun m => exists ts, m !! "target_size" = Some (VList (VMap <$> ts))
              /\ Forall (fun t => presents_both "fixed" "percent" t = false) ts) acc ->
    range versions (fun result version =>
      let versionMap : gmap string value := ∅ in
      let versionMap := <["name" := VString (Version.Name version)]> versionMap in
      let versionMap :=
        <["instance_template" :=
            VString (ConvertSelfLinkToV1 (Version.InstanceTemplate version))]> versionMap in
      ts ← flattenFixedOrPercent (Version.TargetSize version);
      let versionMap := <["target_size" := VList (VMap <$> ts)]> versionMap in
      Ok (result ++ [versionMap])) acc = Ok out ->
    Forall (fun m => exists ts, m !! "target_size" = Some (VList (VMap <$> ts))
              /\ Forall (fun t => presents_both "fixed" "percent" t = false) ts) out.
Proof.
  induction versions as [|ver versions IH]; intros acc out Hacc; simpl.
  - intros [= <-]. exact Hacc.
  - destruct (Version.TargetSize ver) as [v|] eqn:Ev; [|discriminate].
    destruct (flattenFixedOrPercent (Some v)) as [ts| | |] eqn:Ef; try discriminate.
    cbn [mbind res_bind]. apply IH.
    apply Forall_app. split; [exact Hacc|].
    constructor; [|constructor].
    exists ts. split; [apply lookup_insert_eq | eapply flatten_never_both; eauto].
Qed.

End MutualExclusion.

(** C9 as stated fails for the update policy: a server value with both
    fields of [MaxSurge] non-zero is written to the state with both
    [max_surge_fixed] and [max_surge_percent] non-zero. *)
Lemma C9_counterexample_update_policy :
  existsb (presents_both "max_surge_fixed" "max_surge_percent")
          (flattenUpdatePolicy (Some surge_both)) = true.
Proof. vm_compute. reflexivity. Qed.

(** C9 (amended). What [flattenFixedOrPercent] produces, and with it the
    [target_size] of every flattened version, never shows a non-zero
    [fixed] next to a non-zero [percent], and [Percent > 0] wins when
    the server reports both; [flattenUpdatePolicy] copies [Fixed] and
    [Percent] of [MaxSurge] and of [MaxUnavailable] as the server
    reports them. *)
Theorem C9_exclusive_where_flattened `{Helpers} :
  (forall (v : FixedOrPercent.t) out,
     flattenFixedOrPercent (Some v) = Ok out ->
     Forall (fun m => presents_both "fixed" "percent" m = false) out)
  /\ (forall v : FixedOrPercent.t,
        0 < FixedOrPercent.Percent v ->
        flattenFixedOrPercent (Some v)
        = Ok [ {[ "percent" := VInt (FixedOrPercent.Percent v) ]} ])
  /\ (forall versions out,
        flattenVersions versions = Ok out ->
        Forall (fun m => exists ts, m !! "target_size" = Some (VList (VMap <$> ts))
                  /\ Forall (fun t => presents_both "fixed" "percent" t = false) ts) out)
  /\ (forall (up : UpdatePolicy.t) (ms : FixedOrPercent.t),
        UpdatePolicy.MaxSurge up = Some ms ->
        exists m, flattenUpdatePolicy (Some up) = [m]
          /\ m !! "max_surge_fixed" = Some (VInt (FixedOrPercent.Fixed ms))
          /\ m !! "max_surge_percent" = Some (VInt (FixedOrPercent.Percent ms)))
  /\ (forall (up : UpdatePolicy.t) (mu : FixedOrPercent.t),
        UpdatePolicy.MaxUnavailable up = Some mu ->
        exists m, flattenUpdatePolicy (Some up) = [m]
          /\ m !! "max_unavailable_fixed" = Some (VInt (FixedOrPercent.Fixed mu))
          /\ m !! "max_unavailable_percent" = Some (VInt (FixedOrPercent.Percent mu))).
Proof.
  split; [exact flatten_never_both|].
  split.
  { intros v Hv. rewrite flatten_cases.
    destruct (Z.ltb_spec 0 (FixedOrPercent.Percent v)); [reflexivity | lia]. }
  split.
  { intros versions out Hout. eapply flattenVersions_target_size; [|exact Hout].
    constructor. }
  split.
  - intros up ms Hms. unfold flattenUpdatePolicy. rewrite Hms.
    eexists. split; [reflexivity|]. cbv zeta.
    destruct (UpdatePolicy.MaxUnavailable up); split; by simplify_map_eq.
  - intros up mu Hmu. unfold flattenUpdatePolicy. rewrite Hmu.
    eexists. split; [reflexivity|]. cbv zeta.
    destruct (UpdatePolicy.MaxSurge up); split; by simplify_map_eq.
Qed.

(** ** The monad: running a bind, and invariants *)
Section MonadFacts.
Context {W : Type}.

Lemma bind_ok {A B} (m : M W A) (f : A -> M W B) st a st' :
  m st = (Ok a, st') -> (m ≫= f) st = f a st'.
Proof. intros E. unfold mbind, M_bind. rewrite E. reflexivity. Qed.

Lemma bind_err {A B} (m : M W A) (f : A -> M W B) st e st' :
  m st = (Err e, st') -> (m ≫= f) st = (Err e, st').
Proof. intros E. unfold mbind, M_bind. rewrite E. reflexivity. Qed.

Lemma bind_assoc_run {A B C} (m : M W A) (f : A -> M W B) (g : B -> M W C) st :
  ((m ≫= f) ≫= g) st = (m ≫= (fun a => f a ≫= g)) st.
Proof. unfold mbind, M_bind. destruct (m st) as [[a|e| |] st']; reflexivity. Qed.

Lemma bind_run_eq {A B} (m m' : M W A) (f : A -> M W B) st st' :
  m st = m' st' -> (m ≫= f) st = (m' ≫= f) st'.
Proof. intros E. unfold mbind, M_bind. rewrite E. reflexivity. Qed.

Lemma run_ret {A B} (a : A) (k : A -> M W B) st : (mret a ≫= k) st = k a st.
Proof. reflexivity. Qed.

Lemma run_lift_ok {A B} (a : A) (k : A -> M W B) st : (lift (Ok a) ≫= k) st = k a st.
Proof. reflexivity. Qed.

Lemma run_get_d {B} (k : ResourceData -> M W B) st : (get_d ≫= k) st = k (data st) st.
Proof. reflexivity. Qed.

Lemma run_try_done {A B} (f : W -> reply A) (k : A -> M W B) st a :
  f (world st) = Done a -> (try f ≫= k) st = k a st.
Proof. intros E. unfold mbind, M_bind, try. rewrite E. reflexivity. Qed.

Lemma run_try_failed {A B} (f : W -> reply A) (k : A -> M W B) st e :
  f (world st) = Failed e -> (try f ≫= k) st = (Err e, st).
Proof. intros E. unfold mbind, M_bind, try. rewrite E. reflexivity. Qed.

Lemma run_call {A B} c (f : W -> A * W) (k : A -> M W B) st :
  (call c f ≫= k) st
  = k (f (world st)).1 (mkSt (f (world st)).2 (data st) (calls st ++ [c])).
Proof. unfold mbind, M_bind, call. destruct (f (world st)). reflexivity. Qed.

Lemma preserves_bind {A B} I (m : M W A) (f : A -> M W B) :
  preserves I m -> (forall a, preserves I (f a)) -> preserves I (m ≫= f).
Proof.
  intros Hm Hf st Hst. unfold mbind, M_bind.
  specialize (Hm st Hst). destruct (m st) as [[a|e| |] st']; simpl in *; auto.
  apply Hf. exact Hm.
Qed.

Lemma preserves_bind_lift {A B} I (r : res A) (f : A -> M W B) :
  (forall a, r = Ok a -> preserves I (f a)) -> preserves I (lift r ≫= f).
Proof.
  intros Hf st Hst. unfold mbind, M_bind, lift.
  destruct r as [a|e| |]; simpl; auto. apply (Hf a eq_refl). exact Hst.
Qed.

Lemma preserves_ret {A} I (a : A) : preserves I (mret a : M W A).
Proof. intros st Hst. exact Hst. Qed.

Lemma preserves_fail {A} I e : preserves I (fail e : M W A).
Proof. intros st Hst. exact Hst. Qed.

Lemma preserves_lift {A} I (r : res A) : preserves I (lift r : M W A).
Proof. intros st Hst. exact Hst. Qed.

Lemma preserves_try {A} I (f : W -> reply A) : preserves I (try f).
Proof. intros st Hst. unfold try. destruct (f (world st)); exact Hst. Qed.

Lemma preserves_try_or {A} I (f : W -> reply A) a0 : preserves I (try_or f a0).
Proof. intros st Hst. unfold try_or. destruct (f (world st)); exact Hst. Qed.

Lemma preserves_get_d I : preserves I (get_d : M W ResourceData).
Proof. intros st Hst. exact Hst. Qed.

Lemma preserves_check I err : preserves I (check err : M W unit).
Proof. destruct err; [apply preserves_fail | apply preserves_ret]. Qed.

(** A log invariant is indifferent to the world and to [d]. *)
Lemma log_d_Set c0 allowed k v : preserves (extends_with c0 allowed) (d_Set k v : M W unit).
Proof. intros st Hst. exact Hst. Qed.

Lemma log_d_SetId c0 allowed id : preserves (extends_with c0 allowed) (d_SetId id : M W unit).
Proof. intros st Hst. exact Hst. Qed.

Lemma log_put_d c0 allowed d : preserves (extends_with c0 allowed) (put_d d : M W unit).
Proof. intros st Hst. exact Hst. Qed.

Lemma log_call {A} c0 (allowed : Call -> Prop) c (f : W -> A * W) :
  allowed c -> preserves (extends_with c0 allowed) (call c f).
Proof.
  intros Hc st (new & E & Hnew). unfold call.
  destruct (f (world st)) as [a w]. simpl.
  exists (new ++ [c]). split.
  - rewrite E. apply eq_sym, app_assoc.
  - apply Forall_app. split; [exact Hnew | repeat constructor; exact Hc].
Qed.

Lemma extends_with_start (allowed : Call -> Prop) (st : St W) :
  extends_with (calls st) allowed st.
Proof. exists []. split; [apply eq_sym, app_nil_r | constructor]. Qed.

End MonadFacts.

(** Decomposes a goal [preserves (extends_with _ _) m] along [m]. *)
Ltac log_step :=
  lazymatch goal with
  | |- preserves _ (mbind _ (lift _)) => apply preserves_bind_lift; intros ? ?
  | |- preserves _ (mbind _ _) => apply preserves_bind; [|intros]
  | |- preserves _ (mret _) => apply preserves_ret
  | |- preserves _ (fail _) => apply preserves_fail
  | |- preserves _ (lift _) => apply preserves_lift
  | |- preserves _ (try _) => apply preserves_try
  | |- preserves _ (try_or _ _) => apply preserves_try_or
  | |- preserves _ get_d => apply preserves_get_d
  | |- preserves _ (check _) => apply preserves_check
  | |- preserves _ (d_Set _ _) => apply log_d_Set
  | |- preserves _ (d_SetId _) => apply log_d_SetId
  | |- preserves _ (put_d _) => apply log_put_d
  | |- preserves _ (call _ _) => apply log_call
  | |- preserves _ (match ?x with _ => _ end) => destruct x eqn:?
  | |- preserves _ (let _ := _ in _) => cbv zeta
  end.

(** ** What a read logs *)
Section ReadFacts.
Context {helpers : Helpers} {W : Type} {cloud : Cloud W}.

Lemma getManager_logs c0 (allowed : Call -> Prop) :
  (forall c, read_call c = true -> allowed c) ->
  preserves (extends_with c0 allowed) getManager.
Proof.
  intros Hallowed. unfold getManager.
  repeat (log_step; try (apply Hallowed; reflexivity)).
Qed.

Lemma Read_logs c0 (allowed : Call -> Prop) :
  (forall c, read_call c = true -> allowed c) ->
  preserves (extends_with c0 allowed) resourceComputeInstanceGroupManagerRead.
Proof.
  intros Hallowed. unfold resourceComputeInstanceGroupManagerRead.
  log_step; [log_step|]. log_step; [log_step|].
  log_step; [apply getManager_logs; exact Hallowed|].
  repeat (log_step; try (apply Hallowed; reflexivity)).
Qed.

End ReadFacts.

(** ** [schema.ResourceData]: reading after writing *)
Section ResourceDataFacts.

Lemma Get_Set_ne d k k' v : k <> k' -> Get (Set_ d k v) k' = Get d k'.
Proof.
  intros Hne. unfold Get, Set_. simpl.
  destruct (resource_schema !! k'); [|reflexivity].
  rewrite lookup_insert_ne by exact Hne. reflexivity.
Qed.

Lemma Get_Set_eq d k v t :
  resource_schema !! k = Some t -> Get (Set_ d k v) k = Some v.
Proof.
  intros Hk. unfold Get, Set_. simpl. rewrite Hk, lookup_insert_eq. reflexivity.
Qed.

Lemma Get_SetId d id k : Get (SetId d id) k = Get d k.
Proof. reflexivity. Qed.

End ResourceDataFacts.

(** ** C10: import and the wait for instances *)
Section ImportFacts.
Context {helpers : Helpers} {W : Type} {cloud : Cloud W}.

Lemma flag_d_Set c0 k v :
  k <> "wait_for_instances"%string -> preserves (flag_off c0) (d_Set k v : M W unit).
Proof.
  intros Hk st [Hflag Hlog]. split; [|exact Hlog].
  simpl. rewrite Get_Set_ne by exact Hk. exact Hflag.
Qed.

Lemma flag_d_SetId c0 id : preserves (flag_off c0) (d_SetId id : M W unit).
Proof. intros st Hst. exact Hst. Qed.

Lemma flag_call {A} c0 c (f : W -> A * W) :
  is_wait_for_state c = false -> preserves (flag_off c0) (call c f).
Proof.
  intros Hc st [Hflag Hlog]. split.
  - unfold call. destruct (f (world st)). exact Hflag.
  - apply (log_call c0 _ c f Hc st Hlog).
Qed.

(** The end of a read: with the flag off, nothing is waited for. *)
Lemma flag_gate c0 :
  preserves (flag_off c0)
    (d ← get_d;
     wait ← lift (asBool (Get d "wait_for_instances"));
     if (wait : bool) then
       r ← call CWaitForState (WaitForState d);
       _ ← put_d r.2;
       check r.1
     else mret tt).
Proof.
  intros st [Hflag Hlog]. unfold mbind, M_bind, get_d, lift. simpl.
  rewrite Hflag. simpl. split; assumption.
Qed.

End ImportFacts.

Ltac flag_step :=
  lazymatch goal with
  | |- preserves _ (mbind _ _) => apply preserves_bind; [|intros]
  | |- preserves _ (mret _) => apply preserves_ret
  | |- preserves _ (fail _) => apply preserves_fail
  | |- preserves _ (lift _) => apply preserves_lift
  | |- preserves _ (try _) => apply preserves_try
  | |- preserves _ (try_or _ _) => apply preserves_try_or
  | |- preserves _ get_d => apply preserves_get_d
  | |- preserves _ (check _) => apply preserves_check
  | |- preserves _ (d_Set _ _) => apply flag_d_Set; discriminate
  | |- preserves _ (d_SetId _) => apply flag_d_SetId
  | |- preserves _ (call _ _) => apply flag_call; reflexivity
  | |- preserves _ (match ?x with _ => _ end) => destruct x
  | |- preserves _ (let _ := _ in _) => cbv zeta
  end.

Section ImportRead.
Context {helpers : Helpers} {W : Type} {cloud : Cloud W}.

Lemma getManager_flag c0 : preserves (flag_off c0) getManager.
Proof. unfold getManager. repeat flag_step. Qed.

Lemma Read_flag c0 :
  preserves (flag_off c0) resourceComputeInstanceGroupManagerRead.
Proof.
  unfold resourceComputeInstanceGroupManagerRead.
  flag_step; [flag_step|]. flag_step; [flag_step|].
  flag_step; [apply getManager_flag|].
  flag_step; [|flag_step].
  do 12 (flag_step; [flag_step|]).
  flag_step; [flag_step|]. do 2 (flag_step; [flag_step|]).
  apply flag_gate.
Qed.

End ImportRead.

Section ImportTheorem.
Context {helpers : Helpers} {W : Type} {cloud : Cloud W}.

Lemma importer_run (st : St W) :
  let d1 := Set_ (data st) "wait_for_instances" (VBool false) in
  resourceInstanceGroupManagerStateImporter st =
    match parseInstanceGroupManagerId ProjectRegex (rd_Id (data st)) with
    | Ok zonalID =>
        if bool_decide (Zone zonalID = "") || bool_decide (Project zonalID = "")
        then (Err invalid_import_id, mkSt (world st) d1 (calls st))
        else
          let d4 := Set_ (Set_ (Set_ d1 "project" (VString (Project zonalID)))
                            "zone" (VString (Zone zonalID)))
                      "name" (VString (Name zonalID)) in
          (Ok [d4], mkSt (world st) d4 (calls st))
    | Err e => (Err e, mkSt (world st) d1 (calls st))
    | Panic => (Panic, mkSt (world st) d1 (calls st))
    | OutOfFuel => (OutOfFuel, mkSt (world st) d1 (calls st))
    end.
Proof.
  intros d1. unfold resourceInstanceGroupManagerStateImporter.
  unfold mbind, M_bind, d_Set, get_d, lift. simpl.
  destruct (parseInstanceGroupManagerId ProjectRegex (rd_Id (data st)))
    as [zonalID|e| |]; try reflexivity.
  destruct (bool_decide (Zone zonalID = "") || bool_decide (Project zonalID = ""));
    reflexivity.
Qed.

(** C10. Whatever [d] holds, the importer first sets
    [wait_for_instances] to false: the flag is off in the state it
    leaves, also when it fails; when it succeeds, [d] is the given
    state with the flag written first and [project], [zone] and
    [name] written after it from the parsed id, and a read of that
    state, in any world, makes no [WaitForState] call. *)
Theorem C10_import_turns_wait_off (st : St W) :
  let out := resourceInstanceGroupManagerStateImporter st in
  Get (data out.2) "wait_for_instances" = Some (VBool false)
  /\ calls out.2 = calls st
  /\ (forall ds, out.1 = Ok ds ->
      exists zonalID,
        parseInstanceGroupManagerId ProjectRegex (rd_Id (data st)) = Ok zonalID
        /\ ds = [data out.2]
        /\ data out.2 =
             Set_ (Set_ (Set_ (Set_ (data st) "wait_for_instances" (VBool false))
                              "project" (VString (Project zonalID)))
                        "zone" (VString (Zone zonalID)))
                  "name" (VString (Name zonalID)))
  /\ (forall (w : W) (before : list Call),
        let st1 := resourceComputeInstanceGroupManagerRead
                     (mkSt w (data out.2) before) in
        extends_with before (fun c => is_wait_for_state c = false) st1.2).
Proof.
  intros out.
  assert (Hflag : Get (data out.2) "wait_for_instances" = Some (VBool false)).
  { subst out. rewrite importer_run.
    destruct (parseInstanceGroupManagerId ProjectRegex (rd_Id (data st)))
      as [zonalID|e| |]; simpl;
      try (apply (Get_Set_eq _ _ _ TypeBool); reflexivity).
    destruct (bool_decide (Zone zonalID = "") || bool_decide (Project zonalID = ""));
      simpl.
    - apply (Get_Set_eq _ _ _ TypeBool); reflexivity.
    - rewrite !Get_Set_ne by discriminate.
      apply (Get_Set_eq _ _ _ TypeBool); reflexivity. }
  split; [exact Hflag|]. split; [|split].
  - subst out. rewrite importer_run.
    destruct (parseInstanceGroupManagerId ProjectRegex (rd_Id (data st)))
      as [zonalID|e| |]; simpl; try reflexivity.
    destruct (bool_decide (Zone zonalID = "") || bool_decide (Project zonalID = ""));
      reflexivity.
  - intros ds. subst out. rewrite importer_run.
    destruct (parseInstanceGroupManagerId ProjectRegex (rd_Id (data st)))
      as [zonalID|e| |]; simpl; try discriminate.
    destruct (bool_decide (Zone zonalID = "") || bool_decide (Project zonalID = ""));
      simpl; [discriminate|].
    intros [= <-]. exists zonalID. repeat split; reflexivity.
  - intros w before st1.
    apply (Read_flag before (mkSt w (data out.2) before)).
    split; [exact Hflag | apply extends_with_start].
Qed.

End ImportTheorem.

(** ** C5, C6: what an update sends *)
Section UpdateFacts.
Context {helpers : Helpers} {W : Type} {cloud : Cloud W}.

Lemma updatedManager_of_spec d um ch :
  updatedManager_of d = Ok (um, ch) ->
  carries_changed_fields d um /\ ch = patch_field_changed d.
Proof.
  unfold updatedManager_of, carries_changed_fields, patch_field_changed.
  destruct (asString (Get d "fingerprint")) as [fp| | |]; try discriminate.
  cbn [mbind res_bind].
  destruct (HasChange d "target_pools");
    [destruct (asSetList (Get d "target_pools")) as [pools| | |]; try discriminate|];
    cbn [mbind res_bind];
    (destruct (HasChange d "auto_healing_policies");
     [destruct (asList (Get d "auto_healing_policies")) as [c1| | |]; try discriminate;
      cbn [mbind res_bind];
      destruct (expandAutoHealingPolicies c1) as [ps| | |] eqn:?; try discriminate|]);
    cbn [mbind res_bind];
    (destruct (HasChange d "version");
     [destruct (asList (Get d "version")) as [c2| | |]; try discriminate;
      cbn [mbind res_bind];
      destruct (expandVersions c2) as [vs| | |] eqn:?; try discriminate|]);
    cbn [mbind res_bind];
    (destruct (HasChange d "update_policy");
     [destruct (asList (Get d "update_policy")) as [c3| | |]; try discriminate;
      cbn [mbind res_bind];
      destruct (expandUpdatePolicy c3) as [up| | |] eqn:?; try discriminate|]);
    cbn [mbind res_bind];
    intros [= <- <-]; simpl; repeat split; eauto 8.
Qed.

Lemma update_patch_logs c0 (allowed : Call -> Prop) d um ch p z :
  (forall c, read_call c = true -> allowed c) ->
  (forall op p a, allowed (COperationWait op p a)) ->
  (ch = true -> forall n, allowed (CPatch p z n um)) ->
  preserves (extends_with c0 allowed) (update_patch d p z um ch).
Proof.
  intros Hread Hwait Hpatch. unfold update_patch.
  destruct ch; [|apply preserves_ret].
  repeat (log_step; auto).
Qed.

Lemma update_named_port_logs c0 (allowed : Call -> Prop) d p z :
  (forall op p a, allowed (COperationWait op p a)) ->
  (HasChange d "named_port" = true -> forall n ports, allowed (CSetNamedPorts p z n ports)) ->
  preserves (extends_with c0 allowed) (update_named_port d p z).
Proof.
  intros Hwait Hports. unfold update_named_port.
  destruct (HasChange d "named_port"); [|apply preserves_ret].
  repeat (log_step; auto).
Qed.

Lemma update_target_size_logs c0 (allowed : Call -> Prop) d p z :
  (forall op p a, allowed (COperationWait op p a)) ->
  (HasChange d "target_size" = true -> forall n size, allowed (CResize p z n size)) ->
  preserves (extends_with c0 allowed) (update_target_size d p z).
Proof.
  intros Hwait Hsize. unfold update_target_size.
  destruct (HasChange d "target_size"); [|apply preserves_ret].
  repeat (log_step; auto).
Qed.

Lemma update_from_logs c0 (allowed : Call -> Prop) d :
  (forall c, read_call c = true -> allowed c) ->
  (forall op p a, allowed (COperationWait op p a)) ->
  (forall p z n body, updatedManager_of d = Ok (body, true) -> allowed (CPatch p z n body)) ->
  (HasChange d "named_port" = true ->
   forall p z n ports, allowed (CSetNamedPorts p z n ports)) ->
  (HasChange d "target_size" = true -> forall p z n size, allowed (CResize p z n size)) ->
  preserves (extends_with c0 allowed) (update_from d).
Proof.
  intros Hread Hwait Hpatch Hports Hsize. unfold update_from.
  apply preserves_bind; [apply preserves_try | intros p].
  apply preserves_bind; [apply preserves_try | intros z].
  apply preserves_bind_lift. intros [um ch] Hreq. simpl.
  apply preserves_bind; [|intros _].
  { apply update_patch_logs; auto. intros -> n. apply Hpatch. exact Hreq. }
  apply preserves_bind; [|intros _].
  { apply update_named_port_logs; auto. }
  apply preserves_bind; [|intros _].
  { apply update_target_size_logs; auto. }
  apply Read_logs. exact Hread.
Qed.

End UpdateFacts.

Section UpdateTheorems.
Context {helpers : Helpers} {W : Type} {cloud : Cloud W}.

Lemma extends_with_inv (allowed : Call -> Prop) c0 new (st : St W) :
  calls st = c0 ++ new -> extends_with c0 allowed st -> Forall allowed new.
Proof.
  intros E (new' & E' & Hnew). rewrite E in E'.
  apply app_inv_head in E'. subst new'. exact Hnew.
Qed.

Lemma update_grows (st : St W) :
  exists new, calls (resourceComputeInstanceGroupManagerUpdate st).2 = calls st ++ new.
Proof.
  unfold resourceComputeInstanceGroupManagerUpdate. rewrite run_get_d.
  assert (Hlog : preserves (extends_with (calls st) (fun _ => True))
                   (update_from (data st)))
    by (apply update_from_logs; intros; exact I).
  destruct (Hlog st (extends_with_start _ st)) as (new & E & _).
  exists new. exact E.
Qed.

Lemma update_patches_ok (st : St W) :
  extends_with (calls st)
    (fun c => forall p z n body, c = CPatch p z n body ->
       patch_field_changed (data st) = true /\ carries_changed_fields (data st) body)
    (resourceComputeInstanceGroupManagerUpdate st).2.
Proof.
  unfold resourceComputeInstanceGroupManagerUpdate. rewrite run_get_d.
  apply update_from_logs; try (intros; discriminate); try apply extends_with_start.
  - intros c Hc p z n body ->. discriminate.
  - intros p z n body Hreq p' z' n' body' [= _ _ _ <-].
    apply updatedManager_of_spec in Hreq as [Hbody Hch]. split; auto.
Qed.

Lemma update_patch_first (st : St W) p z n body :
  getProject (data st) (world st) = Done p ->
  getZone (data st) (world st) = Done z ->
  updatedManager_of (data st) = Ok (body, true) ->
  asString (Get (data st) "name") = Ok n ->
  extends_with (calls st ++ [CPatch p z n body]) (fun c => is_patch c = false)
    (resourceComputeInstanceGroupManagerUpdate st).2.
Proof.
  intros Hp Hz Hreq Hn.
  unfold resourceComputeInstanceGroupManagerUpdate. rewrite run_get_d.
  unfold update_from.
  rewrite (run_try_done _ _ _ p Hp), (run_try_done _ _ _ z Hz).
  rewrite Hreq, run_lift_ok. cbn [fst snd]. unfold update_patch.
  rewrite bind_assoc_run, Hn, run_lift_ok, bind_assoc_run, run_call.
  match goal with
  | |- extends_with _ _ (?K ?st1).2 =>
      apply (fun HK : preserves _ K => HK st1)
  end; [|apply extends_with_start].
  apply preserves_bind; [|intros _].
  { repeat (log_step; auto). }
  apply preserves_bind; [|intros _].
  { apply update_named_port_logs; auto. }
  apply preserves_bind; [|intros _].
  { apply update_target_size_logs; auto. }
  apply Read_logs. intros [] Hc; try discriminate; reflexivity.
Qed.

(** The struct handed to [Patch].  Every patch request of an update is
    sent only when one of [target_pools], [auto_healing_policies],
    [version] and [update_policy] changed; the struct of the request
    has the stored fingerprint, has each of the four fields that
    changed assigned and the others nil; when none of them changed no
    patch request is sent; and when project, zone, request and name
    are obtained, the patch is the first call of the update and the
    only patch.  What of the struct reaches the body of the request is
    [in_body]. *)
Lemma update_patch_requests (st : St W) :
  let d := data st in
  let out := resourceComputeInstanceGroupManagerUpdate st in
  exists new, calls out.2 = calls st ++ new
    /\ Forall (fun c => forall p z n body, c = CPatch p z n body ->
                 patch_field_changed d = true /\ carries_changed_fields d body) new
    /\ (patch_field_changed d = false -> Forall (fun c => is_patch c = false) new)
    /\ (forall p z n body,
          getProject d (world st) = Done p -> getZone d (world st) = Done z ->
          updatedManager_of d = Ok (body, true) -> asString (Get d "name") = Ok n ->
          exists rest, new = CPatch p z n body :: rest
                       /\ Forall (fun c => is_patch c = false) rest).
Proof.
  cbv zeta. destruct (update_grows st) as (new & E). exists new.
  split; [exact E|].
  assert (Hok := extends_with_inv _ _ _ _ E (update_patches_ok st)).
  split; [exact Hok|]. split.
  - intros Hnone. eapply Forall_impl; [exact Hok|].
    intros [] Hc; try reflexivity.
    destruct (Hc _ _ _ _ eq_refl) as [Hch _]. congruence.
  - intros p z n body Hp Hz Hreq Hn.
    destruct (update_patch_first st p z n body Hp Hz Hreq Hn) as (rest & E' & Hrest).
    exists rest. split; [|exact Hrest].
    rewrite E, <- app_assoc in E'.
    apply app_inv_head in E'. exact E'.
Qed.

(** The body of a patch request, field by field: the auto-healing
    policies and the update policy are in the body exactly when they
    changed; target pools and versions are in the body when they
    changed to a slice with elements, and in no other case; named
    ports and target size are never in it. *)
Lemma patch_body_of_changed_fields d body :
  carries_changed_fields d body ->
  in_body body "AutoHealingPolicies" = HasChange d "auto_healing_policies"
  /\ in_body body "UpdatePolicy" = HasChange d "update_policy"
  /\ (if HasChange d "target_pools"
      then exists pools, asSetList (Get d "target_pools") = Ok pools
             /\ in_body body "TargetPools" = negb (no_elements (convertStringSet pools))
      else in_body body "TargetPools" = false)
  /\ (if HasChange d "version"
      then exists configured versions,
             asList (Get d "version") = Ok configured
             /\ expandVersions configured = Ok versions
             /\ in_body body "Versions" = negb (no_elements versions)
      else in_body body "Versions" = false)
  /\ in_body body "NamedPorts" = false
  /\ in_body body "TargetSize" = false.
Proof.
  intros (_ & Hpools & Hheal & Hversions & Hpolicy & Hports & Hsize & Hforce).
  unfold in_body, empty_fields. rewrite Hforce, Hports, Hsize.
  destruct (HasChange d "target_pools");
    [destruct Hpools as (pools & Epools & ->) | rewrite Hpools];
    (destruct (HasChange d "auto_healing_policies");
     [destruct Hheal as (c1 & ps & E1 & E1' & ->) | rewrite Hheal]);
    (destruct (HasChange d "version");
     [destruct Hversions as (c2 & vs & E2 & E2' & ->) | rewrite Hversions]);
    (destruct (HasChange d "update_policy");
     [destruct Hpolicy as (c3 & up & E3 & E3' & ->) | rewrite Hpolicy]);
    cbn [existsb elems default fst snd no_elements negb];
    repeat split;
    try (eexists; split; [eassumption|]);
    try (eexists _, _; split; [eassumption|]; split; [eassumption|]);
    cbn; rewrite ?andb_false_r, ?orb_false_r; reflexivity.
Qed.

(** C5. The body of the patch request lacks a changed field.  When
    [target_pools] changed to a set of which [convertStringSet] makes
    a slice without elements, the update sends its patch, which is its
    first call and its only patch, with a struct whose [TargetPools]
    is that slice; the field is not listed in [ForceSendFields], as
    [AutoHealingPolicies] is, so the body of the request does not have
    [TargetPools] although [target_pools] changed. *)
Theorem C5_cleared_target_pools_not_sent (st : St W) p z n body pools :
  let d := data st in
  let out := resourceComputeInstanceGroupManagerUpdate st in
  getProject d (world st) = Done p ->
  getZone d (world st) = Done z ->
  updatedManager_of d = Ok (body, true) ->
  asString (Get d "name") = Ok n ->
  HasChange d "target_pools" = true ->
  asSetList (Get d "target_pools") = Ok pools ->
  convertStringSet pools = [] ->
  (exists rest, calls out.2 = calls st ++ CPatch p z n body :: rest
                /\ Forall (fun c => is_patch c = false) rest)
  /\ InstanceGroupManager.TargetPools body = Some []
  /\ InstanceGroupManager.ForceSendFields body
     = (if HasChange d "auto_healing_policies"
        then ["AutoHealingPolicies"%string] else [])
  /\ in_body body "TargetPools" = false.
Proof.
  cbv zeta. intros Hp Hz Hreq Hn Hchanged Hpools Hnone.
  split.
  { destruct (update_patch_first st p z n body Hp Hz Hreq Hn) as (rest & E & Hrest).
    exists rest. split; [|exact Hrest]. rewrite E, <- app_assoc. reflexivity. }
  destruct (updatedManager_of_spec _ _ _ Hreq) as [Hbody _].
  pose proof (patch_body_of_changed_fields _ _ Hbody) as (_ & _ & Hsent & _).
  destruct Hbody as (_ & Hassigned & _ & _ & _ & _ & _ & Hforce).
  rewrite Hchanged in Hsent, Hassigned.
  destruct Hassigned as (pools' & E' & Hfield).
  destruct Hsent as (pools'' & E'' & Hsent).
  rewrite Hpools in E', E''. injection E' as <-. injection E'' as <-.
  rewrite Hnone in Hfield, Hsent.
  split; [exact Hfield|]. split; [exact Hforce | exact Hsent].
Qed.

End UpdateTheorems.

Section UpdateAlone.
Context {helpers : Helpers} {W : Type} {cloud : Cloud W}.

Lemma only_changed_inv d key :
  only_changed d key ->
  HasChange d "target_pools" = bool_decide ("target_pools"%string = key)
  /\ HasChange d "auto_healing_policies" = bool_decide ("auto_healing_policies"%string = key)
  /\ HasChange d "version" = bool_decide ("version"%string = key)
  /\ HasChange d "update_policy" = bool_decide ("update_policy"%string = key)
  /\ HasChange d "named_port" = bool_decide ("named_port"%string = key)
  /\ HasChange d "target_size" = bool_decide ("target_size"%string = key).
Proof.
  unfold only_changed, update_keys. intros Hall.
  repeat (apply Forall_cons in Hall as [? Hall]). repeat split; assumption.
Qed.

(** With none of the four patched fields changed the request is just
    the fingerprint, and nothing is to be patched. *)
Lemma updatedManager_of_unchanged d fp :
  patch_field_changed d = false ->
  asString (Get d "fingerprint") = Ok fp ->
  updatedManager_of d = Ok (IGM.with_Fingerprint fp InstanceGroupManager.zero, false).
Proof.
  unfold patch_field_changed. rewrite !orb_false_iff.
  intros [[[H1 H2] H3] H4] Hfp. unfold updatedManager_of.
  rewrite Hfp, H1, H2, H3, H4. reflexivity.
Qed.

Lemma update_no_patch (st : St W) (allowed : Call -> Prop) :
  patch_field_changed (data st) = false ->
  (forall c, read_call c = true -> allowed c) ->
  (forall op p a, allowed (COperationWait op p a)) ->
  (HasChange (data st) "named_port" = true ->
   forall p z n ports, allowed (CSetNamedPorts p z n ports)) ->
  (HasChange (data st) "target_size" = true ->
   forall p z n size, allowed (CResize p z n size)) ->
  extends_with (calls st) allowed (resourceComputeInstanceGroupManagerUpdate st).2.
Proof.
  intros Hnone Hread Hwait Hports Hsize.
  unfold resourceComputeInstanceGroupManagerUpdate. rewrite run_get_d.
  apply update_from_logs; auto; [|apply extends_with_start].
  intros p z n body Hreq. apply updatedManager_of_spec in Hreq as [_ Hch]. congruence.
Qed.

Lemma update_named_port_first (st : St W) p z fp nps ports n :
  only_changed (data st) "named_port" ->
  getProject (data st) (world st) = Done p ->
  getZone (data st) (world st) = Done z ->
  asString (Get (data st) "fingerprint") = Ok fp ->
  asSetList (Get (data st) "named_port") = Ok nps ->
  getNamedPortsBeta nps = Ok ports ->
  asString (Get (data st) "name") = Ok n ->
  extends_with (calls st ++ [CSetNamedPorts p z n ports]) (fun _ => True)
    (resourceComputeInstanceGroupManagerUpdate st).2.
Proof.
  intros Honly Hp Hz Hfp Hnps Hports Hn.
  apply only_changed_inv in Honly as (H1 & H2 & H3 & H4 & H5 & H6).
  unfold resourceComputeInstanceGroupManagerUpdate. rewrite run_get_d.
  unfold update_from.
  rewrite (run_try_done _ _ _ p Hp), (run_try_done _ _ _ z Hz).
  rewrite (updatedManager_of_unchanged _ fp), run_lift_ok;
    [|unfold patch_field_changed; rewrite H1, H2, H3, H4; reflexivity | exact Hfp].
  cbn [fst snd]. unfold update_patch. rewrite run_ret.
  unfold update_named_port. rewrite H5.
  change (bool_decide ("named_port"%string = "named_port"%string)) with true. cbv iota.
  rewrite bind_assoc_run, Hnps, run_lift_ok, bind_assoc_run, Hports, run_lift_ok.
  rewrite bind_assoc_run, Hn, run_lift_ok, bind_assoc_run, run_call.
  match goal with
  | |- extends_with _ _ (?K ?st1).2 =>
      apply (fun HK : preserves _ K => HK st1)
  end; [|apply extends_with_start].
  apply preserves_bind; [|intros _].
  { repeat (log_step; auto). }
  apply preserves_bind; [|intros _].
  { apply update_target_size_logs; auto. }
  apply Read_logs. auto.
Qed.

Lemma update_target_size_first (st : St W) p z fp size n :
  only_changed (data st) "target_size" ->
  getProject (data st) (world st) = Done p ->
  getZone (data st) (world st) = Done z ->
  asString (Get (data st) "fingerprint") = Ok fp ->
  asInt (Get (data st) "target_size") = Ok size ->
  asString (Get (data st) "name") = Ok n ->
  extends_with (calls st ++ [CResize p z n size]) (fun _ => True)
    (resourceComputeInstanceGroupManagerUpdate st).2.
Proof.
  intros Honly Hp Hz Hfp Hsize Hn.
  apply only_changed_inv in Honly as (H1 & H2 & H3 & H4 & H5 & H6).
  unfold resourceComputeInstanceGroupManagerUpdate. rewrite run_get_d.
  unfold update_from.
  rewrite (run_try_done _ _ _ p Hp), (run_try_done _ _ _ z Hz).
  rewrite (updatedManager_of_unchanged _ fp), run_lift_ok;
    [|unfold patch_field_changed; rewrite H1, H2, H3, H4; reflexivity | exact Hfp].
  cbn [fst snd]. unfold update_patch. rewrite run_ret.
  unfold update_named_port. rewrite H5.
  change (bool_decide ("named_port"%string = "target_size"%string)) with false. cbv iota.
  rewrite run_ret.
  unfold update_target_size. rewrite H6.
  change (bool_decide ("target_size"%string = "target_size"%string)) with true. cbv iota.
  rewrite bind_assoc_run, Hsize, run_lift_ok.
  rewrite bind_assoc_run, Hn, run_lift_ok, bind_assoc_run, run_call.
  match goal with
  | |- extends_with _ _ (?K ?st1).2 =>
      apply (fun HK : preserves _ K => HK st1)
  end; [|apply extends_with_start].
  apply preserves_bind; [|intros _].
  { repeat (log_step; auto). }
  apply Read_logs. auto.
Qed.

(** C6. When [named_port] is the only field that changed, an update
    makes no patch call (and no resize call), and once project, zone,
    ports and name are obtained its first call is the set-named-ports
    call; when [target_size] is the only field that changed, it makes
    no patch call (and no set-named-ports call), and its first call is
    the resize call. *)
Theorem C6_named_port_or_target_size_alone (st : St W) :
  let d := data st in
  let out := resourceComputeInstanceGroupManagerUpdate st in
  exists new, calls out.2 = calls st ++ new
    /\ (only_changed d "named_port" ->
        Forall (fun c => is_patch c = false /\ is_resize c = false) new
        /\ forall p z fp nps ports n,
             getProject d (world st) = Done p -> getZone d (world st) = Done z ->
             asString (Get d "fingerprint") = Ok fp ->
             asSetList (Get d "named_port") = Ok nps ->
             getNamedPortsBeta nps = Ok ports ->
             asString (Get d "name") = Ok n ->
             exists rest, new = CSetNamedPorts p z n ports :: rest)
    /\ (only_changed d "target_size" ->
        Forall (fun c => is_patch c = false /\ is_set_named_ports c = false) new
        /\ forall p z fp size n,
             getProject d (world st) = Done p -> getZone d (world st) = Done z ->
             asString (Get d "fingerprint") = Ok fp ->
             asInt (Get d "target_size") = Ok size ->
             asString (Get d "name") = Ok n ->
             exists rest, new = CResize p z n size :: rest).
Proof.
  cbv zeta. destruct (update_grows st) as (new & E). exists new.
  split; [exact E|]. split.
  - intros Honly. split.
    + apply (extends_with_inv _ _ _ _ E).
      pose proof (only_changed_inv _ _ Honly) as (H1 & H2 & H3 & H4 & H5 & H6).
      apply update_no_patch.
      * unfold patch_field_changed. rewrite H1, H2, H3, H4. reflexivity.
      * intros [] Hc; try discriminate; split; reflexivity.
      * intros; split; reflexivity.
      * intros; split; reflexivity.
      * rewrite H6. discriminate.
    + intros p z fp nps ports n Hp Hz Hfp Hnps Hports Hn.
      destruct (update_named_port_first st p z fp nps ports n
                  Honly Hp Hz Hfp Hnps Hports Hn) as (rest & E' & _).
      exists rest. rewrite E, <- app_assoc in E'.
      apply app_inv_head in E'. exact E'.
  - intros Honly. split.
    + apply (extends_with_inv _ _ _ _ E).
      pose proof (only_changed_inv _ _ Honly) as (H1 & H2 & H3 & H4 & H5 & H6).
      apply update_no_patch.
      * unfold patch_field_changed. rewrite H1, H2, H3, H4. reflexivity.
      * intros [] Hc; try discriminate; split; reflexivity.
      * intros; split; reflexivity.
      * rewrite H5. discriminate.
      * intros; split; reflexivity.
    + intros p z fp size n Hp Hz Hfp Hsize Hn.
      destruct (update_target_size_first st p z fp size n
                  Honly Hp Hz Hfp Hsize Hn) as (rest & E' & _).
      exists rest. rewrite E, <- app_assoc in E'.
      apply app_inv_head in E'. exact E'.
Qed.

End UpdateAlone.

(** ** C7: the retries of the delete request *)
Section DeleteRetry.
Context {helpers : Helpers} {W : Type} {cloud : Cloud W}.

Lemma run_resolved {B} (x : string) (f : W -> reply string) (k : string -> M W B) st v :
  resolved x (f (world st)) = Done v ->
  ((if decide (x = ""%string) then try f else mret x) ≫= k) st = k v st.
Proof.
  unfold resolved. destruct (decide (x = ""%string)); intros Hx.
  - apply run_try_done. exact Hx.
  - injection Hx as <-. reflexivity.
Qed.

Lemma St_eta (st : St W) : st = mkSt (world st) (data st) (calls st).
Proof. destruct st; reflexivity. Qed.

(** The loop, from request [j] with [remaining] retries left, up to
    request [k]: the first that succeeds, or the last one. *)
Lemma delete_retry_run p z n w0 (remaining : nat) :
  forall (j k : nat) (st : St W),
    world st = (nth_delete p z n j w0).2 ->
    (j <= k <= j + remaining)%nat ->
    (forall i, (j <= i < k)%nat -> failed (nth_delete p z n i w0).1 = true) ->
    (k = (j + remaining)%nat \/ failed (nth_delete p z n k w0).1 = false) ->
    delete_retry remaining p z n (nth_delete p z n j w0).1 st
    = (Ok (nth_delete p z n k w0).1,
       mkSt (nth_delete p z n k w0).2 (data st)
            (calls st ++ retry_calls p z n (k - j))).
Proof.
  induction remaining as [|remaining IH]; intros j k st Hw Hk Hfail Hstop.
  - assert (k = j) as -> by lia. rewrite Nat.sub_diag. simpl.
    destruct (nth_delete p z n j w0).1; unfold mret, M_ret;
      rewrite app_nil_r, <- Hw, <- St_eta; reflexivity.
  - destruct (Nat.eq_dec k j) as [->|Hne].
    + destruct Hstop as [Hstop|Hstop]; [lia|].
      rewrite Nat.sub_diag. simpl.
      destruct (nth_delete p z n j w0).1 as [op|e]; [|discriminate].
      unfold mret, M_ret. rewrite app_nil_r, <- Hw, <- St_eta. reflexivity.
    + assert (Hj : failed (nth_delete p z n j w0).1 = true) by (apply Hfail; lia).
      destruct (nth_delete p z n j w0).1 as [op|e] eqn:Ej; [discriminate|].
      cbn [delete_retry]. rewrite run_call, run_call. cbn [fst snd world data calls].
      rewrite Hw.
      change (InstanceGroupManagers_Delete p z n (Sleep 2000 (nth_delete p z n j w0).2))
        with (nth_delete p z n (S j) w0).
      rewrite (IH (S j) k); cbn [world data calls].
      * replace (k - j)%nat with (S (k - S j)) by lia.
        cbn [retry_calls]. rewrite <- !app_assoc. reflexivity.
      * reflexivity.
      * lia.
      * intros i Hi. apply Hfail. lia.
      * destruct Hstop as [->|Hstop]; [left; lia | right; exact Hstop].
Qed.

End DeleteRetry.

Section DeleteFacts.
Context {helpers : Helpers} {W : Type} {cloud : Cloud W}.

Lemma delete_drain_logs c0 (allowed : Call -> Prop) op p z n :
  (forall p z n, allowed (CGroupsGet p z n)) ->
  (forall op p a, allowed (COperationWait op p a)) ->
  forall fuel err cs,
    preserves (extends_with c0 allowed) (delete_drain fuel op p z n err cs).
Proof.
  intros Hget Hwait. induction fuel as [|fuel IH]; intros err cs; simpl.
  - destruct err; [destruct (0 <? cs)|]; repeat log_step.
  - destruct err; [destruct (0 <? cs)|]; repeat (log_step; auto).
Qed.

(** What follows a delete request that was accepted. *)
Lemma delete_tail_logs c0 (allowed : Call -> Prop) d op p z n :
  (forall p z n, allowed (CGroupsGet p z n)) ->
  (forall op p a, allowed (COperationWait op p a)) ->
  preserves (extends_with c0 allowed)
    (currentSize ← lift (asInt (Get d "target_size"));
     err ← call (COperationWait op p "Deleting InstanceGroupManager")
             (computeSharedOperationWait op p "Deleting InstanceGroupManager");
     _ ← delete_drain (Z.to_nat currentSize) op p z n err currentSize;
     d_SetId "").
Proof.
  intros Hget Hwait.
  log_step. log_step; [log_step; auto|].
  log_step; [apply delete_drain_logs; auto | log_step].
Qed.

(** A delete, up to the request [k] that ends the retry loop. *)
Lemma delete_from_request (st : St W) zonalID p z (k : nat) :
  parseInstanceGroupManagerId ProjectRegex (rd_Id (data st)) = Ok zonalID ->
  resolved (Project zonalID) (getProject (data st) (world st)) = Done p ->
  resolved (Zone zonalID) (getZone (data st) (world st)) = Done z ->
  (k <= 20)%nat ->
  (forall i, (i < k)%nat ->
     failed (nth_delete p z (Name zonalID) i (world st)).1 = true) ->
  (k = 20%nat \/ failed (nth_delete p z (Name zonalID) k (world st)).1 = false) ->
  resourceComputeInstanceGroupManagerDelete st
  = (match (nth_delete p z (Name zonalID) k (world st)).1 with
     | Failed e => fail ("Error deleting instance group manager: " +:+ e)
     | Done op =>
         currentSize ← lift (asInt (Get (data st) "target_size"));
         err ← call (COperationWait op p "Deleting InstanceGroupManager")
                 (computeSharedOperationWait op p "Deleting InstanceGroupManager");
         _ ← delete_drain (Z.to_nat currentSize) op p z (Name zonalID) err currentSize;
         d_SetId ""
     end)
      (mkSt (nth_delete p z (Name zonalID) k (world st)).2 (data st)
            (calls st ++ CDelete p z (Name zonalID)
               :: retry_calls p z (Name zonalID) k)).
Proof.
  intros Hparse Hp Hz Hk Hfail Hstop.
  unfold resourceComputeInstanceGroupManagerDelete. rewrite run_get_d.
  unfold delete_from. rewrite Hparse, run_lift_ok.
  rewrite (run_resolved _ _ _ _ p Hp), (run_resolved _ _ _ _ z Hz).
  cbv zeta. rewrite run_call.
  change (InstanceGroupManagers_Delete p z (Name zonalID) (world st))
    with (nth_delete p z (Name zonalID) 0 (world st)).
  erewrite bind_ok;
    [|apply (delete_retry_run p z (Name zonalID) (world st) 20 0 k);
      [reflexivity | lia | intros i Hi; apply Hfail; lia
      | destruct Hstop as [->|Hstop]; [left; reflexivity | right; exact Hstop]]].
  cbn [world data calls]. rewrite Nat.sub_0_r, <- app_assoc. reflexivity.
Qed.

(** C7. A delete request that fails is made again after a sleep of
    2000 ms, whatever the error, at most 20 times.  When the request
    and its 20 retries all fail, delete returns the last error behind
    the prefix of the deletion error and leaves [d] as it was; when
    request [k] is the first to succeed, no further request or sleep
    follows, and delete goes on to wait for the operation. *)
Theorem C7_delete_retries (st : St W) (zonalID : instanceGroupManagerId) (p z : string) :
  let d := data st in
  let n := Name zonalID in
  let w := world st in
  let out := resourceComputeInstanceGroupManagerDelete st in
  parseInstanceGroupManagerId ProjectRegex (rd_Id d) = Ok zonalID ->
  resolved (Project zonalID) (getProject d w) = Done p ->
  resolved (Zone zonalID) (getZone d w) = Done z ->
  ((forall i, (i <= 20)%nat -> failed (nth_delete p z n i w).1 = true) ->
   exists e, (nth_delete p z n 20 w).1 = Failed e
     /\ out.1 = Err ("Error deleting instance group manager: " +:+ e)
     /\ calls out.2 = calls st ++ CDelete p z n :: retry_calls p z n 20
     /\ data out.2 = d)
  /\ (forall (k : nat) (op : Operation),
        (k <= 20)%nat ->
        (forall i, (i < k)%nat -> failed (nth_delete p z n i w).1 = true) ->
        (nth_delete p z n k w).1 = Done op ->
        exists rest,
          calls out.2 = calls st ++ CDelete p z n :: retry_calls p z n k ++ rest
          /\ Forall (fun c => is_delete_or_sleep c = false) rest
          /\ (forall size, asInt (Get d "target_size") = Ok size ->
              exists rest', rest = COperationWait op p deleting :: rest')).
Proof.
  cbv zeta. intros Hparse Hp Hz. split.
  - intros Hfail.
    rewrite (delete_from_request st zonalID p z 20 Hparse Hp Hz);
      [|lia | intros i Hi; apply Hfail; lia | left; reflexivity].
    specialize (Hfail 20%nat (le_n _)).
    destruct (nth_delete p z (Name zonalID) 20 (world st)).1 as [op|e];
      [discriminate|].
    exists e. repeat split; reflexivity.
  - intros k op Hk Hfail Hdone.
    rewrite (delete_from_request st zonalID p z k Hparse Hp Hz Hk Hfail);
      [|right; rewrite Hdone; reflexivity].
    rewrite Hdone.
    match goal with
    | |- context [ (?K ?st1).2 ] =>
        destruct (delete_tail_logs (calls st1)
                    (fun c => is_delete_or_sleep c = false)
                    (data st) op p z (Name zonalID)
                    ltac:(reflexivity) ltac:(reflexivity)
                    st1 (extends_with_start _ st1)) as (rest & E & Hrest)
    end.
    exists rest. cbn [calls] in E. split; [|split; [exact Hrest|]].
    + rewrite E, <- app_assoc. reflexivity.
    + intros size Hsize. revert E.
      rewrite Hsize, run_lift_ok, run_call. cbn [world data calls].
      match goal with
      | |- context [ (?K ?st2).2 ] =>
          assert (HK : preserves (extends_with (calls st2) (fun _ => True)) K)
      end.
      { log_step; [apply delete_drain_logs; auto | log_step]. }
      match type of HK with
      | preserves (extends_with (calls ?st2) _) _ =>
          destruct (HK st2 (extends_with_start _ st2)) as (rest' & E' & _)
      end.
      cbn [calls] in E'. rewrite E', <- !app_assoc. intros E.
      apply app_inv_head in E. simpl in E. injection E as E.
      apply app_inv_head in E. exists rest'. subst rest. reflexivity.
Qed.

End DeleteFacts.

(** ** C8: waiting while the group shrinks *)
Section DeleteDrain.
Context {helpers : Helpers} {W : Type} {cloud : Cloud W}.

(** Fuel beyond [Z.to_nat currentSize] changes nothing. *)
Lemma delete_drain_fuel op p z n (fuel1 : nat) :
  forall (fuel2 : nat) err cs (st : St W),
    (Z.to_nat cs <= fuel1)%nat -> (Z.to_nat cs <= fuel2)%nat ->
    delete_drain fuel1 op p z n err cs st = delete_drain fuel2 op p z n err cs st.
Proof.
  induction fuel1 as [|fuel1 IH]; intros fuel2 err cs st H1 H2.
  - destruct err as [e|]; [|destruct fuel2; reflexivity].
    destruct fuel2; simpl; destruct (Z.ltb_spec 0 cs); try reflexivity; lia.
  - destruct fuel2 as [|fuel2].
    + destruct err as [e|]; [|reflexivity].
      simpl; destruct (Z.ltb_spec 0 cs); try reflexivity; lia.
    + destruct err as [e|]; [|reflexivity]. simpl.
      destruct (Z.ltb_spec 0 cs); [|reflexivity].
      destruct (negb (Strings.Contains e "timeout")); [reflexivity|].
      rewrite !run_call.
      destruct (InstanceGroups_Get p z n (world st)) as [[ig|e'] w1]; [|reflexivity].
      cbn [fst snd]. destruct (Z.leb_spec cs (InstanceGroup.Size ig)); [reflexivity|].
      rewrite !run_call. apply IH; lia.
Qed.

Lemma delete_drain_total op p z n (fuel : nat) :
  forall err cs (st : St W),
    (Z.to_nat cs <= fuel)%nat ->
    (delete_drain fuel op p z n err cs st).1 <> OutOfFuel.
Proof.
  induction fuel as [|fuel IH]; intros err cs st Hfuel.
  - destruct err as [e|]; [|discriminate].
    simpl; destruct (Z.ltb_spec 0 cs); [lia | discriminate].
  - destruct err as [e|]; [|discriminate]. simpl.
    destruct (Z.ltb_spec 0 cs); [|discriminate].
    destruct (negb (Strings.Contains e "timeout")); [discriminate|].
    rewrite run_call.
    destruct (InstanceGroups_Get p z n (world st)) as [[ig|e'] w1]; [|discriminate].
    cbn [fst snd]. destruct (Z.leb_spec cs (InstanceGroup.Size ig)); [discriminate|].
    rewrite run_call. apply IH. lia.
Qed.

Lemma drain_not_timeout op p z n e cs (st : St W) :
  0 < cs -> Strings.Contains e "timeout" = false ->
  delete_drain (Z.to_nat cs) op p z n (Some e) cs st = (Err e, st).
Proof.
  intros Hcs He. destruct (Z.to_nat cs) as [|fuel] eqn:Ef; [lia|]. simpl.
  destruct (Z.ltb_spec 0 cs); [|lia]. rewrite He. reflexivity.
Qed.

Lemma drain_not_shrinking op p z n e cs (st : St W) ig w1 :
  0 < cs -> Strings.Contains e "timeout" = true ->
  InstanceGroups_Get p z n (world st) = (Done ig, w1) ->
  cs <= InstanceGroup.Size ig ->
  delete_drain (Z.to_nat cs) op p z n (Some e) cs st
  = (Err not_shrinking, mkSt w1 (data st) (calls st ++ [CGroupsGet p z n])).
Proof.
  intros Hcs He Hget Hsize. destruct (Z.to_nat cs) as [|fuel] eqn:Ef; [lia|]. simpl.
  destruct (Z.ltb_spec 0 cs); [|lia]. rewrite He. cbn [negb].
  rewrite run_call, Hget. cbn [fst snd].
  destruct (Z.leb_spec cs (InstanceGroup.Size ig)); [reflexivity | lia].
Qed.

(** A turn in which the group shrank: the operation is polled again
    and the loop goes on with the error it started with, whatever the
    new poll returned. *)
Lemma drain_progress op p z n e cs (st : St W) ig w1 err' w2 :
  0 < cs -> Strings.Contains e "timeout" = true ->
  InstanceGroups_Get p z n (world st) = (Done ig, w1) ->
  InstanceGroup.Size ig < cs ->
  computeSharedOperationWait op p deleting w1 = (err', w2) ->
  delete_drain (Z.to_nat cs) op p z n (Some e) cs st
  = delete_drain (Z.to_nat (InstanceGroup.Size ig)) op p z n (Some e)
      (InstanceGroup.Size ig)
      (mkSt w2 (data st)
         (calls st ++ [CGroupsGet p z n; COperationWait op p deleting])).
Proof.
  intros Hcs He Hget Hsize Hwait.
  destruct (Z.to_nat cs) as [|fuel] eqn:Ef; [lia|]. simpl.
  destruct (Z.ltb_spec 0 cs); [|lia]. rewrite He. cbn [negb].
  rewrite run_call, Hget. cbn [fst snd].
  destruct (Z.leb_spec cs (InstanceGroup.Size ig)); [lia|].
  rewrite run_call. cbn [world data calls]. unfold deleting in Hwait.
  rewrite Hwait. cbn [fst snd]. rewrite <- app_assoc.
  apply delete_drain_fuel; lia.
Qed.

(** A delete whose first request is accepted: the baseline is
    [target_size], the operation is polled once, and the loop
    follows. *)
Lemma delete_accepted (st : St W) zonalID p z op w1 cs err w2 :
  parseInstanceGroupManagerId ProjectRegex (rd_Id (data st)) = Ok zonalID ->
  resolved (Project zonalID) (getProject (data st) (world st)) = Done p ->
  resolved (Zone zonalID) (getZone (data st) (world st)) = Done z ->
  InstanceGroupManagers_Delete p z (Name zonalID) (world st) = (Done op, w1) ->
  asInt (Get (data st) "target_size") = Ok cs ->
  computeSharedOperationWait op p deleting w1 = (err, w2) ->
  resourceComputeInstanceGroupManagerDelete st
  = (_ ← delete_drain (Z.to_nat cs) op p z (Name zonalID) err cs; d_SetId "")
      (mkSt w2 (data st)
         (calls st ++ [CDelete p z (Name zonalID); COperationWait op p deleting])).
Proof.
  intros Hparse Hp Hz Hdel Hcs Hwait.
  rewrite (delete_from_request st zonalID p z 0 Hparse Hp Hz);
    [|lia | intros i Hi; lia | right; simpl; rewrite Hdel; reflexivity].
  change (nth_delete p z (Name zonalID) 0 (world st))
    with (InstanceGroupManagers_Delete p z (Name zonalID) (world st)).
  rewrite Hdel. cbn [fst snd retry_calls].
  rewrite Hcs, run_lift_ok, run_call. cbn [world data calls].
  unfold deleting in Hwait. rewrite Hwait. cbn [fst snd].
  rewrite <- app_assoc. reflexivity.
Qed.

End DeleteDrain.

Section DeleteDrainRemarks.
Context {helpers : Helpers} {W : Type} {cloud : Cloud W}.

(** With a baseline of zero or less the loop is not entered: the
    outcome of the poll, an error of any kind included, is dropped. *)
Remark drain_baseline_not_positive op p z n fuel err cs (st : St W) :
  cs <= 0 -> delete_drain fuel op p z n err cs st = (Ok tt, st).
Proof.
  intros Hcs. destruct err as [e|]; [|destruct fuel; reflexivity].
  destruct fuel; simpl; destruct (Z.ltb_spec 0 cs); try reflexivity; lia.
Qed.

(** The first poll decides: when it succeeds, delete clears the id and
    returns nil. *)
Remark delete_first_poll_succeeds (st : St W) zonalID p z op w1 cs w2 :
  parseInstanceGroupManagerId ProjectRegex (rd_Id (data st)) = Ok zonalID ->
  resolved (Project zonalID) (getProject (data st) (world st)) = Done p ->
  resolved (Zone zonalID) (getZone (data st) (world st)) = Done z ->
  InstanceGroupManagers_Delete p z (Name zonalID) (world st) = (Done op, w1) ->
  asInt (Get (data st) "target_size") = Ok cs ->
  computeSharedOperationWait op p deleting w1 = (None, w2) ->
  resourceComputeInstanceGroupManagerDelete st
  = (Ok tt, mkSt w2 (SetId (data st) "")
              (calls st ++ [CDelete p z (Name zonalID); COperationWait op p deleting])).
Proof.
  intros Hparse Hp Hz Hdel Hcs Hwait.
  rewrite (delete_accepted st zonalID p z op w1 cs None w2) by assumption.
  destruct (Z.to_nat cs); reflexivity.
Qed.

End DeleteDrainRemarks.

(** C8. The loop that waits while the group shrinks keeps testing the
    outcome of the first poll.  With a group of ten whose first poll
    times out and which then has six instances: when the second poll
    fails with an error that has no "timeout" in it, the error is not
    returned; delete reads the size again and, the group shrinking to
    three and to zero, returns nil and clears the id.  When the second
    poll succeeds, delete does not stop either: it reads the size
    again, and with the group gone it returns the error of that
    read. *)
Theorem C8_later_polls_ignored :
  (let out := resourceComputeInstanceGroupManagerDelete
                (helpers := Scripted.helpers) (cloud := Scripted.cloud)
                (Scripted.start Scripted.second_poll_fails Scripted.group_of_ten) in
   out.1 = Ok tt /\ rd_Id (data out.2) = ""%string
   /\ calls out.2 =
        [ CDelete "my-project" "us-central1-a" "igm-1";
          COperationWait "operation-1" "my-project" deleting;
          CGroupsGet "my-project" "us-central1-a" "igm-1";
          COperationWait "operation-1" "my-project" deleting;
          CGroupsGet "my-project" "us-central1-a" "igm-1";
          COperationWait "operation-1" "my-project" deleting;
          CGroupsGet "my-project" "us-central1-a" "igm-1";
          COperationWait "operation-1" "my-project" deleting ]%string)
  /\ (let out := resourceComputeInstanceGroupManagerDelete
                   (helpers := Scripted.helpers) (cloud := Scripted.cloud)
                   (Scripted.start Scripted.second_poll_succeeds Scripted.group_of_ten) in
      out.1 = Err ("Error getting instance group size: " +:+ Scripted.not_found)
      /\ rd_Id (data out.2) = "my-project/us-central1-a/igm-1"%string
      /\ calls out.2 =
           [ CDelete "my-project" "us-central1-a" "igm-1";
             COperationWait "operation-1" "my-project" deleting;
             CGroupsGet "my-project" "us-central1-a" "igm-1";
             COperationWait "operation-1" "my-project" deleting;
             CGroupsGet "my-project" "us-central1-a" "igm-1" ]%string).
Proof. split; vm_compute; repeat split; reflexivity. Qed.

(** The two scenarios of the specification: a group that shrinks 10, 6,
    3, 0 over three polls that time out is deleted; a group still at 10
    after the first timeout is not. *)
Example delete_shrinking_group :
  let out := resourceComputeInstanceGroupManagerDelete
               (helpers := Scripted.helpers) (cloud := Scripted.cloud)
               (Scripted.start Scripted.shrinking Scripted.group_of_ten) in
  out.1 = Ok tt /\ rd_Id (data out.2) = ""%string /\ world out.2 = [].
Proof. vm_compute. repeat split; reflexivity. Qed.

Example delete_stuck_group :
  let out := resourceComputeInstanceGroupManagerDelete
               (helpers := Scripted.helpers) (cloud := Scripted.cloud)
               (Scripted.start Scripted.stuck Scripted.group_of_ten) in
  out.1 = Err not_shrinking
  /\ rd_Id (data out.2) = "my-project/us-central1-a/igm-1"%string.
Proof. vm_compute. repeat split; reflexivity. Qed.

(** ** Delete returns: the fuel of the loop is enough *)
Section DeleteTotal.
Context {helpers : Helpers} {W : Type} {cloud : Cloud W}.

Lemma in_fuel_bind {A B} (m : M W A) (f : A -> M W B) :
  in_fuel m -> (forall a, in_fuel (f a)) -> in_fuel (m ≫= f).
Proof.
  intros Hm Hf st. unfold mbind, M_bind. specialize (Hm st).
  destruct (m st) as [[a|e| |] st']; simpl in *; try discriminate; auto.
  apply Hf.
Qed.

Lemma in_fuel_call {A} c (f : W -> A * W) : in_fuel (call c f).
Proof. intros st. unfold call. destruct (f (world st)). discriminate. Qed.

Lemma in_fuel_try {A} (f : W -> reply A) : in_fuel (try f).
Proof. intros st. unfold try. destruct (f (world st)); discriminate. Qed.

Lemma parse_in_fuel P id : parseInstanceGroupManagerId P id <> OutOfFuel.
Proof.
  unfold parseInstanceGroupManagerId, index.
  destruct (MatchString (instanceGroupManagerIdRegex P) id).
  - destruct (Strings.Split id "/" !! 0%nat); [|discriminate].
    destruct (Strings.Split id "/" !! 1%nat); [|discriminate].
    destruct (Strings.Split id "/" !! 2%nat); discriminate.
  - destruct (MatchString instanceGroupManagerIdNameRegex id); discriminate.
Qed.

Lemma delete_retry_in_fuel p z n (remaining : nat) :
  forall r, in_fuel (delete_retry remaining p z n r).
Proof.
  induction remaining as [|remaining IH]; intros [op|e]; simpl; try (intros st; discriminate).
  apply in_fuel_bind; [apply in_fuel_call | intros _].
  apply in_fuel_bind; [apply in_fuel_call | intros r]. apply IH.
Qed.

Theorem delete_in_fuel : in_fuel resourceComputeInstanceGroupManagerDelete.
Proof.
  unfold resourceComputeInstanceGroupManagerDelete.
  apply in_fuel_bind; [intros st; discriminate | intros d]. unfold delete_from.
  apply in_fuel_bind; [intros st; apply parse_in_fuel | intros zonalID].
  apply in_fuel_bind;
    [destruct (decide (Project zonalID = ""%string));
     [apply in_fuel_try | intros st; discriminate] | intros p].
  apply in_fuel_bind;
    [destruct (decide (Zone zonalID = ""%string));
     [apply in_fuel_try | intros st; discriminate] | intros z].
  cbv zeta.
  apply in_fuel_bind; [apply in_fuel_call | intros r].
  apply in_fuel_bind; [apply delete_retry_in_fuel | intros [op|e]];
    [|intros st; discriminate].
  apply in_fuel_bind; [|intros cs].
  { intros st. unfold lift. simpl.
    destruct (Get d "target_size") as [[]|]; discriminate. }
  apply in_fuel_bind; [apply in_fuel_call | intros err].
  apply in_fuel_bind; [|intros _ st; discriminate].
  intros st. apply delete_drain_total. lia.
Qed.

End DeleteTotal.

(** ** The theorems at concrete resources *)

Lemma C5_cleared_target_pools_not_sent_witness :
  let st := Scripted.start Scripted.accepting pools_cleared in
  let body := IGM.with_TargetPools []
                (IGM.with_Fingerprint "abc123" InstanceGroupManager.zero) in
  updatedManager_of (helpers := Scripted.helpers) (data st) = Ok (body, true)
  /\ HasChange (data st) "target_pools" = true
  /\ (exists rest,
        calls (resourceComputeInstanceGroupManagerUpdate
                 (helpers := Scripted.helpers) (cloud := Scripted.cloud) st).2
        = calls st ++ CPatch "my-project" "us-central1-a" "igm-1" body :: rest
        /\ Forall (fun c => is_patch c = false) rest)
  /\ in_body body "TargetPools" = false.
Proof.
  intros st body.
  assert (Hreq : updatedManager_of (helpers := Scripted.helpers) (data st) = Ok (body, true))
    by (vm_compute; reflexivity).
  assert (Hchanged : HasChange (data st) "target_pools" = true)
    by (vm_compute; reflexivity).
  split; [exact Hreq|]. split; [exact Hchanged|].
  destruct (C5_cleared_target_pools_not_sent
              (helpers := Scripted.helpers) (cloud := Scripted.cloud) st
              "my-project"%string "us-central1-a"%string "igm-1"%string body []
              eq_refl eq_refl Hreq eq_refl Hchanged
              ltac:(vm_compute; reflexivity) eq_refl)
    as (Hcall & _ & _ & Hsent).
  split; [exact Hcall | exact Hsent].
Defined.

Lemma C6_named_port_or_target_size_alone_witness :
  (let st := Scripted.start Scripted.accepting Scripted.ports_changed in
   only_changed (data st) "named_port"
   /\ exists rest,
        calls (resourceComputeInstanceGroupManagerUpdate
                 (helpers := Scripted.helpers) (cloud := Scripted.cloud) st).2
        = CSetNamedPorts "my-project" "us-central1-a" "igm-1"
            [ {| NamedPort.Name := "http"; NamedPort.Port := 80 |} ] :: rest
        /\ Forall (fun c => is_patch c = false /\ is_resize c = false) rest)
  /\ (let st := Scripted.start Scripted.accepting Scripted.size_changed in
      only_changed (data st) "target_size"
      /\ exists rest,
           calls (resourceComputeInstanceGroupManagerUpdate
                    (helpers := Scripted.helpers) (cloud := Scripted.cloud) st).2
           = CResize "my-project" "us-central1-a" "igm-1" 3 :: rest
           /\ Forall (fun c => is_patch c = false /\ is_set_named_ports c = false) rest).
Proof.
  split; intros st.
  - assert (Honly : only_changed (data st) "named_port")
      by (repeat constructor; vm_compute; reflexivity).
    split; [exact Honly|].
    destruct (C6_named_port_or_target_size_alone
                (helpers := Scripted.helpers) (cloud := Scripted.cloud) st)
      as (new & E & Hports & _).
    destruct (Hports Honly) as [Hall Hfirst].
    destruct (Hfirst "my-project"%string "us-central1-a"%string "abc123"%string
                [VMap {[ "name" := VString "http"; "port" := VInt 80 ]}]%string
                [ {| NamedPort.Name := "http"; NamedPort.Port := 80 |} ]
                "igm-1"%string eq_refl eq_refl eq_refl eq_refl eq_refl eq_refl)
      as (rest & Hnew).
    exists rest. rewrite Hnew in E, Hall. split; [exact E|].
    apply Forall_cons in Hall as [_ Hall]. exact Hall.
  - assert (Honly : only_changed (data st) "target_size")
      by (repeat constructor; vm_compute; reflexivity).
    split; [exact Honly|].
    destruct (C6_named_port_or_target_size_alone
                (helpers := Scripted.helpers) (cloud := Scripted.cloud) st)
      as (new & E & _ & Hsize).
    destruct (Hsize Honly) as [Hall Hfirst].
    destruct (Hfirst "my-project"%string "us-central1-a"%string "abc123"%string
                3 "igm-1"%string eq_refl eq_refl eq_refl eq_refl eq_refl)
      as (rest & Hnew).
    exists rest. rewrite Hnew in E, Hall. split; [exact E|].
    apply Forall_cons in Hall as [_ Hall]. exact Hall.
Defined.

Lemma C7_delete_retries_witness :
  (let st := Scripted.start [] Scripted.group_of_ten in
   let out := resourceComputeInstanceGroupManagerDelete
                (helpers := Scripted.helpers) (cloud := Scripted.cloud) st in
   out.1 = Err ("Error deleting instance group manager: " +:+ Scripted.exhausted)
   /\ calls out.2
      = CDelete "my-project" "us-central1-a" "igm-1"
          :: retry_calls "my-project" "us-central1-a" "igm-1" 20)
  /\ (let st := Scripted.start Scripted.flaky Scripted.group_of_ten in
      let out := resourceComputeInstanceGroupManagerDelete
                   (helpers := Scripted.helpers) (cloud := Scripted.cloud) st in
      exists rest,
        calls out.2
        = CDelete "my-project" "us-central1-a" "igm-1"
            :: retry_calls "my-project" "us-central1-a" "igm-1" 2
            ++ COperationWait "operation-1" "my-project" deleting :: rest
        /\ Forall (fun c => is_delete_or_sleep c = false) rest).
Proof.
  split; intros st out.
  - destruct (C7_delete_retries (helpers := Scripted.helpers) (cloud := Scripted.cloud) st
                {| Project := "my-project"; Zone := "us-central1-a"; Name := "igm-1" |}
                "my-project"%string "us-central1-a"%string eq_refl eq_refl eq_refl)
      as [Hfail _].
    destruct Hfail as (e & He & Hout & Hcalls & _).
    { intros i Hi. do 21 (destruct i as [|i]; [vm_compute; reflexivity|]). lia. }
    injection He as <-. split; [exact Hout | exact Hcalls].
  - destruct (C7_delete_retries (helpers := Scripted.helpers) (cloud := Scripted.cloud) st
                {| Project := "my-project"; Zone := "us-central1-a"; Name := "igm-1" |}
                "my-project"%string "us-central1-a"%string eq_refl eq_refl eq_refl)
      as [_ Hdone].
    destruct (Hdone 2%nat "operation-1"%string) as (rest & Hcalls & Hrest & Hwait).
    { lia. }
    { intros i Hi. do 2 (destruct i as [|i]; [vm_compute; reflexivity|]). lia. }
    { vm_compute. reflexivity. }
    destruct (Hwait 10 eq_refl) as (rest' & ->).
    exists rest'. split; [exact Hcalls|].
    apply Forall_cons in Hrest as [_ Hrest]. exact Hrest.
Defined.

Lemma C9_exclusive_where_flattened_witness :
  let both := {| FixedOrPercent.Fixed := 3; FixedOrPercent.Percent := 50;
                 FixedOrPercent.ForceSendFields := [];
                 FixedOrPercent.NullFields := [] |} in
  (0 < FixedOrPercent.Percent both
   /\ flattenFixedOrPercent (Some both) = Ok [ {[ "percent" := VInt 50 ]} ]
   /\ Forall (fun m => presents_both "fixed" "percent" m = false)
        [ ({[ "percent" := VInt 50 ]} : gmap string value) ])
  /\ (UpdatePolicy.MaxSurge surge_both = Some both
      /\ exists m, flattenUpdatePolicy (Some surge_both) = [m]
           /\ m !! "max_surge_fixed" = Some (VInt 3)
           /\ m !! "max_surge_percent" = Some (VInt 50)).
Proof.
  intros both.
  destruct (C9_exclusive_where_flattened (H := Scripted.helpers))
    as (Hnever & Hpercent & _ & Hsurge & _).
  assert (Hpos : 0 < FixedOrPercent.Percent both) by (simpl; lia).
  split.
  - split; [exact Hpos|]. split; [exact (Hpercent both Hpos)|].
    exact (Hnever both _ (Hpercent both Hpos)).
  - split; [reflexivity|]. exact (Hsurge surge_both both eq_refl).
Defined.

Lemma C10_import_turns_wait_off_witness :
  let st := Scripted.start Scripted.accepting Scripted.to_import in
  let out := resourceInstanceGroupManagerStateImporter
               (helpers := Scripted.helpers) st in
  Get (data st) "wait_for_instances" = Some (VBool true)
  /\ out.1 = Ok [data out.2]
  /\ Get (data out.2) "wait_for_instances" = Some (VBool false)
  /\ exists zonalID,
       parseInstanceGroupManagerId (ProjectRegex (Helpers := Scripted.helpers))
         (rd_Id (data st)) = Ok zonalID
       /\ [data out.2] = [data out.2]
       /\ data out.2 =
            Set_ (Set_ (Set_ (Set_ (data st) "wait_for_instances" (VBool false))
                             "project" (VString (Project zonalID)))
                       "zone" (VString (Zone zonalID)))
                 "name" (VString (Name zonalID)).
Proof.
  intros st out.
  assert (Hok : out.1 = Ok [data out.2]) by (vm_compute; reflexivity).
  destruct (C10_import_turns_wait_off (helpers := Scripted.helpers)
              (cloud := Scripted.cloud) st) as (Hflag & _ & Hseed & _).
  split; [vm_compute; reflexivity|]. split; [exact Hok|]. split; [exact Hflag|].
  exact (Hseed [data out.2] Hok).
Defined.

(* ================================================================== *)
(** * Part III: further properties of the transcoders and of the
      lifecycle operations *)
(* ================================================================== *)

(** ** Named ports and auto-healing policies *)
Section ListTranscoders.

Lemma range_not_err {A S} (body : S -> A -> res S) :
  (forall s x e, body s x <> Err e) ->
  forall xs s e, range xs body s <> Err e.
Proof.
  intros Hbody. induction xs as [|x xs IH]; intros s e; simpl; [discriminate|].
  specialize (Hbody s x). destruct (body s x) as [s'|e'| |]; cbn [mbind res_bind];
    try discriminate; [apply IH | exfalso; exact (Hbody e' eq_refl)].
Qed.







End ListTranscoders.

(** ** Versions *)
Section VersionTranscoders.
Context `{Helpers}.

Lemma flattenVersions_acc (versions : list Version.t) :
  forall acc,
    Forall (fun v => Version.TargetSize v <> None) versions ->
    exists out,
      range versions (fun result version =>
        let versionMap : gmap string value := ∅ in
        let versionMap := <["name" := VString (Version.Name version)]> versionMap in
        let versionMap :=
          <["instance_template" :=
              VString (ConvertSelfLinkToV1 (Version.InstanceTemplate version))]> versionMap in
        ts ← flattenFixedOrPercent (Version.TargetSize version);
        let versionMap := <["target_size" := VList (VMap <$> ts)]> versionMap in
        Ok (result ++ [versionMap])) acc = Ok (acc ++ out)
      /\ Forall2 version_entry versions out.
Proof.
  induction versions as [|v versions IH]; intros acc Hall.
  - exists []. split; [simpl; rewrite app_nil_r; reflexivity | constructor].
  - apply Forall_cons in Hall as [Hv Hall]. cbn [range].
    destruct (Version.TargetSize v) as [fop|] eqn:Ets; [|congruence].
    pose proof (flatten_cases fop) as Ef.
    destruct (flattenFixedOrPercent (Some fop)) as [ts| | |] eqn:Ets'; try discriminate.
    cbn [mbind res_bind].
    destruct (IH (acc ++ [<["target_size" := VList (VMap <$> ts)]>
                            (<["instance_template" :=
                                 VString (ConvertSelfLinkToV1 (Version.InstanceTemplate v))]>
                               (<["name" := VString (Version.Name v)]>
                                  (∅ : gmap string value)))]) Hall)
      as (out & E & Hout).
    eexists (_ :: out). split; [rewrite <- app_assoc in E; exact E|].
    constructor; [|exact Hout].
    unfold version_entry. rewrite Ets.
    split; [by simplify_map_eq|]. split; [by simplify_map_eq|].
    exists ts. split; [exact Ets' | by simplify_map_eq].
Qed.

Lemma flattenVersions_nil_target (versions : list Version.t) :
  forall acc,
    Exists (fun v => Version.TargetSize v = None) versions ->
    range versions (fun result version =>
      let versionMap : gmap string value := ∅ in
      let versionMap := <["name" := VString (Version.Name version)]> versionMap in
      let versionMap :=
        <["instance_template" :=
            VString (ConvertSelfLinkToV1 (Version.InstanceTemplate version))]> versionMap in
      ts ← flattenFixedOrPercent (Version.TargetSize version);
      let versionMap := <["target_size" := VList (VMap <$> ts)]> versionMap in
      Ok (result ++ [versionMap])) acc = Panic.
Proof.
  induction versions as [|v versions IH]; intros acc Hex.
  - inversion Hex.
  - cbn [range]. destruct (Version.TargetSize v) as [fop|] eqn:Ets.
    + pose proof (flatten_cases fop) as Ef.
      destruct (flattenFixedOrPercent (Some fop)) as [ts| | |]; try discriminate.
      cbn [mbind res_bind]. apply IH.
      apply Exists_cons in Hex as [Hv|Hex]; [congruence | exact Hex].
    + reflexivity.
Qed.

(** X4. [flattenVersions] panics on a version whose [TargetSize] is
    nil: nothing guards the dereference in [flattenFixedOrPercent].
    When every version has a target size it returns one map per
    version, in order, holding the name, the template as a v1 self link
    and the flattened target size. *)
Theorem flattenVersions_nil_or_entries (versions : list Version.t) :
  (Exists (fun v => Version.TargetSize v = None) versions ->
   flattenVersions versions = Panic)
  /\ (Forall (fun v => Version.TargetSize v <> None) versions ->
      exists out, flattenVersions versions = Ok out
                  /\ Forall2 version_entry versions out).
Proof.
  split.
  - apply flattenVersions_nil_target.
  - intros Hall. destruct (flattenVersions_acc versions [] Hall) as (out & E & Hout).
    exists out. split; [exact E | exact Hout].
Qed.

Lemma expandFixedOrPercent_not_err configured e :
  expandFixedOrPercent configured <> Err e.
Proof.
  unfold expandFixedOrPercent. apply range_not_err.
  intros s v e'. destruct v as [| | | | |m]; try discriminate. simpl.
  destruct (m !! "percent") as [[|p| | | |]|]; try discriminate. simpl.
  destruct (0 <? p); [discriminate|].
  destruct (m !! "fixed") as [[|f| | | |]|]; discriminate.
Qed.

Lemma expandVersions_acc (configured : list value) :
  forall acc versions,
    range configured (fun versions raw =>
      data ← asMap (Some raw);
      name ← asString (data !! "name");
      template ← asString (data !! "instance_template");
      ts ← asList (data !! "target_size");
      targetSize ← expandFixedOrPercent ts;
      Ok (versions ++
            [ {| Version.Name := name; Version.InstanceTemplate := template;
                 Version.TargetSize := Some targetSize |} ])) acc = Ok versions ->
    exists new, versions = acc ++ new
      /\ length new = length configured
      /\ Forall (fun v => Version.TargetSize v <> None) new.
Proof.
  induction configured as [|raw configured IH]; intros acc versions; cbn [range].
  - intros [= <-]. exists []. split; [symmetry; apply app_nil_r|]. split; constructor.
  - destruct raw as [| | | | |m]; try discriminate. cbn [asMap mbind res_bind].
    destruct (asString (m !! "name")) as [name| | |]; try discriminate.
    cbn [mbind res_bind].
    destruct (asString (m !! "instance_template")) as [template| | |]; try discriminate.
    cbn [mbind res_bind].
    destruct (asList (m !! "target_size")) as [ts| | |]; try discriminate.
    cbn [mbind res_bind].
    destruct (expandFixedOrPercent ts) as [fop| | |]; try discriminate.
    cbn [mbind res_bind].
    intros Hrest. apply IH in Hrest as (new & -> & Hlen & Hall).
    eexists (_ :: new). split; [rewrite <- app_assoc; reflexivity|].
    split; [simpl; rewrite Hlen; reflexivity|].
    constructor; [discriminate | exact Hall].
Qed.

(** X5. Every version that [expandVersions] builds has a target size,
    an empty one when the configuration has no [target_size] block, so
    what the adapter sends can always be flattened: [flattenVersions]
    returns one map per configured version. *)
Theorem expandVersions_then_flatten (configured : list value) (versions : list Version.t) :
  expandVersions configured = Ok versions ->
  Forall (fun v => Version.TargetSize v <> None) versions
  /\ exists out, flattenVersions versions = Ok out
                 /\ length out = length configured.
Proof.
  intros Hexp. apply expandVersions_acc in Hexp as (new & -> & Hlen & Hall).
  rewrite app_nil_l. split; [exact Hall|].
  destruct (flattenVersions_acc new [] Hall) as (out & E & Hout).
  exists out. split; [exact E|].
  rewrite <- Hlen. symmetry. eapply Forall2_length. exact Hout.
Qed.

End VersionTranscoders.

(** ** Fixed-or-percent and the update policy, both ways *)
Section PolicyTranscoders.

(** X6. A server value survives a read followed by a write in its
    dominant field only: the percent when positive, else the fixed
    value when positive, now listed in [ForceSendFields]; the other
    field is sent as zero, and a value with neither is sent empty. *)
Theorem fixed_or_percent_flatten_expand (v : FixedOrPercent.t) :
  (ts ← flattenFixedOrPercent (Some v); expandFixedOrPercent (reread ts))
  = Ok (if 0 <? FixedOrPercent.Percent v then
          {| FixedOrPercent.Fixed := 0;
             FixedOrPercent.Percent := FixedOrPercent.Percent v;
             FixedOrPercent.ForceSendFields := [];
             FixedOrPercent.NullFields := [] |}
        else if 0 <? FixedOrPercent.Fixed v then
          {| FixedOrPercent.Fixed := FixedOrPercent.Fixed v;
             FixedOrPercent.Percent := 0;
             FixedOrPercent.ForceSendFields := ["Fixed"%string];
             FixedOrPercent.NullFields := [] |}
        else FixedOrPercent.zero).
Proof.
  rewrite flatten_cases. cbn [mbind res_bind].
  destruct (Z.ltb_spec 0 (FixedOrPercent.Percent v)) as [Hp|Hp].
  - unfold reread, block_as_read, block_of_flat. cbn [fmap list_fmap].
    rewrite lookup_singleton_eq, lookup_singleton_ne by discriminate.
    cbn [set_fixed set_percent default].
    erewrite expand_one_percent; [reflexivity | by simplify_map_eq | exact Hp].
  - destruct (Z.ltb_spec 0 (FixedOrPercent.Fixed v)) as [Hf|Hf]; [|reflexivity].
    unfold reread, block_as_read, block_of_flat. cbn [fmap list_fmap].
    rewrite lookup_singleton_eq, lookup_singleton_ne by discriminate.
    cbn [set_fixed set_percent default].
    erewrite (expand_one_fixed _ 0); [reflexivity | by simplify_map_eq | lia
                                      | by simplify_map_eq].
Qed.

Lemma expandPolicySide_exclusive data percent_key fixed_key fop :
  expandPolicySide data percent_key fixed_key = Ok fop -> sent_exclusive fop.
Proof.
  unfold expandPolicySide.
  destruct (asInt (data !! percent_key)) as [v| | |]; try discriminate.
  cbn [mbind res_bind]. destruct (Z.ltb_spec 0 v) as [Hv|Hv].
  - intros [= <-]. left. repeat split; try reflexivity. exact Hv.
  - destruct (asInt (data !! fixed_key)) as [f| | |]; try discriminate.
    cbn [mbind res_bind]. intros [= <-]. right. repeat split; reflexivity.
Qed.

Lemma expandUpdatePolicy_acc (configured : list value) :
  forall acc up,
    range configured (fun updatePolicy raw =>
      data ← asMap (Some raw);
      minimalAction ← asString (data !! "minimal_action");
      type ← asString (data !! "type");
      maxSurge ← expandPolicySide data "max_surge_percent" "max_surge_fixed";
      maxUnavailable ←
        expandPolicySide data "max_unavailable_percent" "max_unavailable_fixed";
      minReadySec ←
        match data !! "min_ready_sec" with
        | Some v => asInt (Some v)
        | None => Ok (UpdatePolicy.MinReadySec updatePolicy)
        end;
      Ok {| UpdatePolicy.MinimalAction := minimalAction;
            UpdatePolicy.Type_ := type;
            UpdatePolicy.MaxSurge := Some maxSurge;
            UpdatePolicy.MaxUnavailable := Some maxUnavailable;
            UpdatePolicy.MinReadySec := minReadySec |}) acc = Ok up ->
    (configured = [] /\ up = acc)
    \/ (configured <> [] /\ exists ms mu,
          UpdatePolicy.MaxSurge up = Some ms /\ UpdatePolicy.MaxUnavailable up = Some mu
          /\ sent_exclusive ms /\ sent_exclusive mu).
Proof.
  induction configured as [|raw configured IH]; intros acc up; cbn [range].
  - intros [= <-]. left. split; reflexivity.
  - destruct raw as [| | | | |m]; try discriminate. cbn [asMap mbind res_bind].
    destruct (asString (m !! "minimal_action")) as [action| | |]; try discriminate.
    cbn [mbind res_bind].
    destruct (asString (m !! "type")) as [type| | |]; try discriminate.
    cbn [mbind res_bind].
    destruct (expandPolicySide m "max_surge_percent" "max_surge_fixed")
      as [ms| | |] eqn:Ems; try discriminate.
    cbn [mbind res_bind].
    destruct (expandPolicySide m "max_unavailable_percent" "max_unavailable_fixed")
      as [mu| | |] eqn:Emu; try discriminate.
    cbn [mbind res_bind].
    destruct (m !! "min_ready_sec") as [v|];
      [destruct (asInt (Some v)) as [sec| | |]; try discriminate|];
      cbn [mbind res_bind]; intros Hrest; right; (split; [discriminate|]).
    all: apply IH in Hrest as [[_ ->]|[_ Hex]]; [|exact Hex].
    all: exists ms, mu; repeat split; eauto using expandPolicySide_exclusive.
Qed.

(** X7. Whatever is configured, each side of the update policy that
    [expandUpdatePolicy] sends has one meaning only: either a positive
    percent with a zero [Fixed], nulled, or a fixed value, forced so
    that zero is sent, with a zero [Percent], nulled.  An empty
    configuration gives the empty policy with both sides nil. *)
Theorem expandUpdatePolicy_sends_one (configured : list value) (up : UpdatePolicy.t) :
  expandUpdatePolicy configured = Ok up ->
  (configured = [] /\ up = UpdatePolicy.zero)
  \/ (configured <> [] /\ exists ms mu,
        UpdatePolicy.MaxSurge up = Some ms /\ UpdatePolicy.MaxUnavailable up = Some mu
        /\ sent_exclusive ms /\ sent_exclusive mu).
Proof. apply expandUpdatePolicy_acc. Qed.

Lemma sent_exclusive_one fop :
  sent_exclusive fop ->
  negb (FixedOrPercent.Fixed fop =? 0) && negb (FixedOrPercent.Percent fop =? 0) = false.
Proof.
  intros [(_ & -> & _)|(-> & _)]; [reflexivity | apply andb_false_r].
Qed.

(** X8. What the adapter sent reads back with one meaning per side: a
    flattened policy that came out of [expandUpdatePolicy] never shows
    a non-zero fixed value next to a non-zero percent. *)
Theorem update_policy_expand_flatten (configured : list value) (up : UpdatePolicy.t) :
  expandUpdatePolicy configured = Ok up ->
  Forall policy_shows_one (flattenUpdatePolicy (Some up)).
Proof.
  intros Hexp. apply expandUpdatePolicy_acc in Hexp.
  unfold flattenUpdatePolicy. cbv zeta. cbn [app]. constructor; [|constructor].
  unfold policy_shows_one, presents_both, nonzero_at.
  destruct Hexp as [[_ ->]|(_ & ms & mu & -> & -> & Hms & Hmu)].
  - cbn [UpdatePolicy.MaxSurge UpdatePolicy.MaxUnavailable UpdatePolicy.zero].
    split; by simplify_map_eq.
  - apply sent_exclusive_one in Hms, Hmu. split; by simplify_map_eq.
Qed.


End PolicyTranscoders.

(** ** The identifier codec, the other way round *)
Section CodecFacts.

Lemma Split_length s sep : length (Strings.Split s sep) = S (count_byte sep s).
Proof.
  induction s as [|c s IH]; [reflexivity|]. simpl.
  destruct (Ascii.eqb c sep); simpl; [rewrite IH; reflexivity|].
  destruct (Strings.Split s sep) as [|h t] eqn:E; simpl in *; lia.
Qed.

Lemma count_byte_append c (s1 s2 : string) :
  count_byte c (s1 +:+ s2) = (count_byte c s1 + count_byte c s2)%nat.
Proof.
  induction s1 as [|c1 s1 IH]; [reflexivity|].
  rewrite append_cons. simpl. rewrite IH. lia.
Qed.

Lemma count_byte_zero c s : count_byte c s = O -> Strings.has_byte c s = false.
Proof.
  induction s as [|c' s IH]; [reflexivity|]. simpl.
  destruct (Ascii.eqb c' c); simpl; [discriminate | exact IH].
Qed.

Lemma has_byte_false_count c s : Strings.has_byte c s = false -> count_byte c s = O.
Proof.
  induction s as [|c' s IH]; [reflexivity|]. simpl.
  destruct (Ascii.eqb c' c); simpl; [discriminate | exact IH].
Qed.

(** The strings of the three-part pattern, taken apart. *)
Lemma id_pattern_inv P s :
  matches (instanceGroupManagerIdRegex P) s ->
  exists p z n, s = (p +:+ "/" +:+ z +:+ "/" +:+ n)%string
    /\ matches P p /\ matches (Plus name_class) z /\ matches (Plus name_class) n.
Proof.
  intros H. apply matches_cat_inv in H as (p & s2 & -> & Hp & H).
  apply matches_cat_inv in H as (s3 & s4 & -> & Hs & H).
  apply matches_cat_inv in H as (z & s5 & -> & Hz & H).
  apply matches_cat_inv in H as (s6 & n & -> & Hs' & Hn).
  inversion Hs; subst. inversion Hs'; subst.
  exists p, z, n. repeat split; assumption.
Qed.

(** X10. [parseInstanceGroupManagerId] never panics, whatever the
    project pattern and the string: a string that matches the
    three-part pattern has at least two slashes, so [parts[0]],
    [parts[1]] and [parts[2]] exist.  It returns a triple or the
    invalid-specifier error. *)
Theorem parse_never_panics (P : regex) (id : string) :
  (exists zonalID, parseInstanceGroupManagerId P id = Ok zonalID)
  \/ parseInstanceGroupManagerId P id = Err invalid_specifier.
Proof.
  unfold parseInstanceGroupManagerId.
  destruct (MatchString (instanceGroupManagerIdRegex P) id) eqn:E3.
  - left. apply MatchString_matches, id_pattern_inv in E3
      as (p & z & n & -> & _ & _ & _).
    pose proof (Split_length (p +:+ "/" +:+ z +:+ "/" +:+ n) "/") as Hlen.
    rewrite !count_byte_append in Hlen. simpl in Hlen.
    destruct (Strings.Split (p +:+ "/" +:+ z +:+ "/" +:+ n) "/")
      as [|p0 [|p1 [|p2 rest]]]; simpl in Hlen; try lia.
    eexists. reflexivity.
  - destruct (MatchString instanceGroupManagerIdNameRegex id);
      [left; eexists; reflexivity | right; reflexivity].
Qed.

(** X11. Decoding then encoding: a string of the three-part pattern
    with exactly two slashes parses to a well-formed triple whose
    encoding is the string. *)
Theorem terraformId_parse (P : regex) (id : string) :
  MatchString (instanceGroupManagerIdRegex P) id = true ->
  count_byte "/" id = 2%nat ->
  exists zonalID,
    parseInstanceGroupManagerId P id = Ok zonalID
    /\ terraformId zonalID = id
    /\ well_formed_id P zonalID = true.
Proof.
  intros E3 Hcount. unfold parseInstanceGroupManagerId. rewrite E3.
  apply MatchString_matches, id_pattern_inv in E3 as (p & z & n & -> & Hp & Hz & Hn).
  pose proof (name_plus_no_slash _ Hz) as Hz'.
  pose proof (name_plus_no_slash _ Hn) as Hn'.
  rewrite !count_byte_append in Hcount. simpl in Hcount.
  assert (Hp' : Strings.has_byte "/" p = false) by (apply count_byte_zero; lia).
  change ("/" +:+ z +:+ "/" +:+ n)%string with (String "/" (z +:+ String "/" n)).
  rewrite (Split_append _ _ _ Hp'), (Split_append _ _ _ Hz'), (Split_no_sep _ _ Hn').
  eexists. split; [reflexivity|]. split; [reflexivity|].
  unfold well_formed_id. cbn [Project Zone Name].
  rewrite Hp', (proj2 (MatchString_matches _ _) Hp),
    (proj2 (MatchString_matches _ _) Hz), (proj2 (MatchString_matches _ _) Hn).
  reflexivity.
Qed.

End CodecFacts.

(** ** Import: which ids are accepted *)
Section ImportMore.
Context {helpers : Helpers} {W : Type} {cloud : Cloud W}.

(** X12. Import needs the full id.  A bare name, which every other
    operation accepts, is refused with the import error, and a string
    of neither pattern with the invalid-specifier error; in both cases
    the only change to [d] is the flag, and nothing is called.  A
    three-part id with two slashes and a non-empty project is accepted,
    and the project, zone and name written to [d] encode back to the
    id. *)
Theorem import_needs_full_id (st : St W) :
  let id := rd_Id (data st) in
  let out := resourceInstanceGroupManagerStateImporter st in
  let flagged := mkSt (world st)
                   (Set_ (data st) "wait_for_instances" (VBool false)) (calls st) in
  (MatchString instanceGroupManagerIdNameRegex id = true ->
   out = (Err invalid_import_id, flagged))
  /\ (MatchString (instanceGroupManagerIdRegex ProjectRegex) id = false ->
      MatchString instanceGroupManagerIdNameRegex id = false ->
      out = (Err invalid_specifier, flagged))
  /\ (MatchString (instanceGroupManagerIdRegex ProjectRegex) id = true ->
      count_byte "/" id = 2%nat ->
      (forall rest, id <> String "/" rest) ->
      exists p z n,
        out.1 = Ok [data out.2]
        /\ Get (data out.2) "project" = Some (VString p)
        /\ Get (data out.2) "zone" = Some (VString z)
        /\ Get (data out.2) "name" = Some (VString n)
        /\ terraformId {| Project := p; Zone := z; Name := n |} = id).
Proof.
  cbv zeta. rewrite importer_run. split; [|split].
  - intros Hn. unfold parseInstanceGroupManagerId.
    rewrite (bare_name_not_three_part ProjectRegex _ Hn), Hn. reflexivity.
  - intros H3 Hn. unfold parseInstanceGroupManagerId. rewrite H3, Hn. reflexivity.
  - intros H3 Hcount Hnonempty.
    pose proof H3 as H3'.
    apply MatchString_matches, id_pattern_inv in H3'
      as (p & z & n & Hid & Hp & Hz & Hn).
    unfold parseInstanceGroupManagerId. rewrite H3, Hid.
    pose proof (name_plus_no_slash _ Hz) as Hz'.
    pose proof (name_plus_no_slash _ Hn) as Hn'.
    rewrite Hid, !count_byte_append in Hcount. simpl in Hcount.
    assert (Hp' : Strings.has_byte "/" p = false) by (apply count_byte_zero; lia).
    change ("/" +:+ z +:+ "/" +:+ n)%string with (String "/" (z +:+ String "/" n)).
    rewrite (Split_append _ _ _ Hp'), (Split_append _ _ _ Hz'), (Split_no_sep _ _ Hn').
    cbn [index lookup list_lookup Project Zone Name].
    assert (Hpne : p <> ""%string).
    { intros ->. apply (Hnonempty (z +:+ String "/" n)). rewrite Hid. reflexivity. }
    assert (Hzne : z <> ""%string).
    { intros ->. apply matches_cat_inv in Hz as (s1 & s2 & E & H1 & _).
      apply name_class_byte in H1 as (c & -> & _). discriminate. }
    rewrite (bool_decide_eq_false_2 _ Hzne), (bool_decide_eq_false_2 _ Hpne).
    cbn [orb fst snd data].
    exists p, z, n. split; [reflexivity|].
    split; [rewrite !Get_Set_ne by discriminate;
            apply (Get_Set_eq _ _ _ TypeString); reflexivity|].
    split; [rewrite !Get_Set_ne by discriminate;
            apply (Get_Set_eq _ _ _ TypeString); reflexivity|].
    split; [apply (Get_Set_eq _ _ _ TypeString); reflexivity | reflexivity].
Qed.

End ImportMore.

(** ** Reads *)
Section ReadMore.
Context {helpers : Helpers} {W : Type} {cloud : Cloud W}.

Lemma run_d_Set {B} k v (K : unit -> M W B) (st : St W) :
  (d_Set k v ≫= K) st = K tt (mkSt (world st) (Set_ (data st) k v) (calls st)).
Proof. reflexivity. Qed.

Lemma run_d_SetId {B} id (K : unit -> M W B) (st : St W) :
  (d_SetId id ≫= K) st = K tt (mkSt (world st) (SetId (data st) id) (calls st)).
Proof. reflexivity. Qed.

Lemma run_resolved_or_empty {B} (x : string) (f : W -> reply string)
    (k : string -> M W B) (st : St W) :
  ((if decide (x = ""%string) then try_or f ""%string else mret x) ≫= k) st
  = k (resolved_or_empty x (f (world st))) st.
Proof.
  unfold resolved_or_empty. destruct (decide (x = ""%string)); [|reflexivity].
  unfold mbind, M_bind, try_or. destruct (f (world st)); reflexivity.
Qed.

(** [getManager] for an id whose zone is known: one get, and its three
    outcomes. *)
Lemma getManager_zonal (st : St W) zonalID p z :
  parseInstanceGroupManagerId ProjectRegex (rd_Id (data st)) = Ok zonalID ->
  resolved (Project zonalID) (getProject (data st) (world st)) = Done p ->
  resolved_or_empty (Zone zonalID) (getZone (data st) (world st)) = z ->
  z <> ""%string ->
  let n := Name zonalID in
  let r := InstanceGroupManagers_Get p z n (world st) in
  let st1 := mkSt r.2 (data st) (calls st ++ [CManagersGet p z n]) in
  getManager st =
    match r.1 with
    | Done m => (Ok (Some m), st1)
    | Failed e =>
        match handleNotFoundError e (manager_label n) with
        | Some e' => (Err e', st1)
        | None => (Ok None, mkSt r.2 (SetId (data st) "") (calls st ++ [CManagersGet p z n]))
        end
    end.
Proof.
  intros Hparse Hp Hz Hzne. cbv zeta. unfold getManager.
  rewrite run_get_d, Hparse, run_lift_ok.
  rewrite (run_resolved _ _ _ _ p Hp), run_resolved_or_empty, Hz. cbv zeta.
  destruct (decide (z = ""%string)) as [->|_]; [congruence|].
  rewrite bind_assoc_run, run_call.
  destruct (InstanceGroupManagers_Get p z (Name zonalID) (world st)) as [[m|e] w1];
    cbn [fst snd]; [reflexivity|].
  unfold manager_label.
  destruct (handleNotFoundError e ("Instance Group Manager " +:+ quoted (Name zonalID)));
    reflexivity.
Qed.

(** X13. A read of a resource the API no longer knows is not an error:
    when the get fails and [handleNotFoundError] takes the failure for
    "gone", the read returns nil and clears the id, writing nothing
    else to [d]; any other failure of the get is returned as
    [handleNotFoundError] words it, and [d] is left as it was.  Either
    way the get is the only call. *)
Theorem read_of_missing_manager (st : St W) zonalID project p z e w1 :
  let d := data st in
  let n := Name zonalID in
  getProject d (world st) = Done project ->
  parseInstanceGroupManagerId ProjectRegex (rd_Id d) = Ok zonalID ->
  resolved (Project zonalID) (getProject d (world st)) = Done p ->
  resolved_or_empty (Zone zonalID) (getZone d (world st)) = z ->
  z <> ""%string ->
  InstanceGroupManagers_Get p z n (world st) = (Failed e, w1) ->
  resourceComputeInstanceGroupManagerRead st
  = match handleNotFoundError e (manager_label n) with
    | None => (Ok tt, mkSt w1 (SetId d "") (calls st ++ [CManagersGet p z n]))
    | Some e' => (Err e', mkSt w1 d (calls st ++ [CManagersGet p z n]))
    end.
Proof.
  cbv zeta. intros Hproject Hparse Hp Hz Hzne Hget.
  unfold resourceComputeInstanceGroupManagerRead.
  rewrite run_get_d, (run_try_done _ _ _ project Hproject).
  pose proof (getManager_zonal st zonalID p z Hparse Hp Hz Hzne) as Hm.
  cbv zeta in Hm. rewrite Hget in Hm. cbn [fst snd] in Hm.
  destruct (handleNotFoundError e (manager_label (Name zonalID))).
  - apply bind_err. exact Hm.
  - rewrite (bind_ok _ _ _ _ _ Hm). reflexivity.
Qed.

(** A read that finds the manager, up to the test of the flag. *)
Lemma read_found_run (st : St W) zonalID project p z m w1 versions :
  getProject (data st) (world st) = Done project ->
  parseInstanceGroupManagerId ProjectRegex (rd_Id (data st)) = Ok zonalID ->
  resolved (Project zonalID) (getProject (data st) (world st)) = Done p ->
  resolved_or_empty (Zone zonalID) (getZone (data st) (world st)) = z ->
  z <> ""%string ->
  InstanceGroupManagers_Get p z (Name zonalID) (world st) = (Done m, w1) ->
  flattenVersions (elems (InstanceGroupManager.Versions m)) = Ok versions ->
  resourceComputeInstanceGroupManagerRead st
  = (d ← get_d;
     wait ← lift (asBool (Get d "wait_for_instances"));
     if (wait : bool) then
       r ← call CWaitForState (WaitForState d);
       _ ← put_d r.2;
       check r.1
     else mret tt)
      (mkSt w1 (read_state (data st) project m versions)
            (calls st ++ [CManagersGet p z (Name zonalID)])).
Proof.
  intros Hproject Hparse Hp Hz Hzne Hget Hversions.
  unfold resourceComputeInstanceGroupManagerRead.
  rewrite run_get_d, (run_try_done _ _ _ project Hproject).
  pose proof (getManager_zonal st zonalID p z Hparse Hp Hz Hzne) as Hm.
  cbv zeta in Hm. rewrite Hget in Hm. cbn [fst snd] in Hm.
  rewrite (bind_ok _ _ _ _ _ Hm).
  repeat (rewrite run_d_Set; cbn [world data calls]).
  rewrite Hversions, run_lift_ok.
  repeat (rewrite run_d_Set; cbn [world data calls]).
  reflexivity.
Qed.

Lemma read_state_flag d project m versions :
  Get (read_state d project m versions) "wait_for_instances"
  = Get d "wait_for_instances".
Proof. unfold read_state. cbv zeta. rewrite !Get_Set_ne by discriminate. reflexivity. Qed.

(** X14. A read that finds the manager, with [wait_for_instances] off,
    makes the get its only call, returns nil, keeps the id, and leaves
    in [d] the server's fingerprint, target size and name, the zone's
    name, the flattened versions and update policy, and as project
    what [getProject] resolves, which need not be the project of the
    id. *)
Theorem read_writes_server_state (st : St W) zonalID project p z m w1 versions :
  let d := data st in
  let out := resourceComputeInstanceGroupManagerRead st in
  getProject d (world st) = Done project ->
  parseInstanceGroupManagerId ProjectRegex (rd_Id d) = Ok zonalID ->
  resolved (Project zonalID) (getProject d (world st)) = Done p ->
  resolved_or_empty (Zone zonalID) (getZone d (world st)) = z ->
  z <> ""%string ->
  InstanceGroupManagers_Get p z (Name zonalID) (world st) = (Done m, w1) ->
  flattenVersions (elems (InstanceGroupManager.Versions m)) = Ok versions ->
  Get d "wait_for_instances" = Some (VBool false) ->
  out.1 = Ok tt
  /\ world out.2 = w1
  /\ calls out.2 = calls st ++ [CManagersGet p z (Name zonalID)]
  /\ rd_Id (data out.2) = rd_Id d
  /\ Get (data out.2) "fingerprint"
     = Some (VString (InstanceGroupManager.Fingerprint m))
  /\ Get (data out.2) "target_size" = Some (VInt (InstanceGroupManager.TargetSize m))
  /\ Get (data out.2) "name" = Some (VString (InstanceGroupManager.Name m))
  /\ Get (data out.2) "zone"
     = Some (VString (GetResourceNameFromSelfLink (InstanceGroupManager.Zone m)))
  /\ Get (data out.2) "project" = Some (VString project)
  /\ Get (data out.2) "version" = Some (VList (VMap <$> versions))
  /\ Get (data out.2) "update_policy"
     = Some (VList (VMap <$> flattenUpdatePolicy (InstanceGroupManager.UpdatePolicy m))).
Proof.
  cbv zeta. intros Hproject Hparse Hp Hz Hzne Hget Hversions Hflag.
  rewrite (read_found_run st zonalID project p z m w1 versions) by assumption.
  rewrite run_get_d. cbn [data]. rewrite read_state_flag, Hflag. cbn [asBool].
  rewrite run_lift_ok. unfold mret, M_ret. cbn [fst snd world data calls].
  unfold read_state. cbv zeta.
  repeat split; try reflexivity;
    rewrite ?Get_Set_ne by discriminate;
    first [ apply (Get_Set_eq _ _ _ TypeString); reflexivity
          | apply (Get_Set_eq _ _ _ TypeInt); reflexivity
          | apply (Get_Set_eq _ _ _ TypeList); reflexivity ].
Qed.

(** X15. With [wait_for_instances] on, the same read goes on to
    [WaitForState]: that is its last call, and the read returns what
    the wait returns. *)
Theorem read_waits_when_asked (st : St W) zonalID project p z m w1 versions err d2 w2 :
  let d := data st in
  let out := resourceComputeInstanceGroupManagerRead st in
  getProject d (world st) = Done project ->
  parseInstanceGroupManagerId ProjectRegex (rd_Id d) = Ok zonalID ->
  resolved (Project zonalID) (getProject d (world st)) = Done p ->
  resolved_or_empty (Zone zonalID) (getZone d (world st)) = z ->
  z <> ""%string ->
  InstanceGroupManagers_Get p z (Name zonalID) (world st) = (Done m, w1) ->
  flattenVersions (elems (InstanceGroupManager.Versions m)) = Ok versions ->
  Get d "wait_for_instances" = Some (VBool true) ->
  WaitForState (read_state d project m versions) w1 = ((err, d2), w2) ->
  out.1 = match err with Some e => Err e | None => Ok tt end
  /\ calls out.2 = calls st ++ [CManagersGet p z (Name zonalID); CWaitForState]
  /\ data out.2 = d2.
Proof.
  cbv zeta. intros Hproject Hparse Hp Hz Hzne Hget Hversions Hflag Hwait.
  rewrite (read_found_run st zonalID project p z m w1 versions) by assumption.
  rewrite run_get_d. cbn [data]. rewrite read_state_flag, Hflag. cbn [asBool].
  rewrite run_lift_ok, run_call. cbn [world data calls]. rewrite Hwait.
  cbn [fst snd]. rewrite <- app_assoc.
  destruct err; repeat split; reflexivity.
Qed.

(** X16. A read never changes anything at the API: whatever the world
    answers, every call it makes is a get of the manager, the search
    through the zones of the region, or the wait for instances. *)
Theorem read_only_reads (st : St W) :
  exists new,
    calls (resourceComputeInstanceGroupManagerRead st).2 = calls st ++ new
    /\ Forall (fun c => read_call c = true) new.
Proof.
  apply (Read_logs (calls st) (fun c => read_call c = true)); [auto|].
  apply extends_with_start.
Qed.

End ReadMore.

(** ** Updates: nothing to do, failure, and the order of the calls *)
Section UpdateMore.
Context {helpers : Helpers} {W : Type} {cloud : Cloud W}.

(** X17. An update in which none of the six fields changed calls
    nothing of its own: it is the read. *)
Theorem update_unchanged_is_read (st : St W) p z fp :
  let d := data st in
  getProject d (world st) = Done p ->
  getZone d (world st) = Done z ->
  asString (Get d "fingerprint") = Ok fp ->
  Forall (fun k => HasChange d k = false) update_keys ->
  resourceComputeInstanceGroupManagerUpdate st
  = resourceComputeInstanceGroupManagerRead st.
Proof.
  cbv zeta. intros Hp Hz Hfp Hnone. unfold update_keys in Hnone.
  repeat (apply Forall_cons in Hnone as [? Hnone]).
  unfold resourceComputeInstanceGroupManagerUpdate. rewrite run_get_d.
  unfold update_from.
  rewrite (run_try_done _ _ _ p Hp), (run_try_done _ _ _ z Hz).
  rewrite (updatedManager_of_unchanged _ fp), run_lift_ok;
    [|unfold patch_field_changed;
      repeat match goal with H : HasChange _ _ = false |- _ => rewrite H; clear H end;
      reflexivity
     | exact Hfp].
  cbn [fst snd]. unfold update_patch. rewrite run_ret.
  unfold update_named_port, update_target_size.
  repeat match goal with H : HasChange _ _ = false |- _ => rewrite H; clear H end.
  rewrite !run_ret. reflexivity.
Qed.

(** X18. A patch that fails ends the update: the error of the request
    is returned behind the prefix of the update, the error of the
    operation as it is, and in both cases named ports and target size
    are not sent although they may have changed, no read follows, and
    [d] is left as it was. *)
Theorem update_stops_at_failed_patch (st : St W) p z n body :
  let d := data st in
  let out := resourceComputeInstanceGroupManagerUpdate st in
  getProject d (world st) = Done p ->
  getZone d (world st) = Done z ->
  updatedManager_of d = Ok (body, true) ->
  asString (Get d "name") = Ok n ->
  (forall e w1,
     InstanceGroupManagers_Patch p z n body (world st) = (Failed e, w1) ->
     out = (Err ("Error updating managed group instances: " +:+ e),
            mkSt w1 d (calls st ++ [CPatch p z n body])))
  /\ (forall op w1 e w2,
        InstanceGroupManagers_Patch p z n body (world st) = (Done op, w1) ->
        computeSharedOperationWait op p updating_patch w1 = (Some e, w2) ->
        out = (Err e,
               mkSt w2 d (calls st ++ [CPatch p z n body;
                                       COperationWait op p updating_patch]))).
Proof.
  cbv zeta. intros Hp Hz Hreq Hn.
  assert (Hrun : resourceComputeInstanceGroupManagerUpdate st
                 = (_ ← update_patch (data st) p z body true;
                    _ ← update_named_port (data st) p z;
                    _ ← update_target_size (data st) p z;
                    resourceComputeInstanceGroupManagerRead) st).
  { unfold resourceComputeInstanceGroupManagerUpdate. rewrite run_get_d.
    unfold update_from.
    rewrite (run_try_done _ _ _ p Hp), (run_try_done _ _ _ z Hz).
    rewrite Hreq, run_lift_ok. reflexivity. }
  rewrite Hrun. unfold update_patch.
  rewrite bind_assoc_run, Hn, run_lift_ok, bind_assoc_run, run_call.
  split.
  - intros e w1 Hpatch. rewrite Hpatch. cbn [fst snd]. reflexivity.
  - intros op w1 e w2 Hpatch Hwait. rewrite Hpatch. cbn [fst snd].
    rewrite bind_assoc_run, run_call. cbn [world data calls].
    unfold updating_patch in Hwait. rewrite Hwait. cbn [fst snd].
    rewrite <- app_assoc. reflexivity.
Qed.

(** X19. When the three kinds of change come together and every call
    succeeds, the update sends the patch, the named ports and the
    resize in that order, waits for the operation of each before the
    next, and ends with the read. *)
Theorem update_order (st : St W) p z n body nps ports size
    op1 w1 w2 op2 w3 w4 op3 w5 w6 :
  let d := data st in
  getProject d (world st) = Done p ->
  getZone d (world st) = Done z ->
  updatedManager_of d = Ok (body, true) ->
  asString (Get d "name") = Ok n ->
  HasChange d "named_port" = true ->
  asSetList (Get d "named_port") = Ok nps ->
  getNamedPortsBeta nps = Ok ports ->
  HasChange d "target_size" = true ->
  asInt (Get d "target_size") = Ok size ->
  InstanceGroupManagers_Patch p z n body (world st) = (Done op1, w1) ->
  computeSharedOperationWait op1 p updating_patch w1 = (None, w2) ->
  InstanceGroups_SetNamedPorts p z n ports w2 = (Done op2, w3) ->
  computeSharedOperationWait op2 p updating w3 = (None, w4) ->
  InstanceGroupManagers_Resize p z n size w4 = (Done op3, w5) ->
  computeSharedOperationWait op3 p updating w5 = (None, w6) ->
  resourceComputeInstanceGroupManagerUpdate st
  = resourceComputeInstanceGroupManagerRead
      (mkSt w6 d
         (calls st ++ [ CPatch p z n body; COperationWait op1 p updating_patch;
                        CSetNamedPorts p z n ports; COperationWait op2 p updating;
                        CResize p z n size; COperationWait op3 p updating ])).
Proof.
  cbv zeta. unfold updating_patch, updating.
  intros Hp Hz Hreq Hn Hcp Hnps Hports Hcs Hsize Hpatch Hw1 Hset Hw2 Hresize Hw3.
  unfold resourceComputeInstanceGroupManagerUpdate. rewrite run_get_d.
  unfold update_from.
  rewrite (run_try_done _ _ _ p Hp), (run_try_done _ _ _ z Hz).
  rewrite Hreq, run_lift_ok. cbn [fst snd]. unfold update_patch.
  rewrite bind_assoc_run, Hn, run_lift_ok, bind_assoc_run, run_call, Hpatch.
  cbn [fst snd]. rewrite bind_assoc_run, run_call. cbn [world data calls].
  rewrite Hw1. cbn [fst snd check]. rewrite run_ret.
  unfold update_named_port. rewrite Hcp.
  rewrite bind_assoc_run, Hnps, run_lift_ok, bind_assoc_run, Hports, run_lift_ok.
  rewrite bind_assoc_run, Hn, run_lift_ok, bind_assoc_run, run_call.
  cbn [world data calls]. rewrite Hset. cbn [fst snd].
  rewrite bind_assoc_run, run_call. cbn [world data calls].
  rewrite Hw2. cbn [fst snd check]. rewrite run_ret.
  unfold update_target_size. rewrite Hcs.
  rewrite bind_assoc_run, Hsize, run_lift_ok.
  rewrite bind_assoc_run, Hn, run_lift_ok, bind_assoc_run, run_call.
  cbn [world data calls]. rewrite Hresize. cbn [fst snd].
  rewrite bind_assoc_run, run_call. cbn [world data calls].
  rewrite Hw3. cbn [fst snd check]. rewrite run_ret.
  rewrite <- !app_assoc. reflexivity.
Qed.

End UpdateMore.

(** ** Reads of an id without a zone *)
Section ReadRegional.
Context {helpers : Helpers} {W : Type} {cloud : Cloud W}.

(** X20. When neither the id nor [getZone] gives a zone, the read
    searches the zones of the region instead of getting the manager.
    A search that finds nothing clears the id and the read returns
    nil; an error of the search is returned as it is, without passing
    through [handleNotFoundError], and leaves [d] as it was. *)
Theorem read_by_region_search (st : St W) zonalID project p region :
  let d := data st in
  let n := Name zonalID in
  let search := getZonalBetaResourceFromRegion
                  (fun zone => InstanceGroupManagers_Get p zone n) region p in
  let out := resourceComputeInstanceGroupManagerRead st in
  getProject d (world st) = Done project ->
  parseInstanceGroupManagerId ProjectRegex (rd_Id d) = Ok zonalID ->
  resolved (Project zonalID) (getProject d (world st)) = Done p ->
  resolved_or_empty (Zone zonalID) (getZone d (world st)) = ""%string ->
  getRegion d (world st) = Done region ->
  (forall w1, search (world st) = (Done None, w1) ->
     out = (Ok tt, mkSt w1 (SetId d "") (calls st ++ [CZonalSearch region p])))
  /\ (forall e w1, search (world st) = (Failed e, w1) ->
        out = (Err e, mkSt w1 d (calls st ++ [CZonalSearch region p]))).
Proof.
  cbv zeta. intros Hproject Hparse Hp Hz Hregion.
  assert (Hrun : forall K : option InstanceGroupManager.t -> M W unit,
            (getManager ≫= K) st
            = ((resource ← call (CZonalSearch region p)
                  (getZonalBetaResourceFromRegion
                     (fun zone => InstanceGroupManagers_Get p zone (Name zonalID))
                     region p);
                manager ← match resource with
                          | Failed e => fail e
                          | Done resource => mret (Some resource)
                          end;
                match manager with
                | None => mret None
                | Some None => _ ← d_SetId ""; mret None
                | Some (Some manager) => mret (Some manager)
                end) ≫= K) st).
  { intros K. apply bind_run_eq. unfold getManager.
    rewrite run_get_d, Hparse, run_lift_ok.
    rewrite (run_resolved _ _ _ _ p Hp), run_resolved_or_empty, Hz. cbv zeta.
    destruct (decide (""%string = ""%string)) as [_|Hne]; [|congruence].
    rewrite bind_assoc_run, (run_try_done _ _ _ region Hregion).
    rewrite bind_assoc_run. reflexivity. }
  unfold resourceComputeInstanceGroupManagerRead.
  rewrite run_get_d, (run_try_done _ _ _ project Hproject), Hrun.
  rewrite bind_assoc_run, run_call.
  split.
  - intros w1 Hsearch. rewrite Hsearch. reflexivity.
  - intros e w1 Hsearch. rewrite Hsearch. reflexivity.
Qed.

End ReadRegional.

(** ** Deletes: what happens to the id, and how much is called *)
Section DeleteMore.
Context {helpers : Helpers} {W : Type} {cloud : Cloud W}.

Lemma keeps_bind {A B} (m : M W A) (f : A -> M W B) :
  keeps_data m -> (forall a, keeps_data (f a)) -> keeps_data (m ≫= f).
Proof.
  intros Hm Hf st. unfold mbind, M_bind. specialize (Hm st).
  destruct (m st) as [[a|e| |] st']; simpl in *; try exact Hm.
  rewrite Hf. exact Hm.
Qed.

Lemma keeps_call {A} c (f : W -> A * W) : keeps_data (call c f).
Proof. intros st. unfold call. destruct (f (world st)). reflexivity. Qed.

Lemma keeps_try {A} (f : W -> reply A) : keeps_data (try f).
Proof. intros st. unfold try. destruct (f (world st)); reflexivity. Qed.

Lemma keeps_state {A} (r : res A) : keeps_data (fun st : St W => (r, st)).
Proof. intros st. reflexivity. Qed.

Lemma delete_retry_keeps p z n (remaining : nat) :
  forall r, keeps_data (delete_retry remaining p z n r).
Proof.
  induction remaining as [|remaining IH]; intros [op|e]; simpl;
    try (intros st; reflexivity).
  apply keeps_bind; [apply keeps_call | intros _].
  apply keeps_bind; [apply keeps_call | intros r]. apply IH.
Qed.

Lemma delete_drain_keeps op p z n (fuel : nat) :
  forall err cs, keeps_data (delete_drain fuel op p z n err cs).
Proof.
  induction fuel as [|fuel IH]; intros [e|] cs; simpl; try (intros st; reflexivity).
  - destruct (0 <? cs); intros st; reflexivity.
  - destruct (0 <? cs); [|intros st; reflexivity].
    destruct (negb (Strings.Contains e "timeout")); [intros st; reflexivity|].
    apply keeps_bind; [apply keeps_call | intros [ig|e']]; [|intros st; reflexivity].
    cbv zeta. destruct (cs <=? InstanceGroup.Size ig); [intros st; reflexivity|].
    apply keeps_bind; [apply keeps_call | intros _]. apply IH.
Qed.

Lemma clears_bind {A} (m : M W A) (f : A -> M W unit) :
  keeps_data m -> (forall a, clears_id_when_nil (f a)) -> clears_id_when_nil (m ≫= f).
Proof.
  intros Hm Hf st. unfold mbind, M_bind. specialize (Hm st).
  destruct (m st) as [[a|e| |] st']; simpl in *; try exact Hm.
  rewrite Hf, Hm. reflexivity.
Qed.

Lemma clears_fail e : clears_id_when_nil (fail e : M W unit).
Proof. intros st. reflexivity. Qed.

Lemma clears_SetId : clears_id_when_nil (d_SetId "" : M W unit).
Proof. intros st. reflexivity. Qed.

(** X21. A delete clears the id exactly when it returns nil; when it
    returns an error, or panics, [d] is as it was; the other values of
    [d] are never written. *)
Theorem delete_clears_id_when_nil (st : St W) :
  let out := resourceComputeInstanceGroupManagerDelete st in
  data out.2 = match out.1 with
               | Ok _ => SetId (data st) ""
               | _ => data st
               end.
Proof.
  cbv zeta. unfold resourceComputeInstanceGroupManagerDelete. rewrite run_get_d.
  enough (Hclears : clears_id_when_nil (delete_from (data st))) by apply Hclears.
  generalize (data st). intros d. unfold delete_from.
  apply clears_bind; [apply keeps_state | intros zonalID].
  apply clears_bind;
    [destruct (decide (Project zonalID = ""%string));
     [apply keeps_try | apply keeps_state] | intros p].
  apply clears_bind;
    [destruct (decide (Zone zonalID = ""%string));
     [apply keeps_try | apply keeps_state] | intros z].
  cbv zeta.
  apply clears_bind; [apply keeps_call | intros r].
  apply clears_bind; [apply delete_retry_keeps | intros [op|e]]; [|apply clears_fail].
  apply clears_bind; [apply keeps_state | intros cs].
  apply clears_bind; [apply keeps_call | intros err].
  apply clears_bind; [apply delete_drain_keeps | intros _].
  apply clears_SetId.
Qed.

Lemma count_calls_app f l1 l2 :
  count_calls f (l1 ++ l2) = (count_calls f l1 + count_calls f l2)%nat.
Proof. induction l1 as [|c l1 IH]; simpl; [reflexivity | rewrite IH; lia]. Qed.

Lemma within_weaken {A} (m : M W A) a b a' b' :
  (a <= a')%nat -> (b <= b')%nat -> within m a b -> within m a' b'.
Proof.
  intros Ha Hb Hm st. destruct (Hm st) as (new & E & Hall & H1 & H2).
  exists new. repeat split; try assumption; lia.
Qed.

Lemma within_bind {A B} (m : M W A) (f : A -> M W B) a b a' b' :
  within m a b -> (forall x, within (f x) a' b') ->
  within (m ≫= f) (a + a') (b + b').
Proof.
  intros Hm Hf st. unfold mbind, M_bind.
  destruct (Hm st) as (new & E & Hall & H1 & H2).
  destruct (m st) as [[x|e| |] st']; simpl in *;
    try (exists new; repeat split; try assumption; lia).
  destruct (Hf x st') as (new' & E' & Hall' & H1' & H2').
  exists (new ++ new'). rewrite E', E, <- app_assoc, !count_calls_app.
  repeat split; try lia. apply Forall_app. split; assumption.
Qed.

Lemma within_state {A} (r : res A) : within (fun st : St W => (r, st)) 0 0.
Proof.
  intros st. exists []. rewrite app_nil_r.
  repeat split; try constructor; simpl; lia.
Qed.

Lemma within_try {A} (f : W -> reply A) : within (try f) 0 0.
Proof.
  intros st. exists []. unfold try. rewrite app_nil_r.
  destruct (f (world st)); repeat split; try constructor; simpl; lia.
Qed.

Lemma within_call {A} c (f : W -> A * W) :
  delete_call c = true ->
  within (call c f)
    (if is_delete_request c then 1 else 0) (if is_groups_get c then 1 else 0).
Proof.
  intros Hc st. exists [c]. unfold call. destruct (f (world st)). simpl.
  repeat split; [repeat constructor; exact Hc | |];
    destruct c; simpl; lia.
Qed.

Lemma within_SetId id : within (d_SetId id : M W unit) 0 0.
Proof.
  intros st. exists []. unfold d_SetId. cbn [snd calls]. rewrite app_nil_r.
  repeat split; try constructor; simpl; lia.
Qed.

Lemma delete_retry_within p z n (remaining : nat) :
  forall r, within (delete_retry remaining p z n r) remaining 0.
Proof.
  induction remaining as [|remaining IH]; intros [op|e]; simpl;
    try (eapply within_weaken; [| |apply within_state]; lia).
  apply (within_weaken _ (0 + (1 + remaining)) (0 + (0 + 0))); [lia | lia |].
  apply within_bind; [apply (within_call (CSleep 2000)); reflexivity | intros _].
  apply within_bind; [apply (within_call (CDelete p z n)); reflexivity | intros r].
  apply IH.
Qed.

Lemma delete_drain_within op p z n (fuel : nat) :
  forall err cs, within (delete_drain fuel op p z n err cs) 0 (Z.to_nat cs).
Proof.
  induction fuel as [|fuel IH]; intros [e|] cs; simpl;
    try (eapply within_weaken; [| |apply within_state]; lia).
  - destruct (0 <? cs); eapply within_weaken; try apply within_state; lia.
  - destruct (Z.ltb_spec 0 cs);
      [|eapply within_weaken; [| |apply within_state]; lia].
    destruct (negb (Strings.Contains e "timeout"));
      [eapply within_weaken; [| |apply within_state]; lia|].
    apply (within_weaken _ (0 + 0) (1 + (Z.to_nat cs - 1))); [lia | lia|].
    apply within_bind; [apply (within_call (CGroupsGet p z n)); reflexivity|].
    intros [ig|e']; [|eapply within_weaken; [| |apply within_state]; lia].
    cbv zeta. destruct (Z.leb_spec cs (InstanceGroup.Size ig));
      [eapply within_weaken; [| |apply within_state]; lia|].
    apply (within_weaken _ (0 + 0) (0 + Z.to_nat (InstanceGroup.Size ig))); [lia | lia|].
    apply within_bind;
      [apply (within_call (COperationWait op p "Deleting InstanceGroupManager"));
       reflexivity | intros _].
    apply IH.
Qed.

(** X22. Whatever the world answers, a delete stays within bounds: it
    makes no call but delete requests, sleeps, polls of the operation
    and reads of the group's size; at most 21 delete requests; and at
    most as many reads of the size as [target_size] says, since each
    read must find the group smaller than before. *)
Theorem delete_calls_bounded (st : St W) :
  exists new,
    calls (resourceComputeInstanceGroupManagerDelete st).2 = calls st ++ new
    /\ Forall (fun c => delete_call c = true) new
    /\ (count_calls is_delete_request new <= 21)%nat
    /\ (count_calls is_groups_get new <= baseline (data st))%nat.
Proof.
  unfold resourceComputeInstanceGroupManagerDelete. rewrite run_get_d.
  enough (Hwithin : within (delete_from (data st)) 21 (baseline (data st)))
    by apply Hwithin.
  generalize (data st). intros d. unfold delete_from.
  apply (within_weaken _ (0 + (0 + (0 + (1 + (20 + 0)))))
           (0 + (0 + (0 + (0 + (0 + baseline d)))))); [lia | lia|].
  apply within_bind; [apply within_state | intros zonalID].
  apply within_bind;
    [destruct (decide (Project zonalID = ""%string));
     [apply within_try | apply within_state] | intros p].
  apply within_bind;
    [destruct (decide (Zone zonalID = ""%string));
     [apply within_try | apply within_state] | intros z].
  cbv zeta.
  apply within_bind;
    [apply (within_call (CDelete p z (Name zonalID))); reflexivity | intros r].
  apply within_bind; [apply delete_retry_within | intros [op|e]];
    [|eapply within_weaken; [| |apply within_state]; lia].
  intros st'. unfold mbind at 1, M_bind at 1, lift, baseline.
  destruct (asInt (Get d "target_size")) as [cs| | |]; cbn [fst snd];
    try (exists []; rewrite app_nil_r; repeat split; try constructor; simpl; lia).
  revert st'.
  apply (within_weaken _ (0 + (0 + 0)) (0 + (Z.to_nat cs + 0))); [lia | lia|].
  apply within_bind;
    [apply (within_call (COperationWait op p "Deleting InstanceGroupManager"));
     reflexivity | intros err].
  apply within_bind; [apply delete_drain_within | intros _].
  apply within_SetId.
Qed.

(** X23. A delete of a group whose [target_size] is zero or less never
    looks at the outcome of the poll: once the delete request is
    accepted it returns nil and clears the id even when the operation
    fails, with any error. *)
Theorem delete_of_empty_group (st : St W) zonalID p z op w1 cs err w2 :
  let d := data st in
  let n := Name zonalID in
  parseInstanceGroupManagerId ProjectRegex (rd_Id d) = Ok zonalID ->
  resolved (Project zonalID) (getProject d (world st)) = Done p ->
  resolved (Zone zonalID) (getZone d (world st)) = Done z ->
  InstanceGroupManagers_Delete p z n (world st) = (Done op, w1) ->
  asInt (Get d "target_size") = Ok cs ->
  cs <= 0 ->
  computeSharedOperationWait op p deleting w1 = (err, w2) ->
  resourceComputeInstanceGroupManagerDelete st
  = (Ok tt, mkSt w2 (SetId d "")
              (calls st ++ [CDelete p z n; COperationWait op p deleting])).
Proof.
  cbv zeta. intros Hparse Hp Hz Hdel Hcs Hle Hwait.
  rewrite (delete_accepted st zonalID p z op w1 cs err w2) by assumption.
  unfold mbind, M_bind. rewrite drain_baseline_not_positive by exact Hle.
  reflexivity.
Qed.

End DeleteMore.

(** ** Creates *)
Section CreateFacts.
Context {helpers : Helpers} {W : Type} {cloud : Cloud W} {inserts : CloudInsert W}.

Lemma run_unlogged {A B} (f : W -> A * W) (k : A -> M W B) (st : St W) :
  (unlogged f ≫= k) st
  = k (f (world st)).1 (mkSt (f (world st)).2 (data st) (calls st)).
Proof. unfold mbind, M_bind, unlogged. destruct (f (world st)). reflexivity. Qed.

Lemma create_run (st : St W) p z m :
  getProject (data st) (world st) = Done p ->
  getZone (data st) (world st) = Done z ->
  create_manager (data st) = Ok m ->
  resourceComputeInstanceGroupManagerCreate st
  = (match (InstanceGroupManagers_Insert p z m (world st)).1 with
     | Failed e => fail ("Error creating InstanceGroupManager: " +:+ e)
     | Done op =>
         _ ← d_SetId (terraformId {| Project := p; Zone := z;
                                     Name := InstanceGroupManager.Name m |});
         err ← call (COperationWait op p "Creating InstanceGroupManager")
                 (computeSharedOperationWait op p "Creating InstanceGroupManager");
         _ ← check err;
         resourceComputeInstanceGroupManagerRead
     end)
      (mkSt (InstanceGroupManagers_Insert p z m (world st)).2 (data st) (calls st)).
Proof.
  intros Hp Hz Hm. unfold resourceComputeInstanceGroupManagerCreate.
  rewrite run_get_d. unfold create_from.
  rewrite (run_try_done _ _ _ p Hp), (run_try_done _ _ _ z Hz).
  rewrite Hm, run_lift_ok, run_unlogged. reflexivity.
Qed.

(** X24. A create whose insert request is refused returns the error
    behind the prefix of the creation error and stops there: the id is
    not set, nothing is waited for and nothing is read. *)
Theorem create_refused (st : St W) p z m e w1 :
  let d := data st in
  getProject d (world st) = Done p ->
  getZone d (world st) = Done z ->
  create_manager d = Ok m ->
  InstanceGroupManagers_Insert p z m (world st) = (Failed e, w1) ->
  resourceComputeInstanceGroupManagerCreate st
  = (Err ("Error creating InstanceGroupManager: " +:+ e), mkSt w1 d (calls st)).
Proof.
  cbv zeta. intros Hp Hz Hm Hins.
  rewrite (create_run st p z m Hp Hz Hm), Hins. reflexivity.
Qed.

(** X25. Once the insert request is accepted the id is stored before
    the operation is waited for: when the operation then fails, the
    create returns its error and [d] keeps the id, so that the
    resource is in the state although its creation failed; when it
    succeeds, the create goes on with the read.  For a project, zone
    and name that are well formed the stored id parses back to them,
    so reads and deletes address what was created. *)
Theorem create_stores_id (st : St W) p z m op w1 err w2 :
  let d := data st in
  let id := terraformId {| Project := p; Zone := z;
                           Name := InstanceGroupManager.Name m |} in
  let st2 := mkSt w2 (SetId d id) (calls st ++ [COperationWait op p creating]) in
  getProject d (world st) = Done p ->
  getZone d (world st) = Done z ->
  create_manager d = Ok m ->
  InstanceGroupManagers_Insert p z m (world st) = (Done op, w1) ->
  computeSharedOperationWait op p creating w1 = (err, w2) ->
  resourceComputeInstanceGroupManagerCreate st
  = match err with
    | Some e => (Err e, st2)
    | None => resourceComputeInstanceGroupManagerRead st2
    end
  /\ (well_formed_id ProjectRegex
        {| Project := p; Zone := z; Name := InstanceGroupManager.Name m |} = true ->
      parseInstanceGroupManagerId ProjectRegex id
      = Ok {| Project := p; Zone := z; Name := InstanceGroupManager.Name m |}).
Proof.
  cbv zeta. unfold creating. intros Hp Hz Hm Hins Hwait. split.
  - rewrite (create_run st p z m Hp Hz Hm), Hins. cbn [fst snd].
    rewrite run_d_SetId, run_call. cbn [world data calls]. rewrite Hwait.
    cbn [fst snd]. destruct err; reflexivity.
  - intros Hwf. unfold parseInstanceGroupManagerId.
    rewrite (proj2 (MatchString_matches _ _) (encoded_matches _ _ Hwf)).
    rewrite (encoded_split _ _ Hwf). reflexivity.
Qed.

(** X26. The creation request is complete: it carries the configured
    target size with [TargetSize] listed in [ForceSendFields], so that
    a size of zero is sent; named ports, target pools, auto-healing
    policies, versions and update policy are all assigned, also when
    they are empty; every version has a target size; and the
    fingerprint is empty. *)
Theorem create_manager_complete (d : ResourceData) (m : InstanceGroupManager.t) :
  create_manager d = Ok m ->
  asInt (Get d "target_size") = Ok (InstanceGroupManager.TargetSize m)
  /\ InstanceGroupManager.ForceSendFields m = ["TargetSize"%string]
  /\ InstanceGroupManager.Fingerprint m = ""%string
  /\ InstanceGroupManager.NamedPorts m <> None
  /\ InstanceGroupManager.TargetPools m <> None
  /\ InstanceGroupManager.AutoHealingPolicies m <> None
  /\ InstanceGroupManager.UpdatePolicy m <> None
  /\ exists versions,
       InstanceGroupManager.Versions m = Some versions
       /\ Forall (fun v => Version.TargetSize v <> None) versions.
Proof.
  unfold create_manager.
  repeat match goal with
         | |- context [mbind _ ?r] =>
             lazymatch r with
             | mbind _ _ => fail
             | _ => destruct r eqn:?; cbn [mbind res_bind]; try discriminate
             end
         end.
  intros [= <-]. cbn.
  repeat split; try discriminate; try assumption.
  eexists. split; [reflexivity|].
  match goal with
  | Hv : expandVersions _ = Ok _ |- _ =>
      apply expandVersions_acc in Hv as (new & -> & _ & Hall)
  end.
  exact Hall.
Qed.

End CreateFacts.

(** ** Versions, written and read back *)
Section VersionRoundTrip.
Context `{Helpers}.

Lemma expand_block_positive (x : fixedOrPercentBlock) :
  one_positive x ->
  exists fop, expandFixedOrPercent [block_as_read x] = Ok fop
    /\ flattenFixedOrPercent (Some fop) = Ok [block_as_written x].
Proof.
  intros (v & [[Hf Hp]|[Hf Hp]] & Hv); unfold block_as_read.
  - eexists. split.
    + apply (expand_one_fixed _ 0 v);
        rewrite ?block_lookup_percent, ?block_lookup_fixed, ?Hf, ?Hp;
        try reflexivity; lia.
    + rewrite flatten_cases. simpl. destruct (Z.ltb_spec 0 v); [|lia].
      unfold block_as_written. rewrite Hf, Hp. reflexivity.
  - eexists. split.
    + apply (expand_one_percent _ v);
        rewrite ?block_lookup_percent, ?Hp; try reflexivity; lia.
    + rewrite flatten_cases. simpl. destruct (Z.ltb_spec 0 v); [|lia].
      unfold block_as_written. rewrite Hf, Hp. reflexivity.
Qed.

Lemma expandVersions_configured (l : list (string * string * fixedOrPercentBlock)) :
  Forall (fun e => one_positive e.2) l ->
  forall acc, exists vs,
    range ((fun e => configured_version e.1.1 e.1.2 e.2) <$> l)
      (fun versions raw =>
         data ← asMap (Some raw);
         name ← asString (data !! "name");
         template ← asString (data !! "instance_template");
         ts ← asList (data !! "target_size");
         targetSize ← expandFixedOrPercent ts;
         Ok (versions ++
               [ {| Version.Name := name; Version.InstanceTemplate := template;
                    Version.TargetSize := Some targetSize |} ])) acc
    = Ok (acc ++ vs)
    /\ Forall2 (fun e v =>
                  Version.Name v = e.1.1 /\ Version.InstanceTemplate v = e.1.2
                  /\ exists fop, Version.TargetSize v = Some fop
                       /\ flattenFixedOrPercent (Some fop) = Ok [block_as_written e.2])
         l vs.
Proof.
  induction 1 as [|[[n t] x] l Hx Hl IH]; intros acc.
  - exists []. split; [simpl; rewrite app_nil_r; reflexivity | constructor].
  - destruct (expand_block_positive x Hx) as (fop & Hexp & Hflat).
    rewrite fmap_cons. cbn [range fst snd].
    set (rest := _ <$> l). unfold configured_version. subst rest.
    cbn [asMap mbind res_bind].
    rewrite (lookup_insert_eq _ "name"). cbn [asString mbind res_bind].
    rewrite (lookup_insert_ne _ "name" "instance_template") by discriminate.
    rewrite (lookup_insert_eq _ "instance_template").
    cbn [asString mbind res_bind].
    rewrite (lookup_insert_ne _ "name" "target_size") by discriminate.
    rewrite (lookup_insert_ne _ "instance_template" "target_size") by discriminate.
    rewrite lookup_singleton_eq.
    cbn [asList mbind res_bind]. rewrite Hexp. cbn [mbind res_bind].
    destruct (IH (acc ++ [ {| Version.Name := n; Version.InstanceTemplate := t;
                              Version.TargetSize := Some fop |} ]))
      as (vs & E & Hvs).
    eexists (_ :: vs). split; [rewrite <- app_assoc in E; exact E|].
    constructor; [|exact Hvs]. cbn. repeat split. exists fop. split; [reflexivity | exact Hflat].
Qed.

Lemma flattenVersions_configured (l : list (string * string * fixedOrPercentBlock)) :
  forall vs,
    Forall2 (fun e v =>
               Version.Name v = e.1.1 /\ Version.InstanceTemplate v = e.1.2
               /\ exists fop, Version.TargetSize v = Some fop
                    /\ flattenFixedOrPercent (Some fop) = Ok [block_as_written e.2])
      l vs ->
    forall acc,
      range vs (fun result version =>
        let versionMap : gmap string value := ∅ in
        let versionMap := <["name" := VString (Version.Name version)]> versionMap in
        let versionMap :=
          <["instance_template" :=
              VString (ConvertSelfLinkToV1 (Version.InstanceTemplate version))]> versionMap in
        ts ← flattenFixedOrPercent (Version.TargetSize version);
        let versionMap := <["target_size" := VList (VMap <$> ts)]> versionMap in
        Ok (result ++ [versionMap])) acc
      = Ok (acc ++ ((fun e => flattened_version e.1.1 e.1.2 e.2) <$> l)).
Proof.
  induction 1 as [|[[n t] x] v l vs (Hn & Ht & fop & Hts & Hflat) Hrest IH]; intros acc.
  - simpl. rewrite app_nil_r. reflexivity.
  - cbn [range]. cbn [fst snd] in Hn, Ht, Hflat. rewrite Hts, Hflat, Hn, Ht.
    cbn [mbind res_bind]. cbv zeta.
    etransitivity; [apply IH|].
    rewrite fmap_cons, <- app_assoc. reflexivity.
Qed.

(** X27. Versions survive a write followed by a read.  For configured
    versions whose target size block sets exactly one of fixed and
    percent, to a positive value, flattening what [expandVersions]
    built gives each version back with its name, its template as a v1
    self link, and the target size block as it was configured. *)
Theorem versions_expand_flatten (l : list (string * string * fixedOrPercentBlock)) :
  Forall (fun e => one_positive e.2) l ->
  (vs ← expandVersions ((fun e => configured_version e.1.1 e.1.2 e.2) <$> l);
   flattenVersions vs)
  = Ok ((fun e => flattened_version e.1.1 e.1.2 e.2) <$> l).
Proof.
  intros Hl. destruct (expandVersions_configured l Hl []) as (vs & E & Hvs).
  unfold expandVersions. rewrite E. cbn [mbind res_bind app].
  apply (flattenVersions_configured l vs Hvs []).
Qed.

End VersionRoundTrip.

(** ** Updates: what is called at all *)
Section UpdateCalls.
Context {helpers : Helpers} {W : Type} {cloud : Cloud W}.

(** X28. Whatever the world answers, an update calls the patch only
    when one of the four patched fields changed, sets the named ports
    only when [named_port] changed, and resizes only when
    [target_size] changed; apart from these, the waits for their
    operations and the calls of the final read, it calls nothing: it
    never deletes and never reads the size of the group. *)
Theorem update_calls_only_what_changed (st : St W) :
  exists new,
    calls (resourceComputeInstanceGroupManagerUpdate st).2 = calls st ++ new
    /\ Forall (update_call (data st)) new.
Proof.
  unfold resourceComputeInstanceGroupManagerUpdate. rewrite run_get_d.
  apply (update_from_logs (calls st) (update_call (data st)) (data st));
    try (intros; exact I); try (intros; assumption).
  - intros [] Hc; try discriminate; exact Hc.
  - intros p z n body Hreq. apply updatedManager_of_spec in Hreq as [_ Hch].
    simpl. symmetry. exact Hch.
  - apply extends_with_start.
Qed.

End UpdateCalls.

(** ** The further properties at concrete resources *)

Lemma flattenVersions_nil_or_entries_witness :
  let unsized := {| Version.Name := "v1"; Version.InstanceTemplate := "templates/t1";
                    Version.TargetSize := None |} in
  let versions := elems (InstanceGroupManager.Versions Samples.served) in
  (Exists (fun v => Version.TargetSize v = None) [unsized]
   /\ flattenVersions (H := Scripted.helpers) [unsized] = Panic)
  /\ (Forall (fun v => Version.TargetSize v <> None) versions
      /\ exists out, flattenVersions (H := Scripted.helpers) versions = Ok out
                     /\ Forall2 (version_entry (H := Scripted.helpers)) versions out).
Proof.
  intros unsized versions.
  assert (H1 : Exists (fun v => Version.TargetSize v = None) [unsized])
    by (constructor; reflexivity).
  assert (H2 : Forall (fun v => Version.TargetSize v <> None) versions)
    by (repeat constructor; discriminate).
  split.
  - split; [exact H1|].
    exact (proj1 (flattenVersions_nil_or_entries (H := Scripted.helpers) [unsized]) H1).
  - split; [exact H2|].
    exact (proj2 (flattenVersions_nil_or_entries (H := Scripted.helpers) versions) H2).
Defined.

Lemma expandVersions_then_flatten_witness :
  let configured := [configured_version "v1" "templates/t1" Samples.canary] in
  exists versions,
    expandVersions configured = Ok versions
    /\ Forall (fun v => Version.TargetSize v <> None) versions
    /\ exists out, flattenVersions (H := Scripted.helpers) versions = Ok out
                   /\ length out = length configured.
Proof.
  intros configured. eexists.
  assert (E : expandVersions configured
              = Ok [ {| Version.Name := "v1"; Version.InstanceTemplate := "templates/t1";
                        Version.TargetSize :=
                          Some {| FixedOrPercent.Fixed := 0; FixedOrPercent.Percent := 20;
                                  FixedOrPercent.ForceSendFields := [];
                                  FixedOrPercent.NullFields := [] |} |} ])
    by (vm_compute; reflexivity).
  split; [exact E|].
  exact (expandVersions_then_flatten (H := Scripted.helpers) configured _ E).
Defined.

Lemma expandUpdatePolicy_sends_one_witness :
  exists up,
    expandUpdatePolicy [Samples.policy] = Ok up
    /\ ([Samples.policy] <> []
        /\ exists ms mu,
             UpdatePolicy.MaxSurge up = Some ms /\ UpdatePolicy.MaxUnavailable up = Some mu
             /\ sent_exclusive ms /\ sent_exclusive mu).
Proof.
  eexists.
  assert (E : expandUpdatePolicy [Samples.policy]
              = Ok {| UpdatePolicy.MinimalAction := "REPLACE";
                      UpdatePolicy.Type_ := "PROACTIVE";
                      UpdatePolicy.MaxSurge := Some (side_of 4 50);
                      UpdatePolicy.MaxUnavailable := Some (side_of 0 0);
                      UpdatePolicy.MinReadySec := 30 |})
    by (vm_compute; reflexivity).
  split; [exact E|].
  destruct (expandUpdatePolicy_sends_one _ _ E) as [[Hnil _]|Hsent];
    [discriminate Hnil | exact Hsent].
Defined.

Lemma update_policy_expand_flatten_witness :
  exists up,
    expandUpdatePolicy [Samples.policy] = Ok up
    /\ Forall policy_shows_one (flattenUpdatePolicy (Some up)).
Proof.
  eexists.
  assert (E : expandUpdatePolicy [Samples.policy]
              = Ok {| UpdatePolicy.MinimalAction := "REPLACE";
                      UpdatePolicy.Type_ := "PROACTIVE";
                      UpdatePolicy.MaxSurge := Some (side_of 4 50);
                      UpdatePolicy.MaxUnavailable := Some (side_of 0 0);
                      UpdatePolicy.MinReadySec := 30 |})
    by (vm_compute; reflexivity).
  split; [exact E|]. exact (update_policy_expand_flatten _ _ E).
Defined.

Lemma terraformId_parse_witness :
  let id := "my-project/us-central1-a/igm-1"%string in
  MatchString (instanceGroupManagerIdRegex sample_ProjectRegex) id = true
  /\ count_byte "/" id = 2%nat
  /\ exists zonalID,
       parseInstanceGroupManagerId sample_ProjectRegex id = Ok zonalID
       /\ terraformId zonalID = id
       /\ well_formed_id sample_ProjectRegex zonalID = true.
Proof.
  intros id.
  assert (H1 : MatchString (instanceGroupManagerIdRegex sample_ProjectRegex) id = true)
    by (vm_compute; reflexivity).
  assert (H2 : count_byte "/" id = 2%nat) by (vm_compute; reflexivity).
  exact (conj H1 (conj H2 (terraformId_parse sample_ProjectRegex id H1 H2))).
Defined.

Lemma import_needs_full_id_witness :
  (let st := Scripted.start [] Samples.by_name in
   MatchString instanceGroupManagerIdNameRegex (rd_Id (data st)) = true
   /\ (resourceInstanceGroupManagerStateImporter (helpers := Scripted.helpers) st).1
      = Err invalid_import_id)
  /\ (let st := Scripted.start [] Scripted.to_import in
      exists p z n,
        Get (data (resourceInstanceGroupManagerStateImporter
                     (helpers := Scripted.helpers) st).2) "project"
        = Some (VString p)
        /\ terraformId {| Project := p; Zone := z; Name := n |} = rd_Id (data st)).
Proof.
  split; intros st.
  - assert (H1 : MatchString instanceGroupManagerIdNameRegex (rd_Id (data st)) = true)
      by (vm_compute; reflexivity).
    split; [exact H1|].
    destruct (import_needs_full_id (helpers := Scripted.helpers) st) as (Hbare & _ & _).
    rewrite (Hbare H1). reflexivity.
  - destruct (import_needs_full_id (helpers := Scripted.helpers) st) as (_ & _ & Hfull).
    destruct Hfull as (p & z & n & _ & Hp & _ & _ & Hid).
    + vm_compute. reflexivity.
    + vm_compute. reflexivity.
    + intros rest. discriminate.
    + exists p, z, n. split; [exact Hp | exact Hid].
Defined.

Lemma read_of_missing_manager_witness :
  let st := Scripted.start [Scripted.AManager (Failed Scripted.not_found)] Samples.known in
  resourceComputeInstanceGroupManagerRead
    (helpers := Scripted.helpers) (cloud := Samples.cloud_gone) st
  = (Ok tt, mkSt [] (SetId Samples.known "")
              [CManagersGet "my-project" "us-central1-a" "igm-1"]).
Proof.
  intros st.
  exact (read_of_missing_manager (helpers := Scripted.helpers) (cloud := Samples.cloud_gone)
           st {| Project := "my-project"; Zone := "us-central1-a"; Name := "igm-1" |}
           "my-project"%string "my-project"%string "us-central1-a"%string
           Scripted.not_found [] eq_refl eq_refl eq_refl eq_refl
           ltac:(discriminate) eq_refl).
Defined.

Lemma read_writes_server_state_witness :
  let st := Scripted.start [Scripted.AManager (Done Samples.served)] Samples.known in
  let out := resourceComputeInstanceGroupManagerRead
               (helpers := Scripted.helpers) (cloud := Scripted.cloud) st in
  out.1 = Ok tt
  /\ calls out.2 = [CManagersGet "my-project" "us-central1-a" "igm-1"]
  /\ rd_Id (data out.2) = "my-project/us-central1-a/igm-1"%string
  /\ Get (data out.2) "fingerprint" = Some (VString "fp-2")
  /\ Get (data out.2) "target_size" = Some (VInt 3).
Proof.
  intros st out.
  destruct (read_writes_server_state (helpers := Scripted.helpers) (cloud := Scripted.cloud)
              st {| Project := "my-project"; Zone := "us-central1-a"; Name := "igm-1" |}
              "my-project"%string "my-project"%string "us-central1-a"%string
              Samples.served []
              [ <["target_size" := VList [VMap {[ "percent" := VInt 100 ]}]]>
                  (<["instance_template" := VString "templates/t1"]>
                     (<["name" := VString "v1"]> (∅ : gmap string value))) ]
              eq_refl eq_refl eq_refl eq_refl ltac:(discriminate) eq_refl eq_refl eq_refl)
    as (H1 & _ & H2 & H3 & H4 & H5 & _).
  repeat split; assumption.
Defined.

Lemma read_waits_when_asked_witness :
  let st := Scripted.start [Scripted.AManager (Done Samples.served);
                            Scripted.AWait (Some Scripted.timed_out)]
              Samples.known_waiting in
  let out := resourceComputeInstanceGroupManagerRead
               (helpers := Scripted.helpers) (cloud := Scripted.cloud) st in
  out.1 = Err Scripted.timed_out
  /\ calls out.2 = [CManagersGet "my-project" "us-central1-a" "igm-1"; CWaitForState].
Proof.
  intros st out.
  destruct (read_waits_when_asked (helpers := Scripted.helpers) (cloud := Scripted.cloud)
              st {| Project := "my-project"; Zone := "us-central1-a"; Name := "igm-1" |}
              "my-project"%string "my-project"%string "us-central1-a"%string
              Samples.served [Scripted.AWait (Some Scripted.timed_out)]
              [ <["target_size" := VList [VMap {[ "percent" := VInt 100 ]}]]>
                  (<["instance_template" := VString "templates/t1"]>
                     (<["name" := VString "v1"]> (∅ : gmap string value))) ]
              (Some Scripted.timed_out) _ []
              eq_refl eq_refl eq_refl eq_refl ltac:(discriminate) eq_refl eq_refl eq_refl
              eq_refl)
    as (H1 & H2 & _).
  split; assumption.
Defined.

Lemma update_unchanged_is_read_witness :
  let st := Scripted.start [Scripted.AManager (Done Samples.served)] Samples.known in
  resourceComputeInstanceGroupManagerUpdate
    (helpers := Scripted.helpers) (cloud := Scripted.cloud) st
  = resourceComputeInstanceGroupManagerRead
      (helpers := Scripted.helpers) (cloud := Scripted.cloud) st.
Proof.
  intros st.
  apply (update_unchanged_is_read (helpers := Scripted.helpers) (cloud := Scripted.cloud)
           st "my-project"%string "us-central1-a"%string "fp-1"%string
           eq_refl eq_refl eq_refl).
  repeat constructor; vm_compute; reflexivity.
Defined.

Lemma update_stops_at_failed_patch_witness :
  let st := Scripted.start [Scripted.AOperation (Failed Scripted.forbidden)]
              Scripted.pools_changed in
  let body := IGM.with_TargetPools ["pool-a"%string]
                (IGM.with_Fingerprint "abc123" InstanceGroupManager.zero) in
  resourceComputeInstanceGroupManagerUpdate
    (helpers := Scripted.helpers) (cloud := Scripted.cloud) st
  = (Err ("Error updating managed group instances: " +:+ Scripted.forbidden),
     mkSt [] Scripted.pools_changed
       [CPatch "my-project" "us-central1-a" "igm-1" body]).
Proof.
  intros st body.
  destruct (update_stops_at_failed_patch
              (helpers := Scripted.helpers) (cloud := Scripted.cloud) st
              "my-project"%string "us-central1-a"%string "igm-1"%string body
              eq_refl eq_refl ltac:(vm_compute; reflexivity) eq_refl) as [Hrequest _].
  exact (Hrequest Scripted.forbidden [] eq_refl).
Defined.

Lemma update_order_witness :
  let w := [Samples.operation "op-1"; Scripted.AWait None;
            Samples.operation "op-2"; Scripted.AWait None;
            Samples.operation "op-3"; Scripted.AWait None;
            Scripted.AManager (Done Samples.served)] in
  let st := Scripted.start w Samples.all_changed in
  let body := IGM.with_TargetPools ["pool-a"%string]
                (IGM.with_Fingerprint "fp-1" InstanceGroupManager.zero) in
  resourceComputeInstanceGroupManagerUpdate
    (helpers := Scripted.helpers) (cloud := Scripted.cloud) st
  = resourceComputeInstanceGroupManagerRead
      (helpers := Scripted.helpers) (cloud := Scripted.cloud)
      (mkSt [Scripted.AManager (Done Samples.served)] Samples.all_changed
         [ CPatch "my-project" "us-central1-a" "igm-1" body;
           COperationWait "op-1" "my-project" updating_patch;
           CSetNamedPorts "my-project" "us-central1-a" "igm-1"
             [ {| NamedPort.Name := "http"; NamedPort.Port := 80 |} ];
           COperationWait "op-2" "my-project" updating;
           CResize "my-project" "us-central1-a" "igm-1" 5;
           COperationWait "op-3" "my-project" updating ]).
Proof.
  intros w st body.
  exact (update_order (helpers := Scripted.helpers) (cloud := Scripted.cloud) st
           "my-project"%string "us-central1-a"%string "igm-1"%string body
           [Samples.http] [ {| NamedPort.Name := "http"; NamedPort.Port := 80 |} ] 5
           "op-1"%string _ _ "op-2"%string _ _ "op-3"%string _ _
           eq_refl eq_refl ltac:(vm_compute; reflexivity) eq_refl
           ltac:(vm_compute; reflexivity) eq_refl ltac:(vm_compute; reflexivity)
           ltac:(vm_compute; reflexivity) eq_refl
           eq_refl eq_refl eq_refl eq_refl eq_refl eq_refl).
Defined.

Lemma read_by_region_search_witness :
  let st := Scripted.start [] Samples.by_name in
  resourceComputeInstanceGroupManagerRead
    (helpers := Scripted.helpers) (cloud := Samples.cloud_no_zone) st
  = (Ok tt, mkSt [] (SetId Samples.by_name "")
              [CZonalSearch "us-central1" "my-project"]).
Proof.
  intros st.
  destruct (read_by_region_search
              (helpers := Scripted.helpers) (cloud := Samples.cloud_no_zone) st
              {| Project := ""; Zone := ""; Name := "igm-1" |}
              "my-project"%string "my-project"%string "us-central1"%string
              eq_refl ltac:(vm_compute; reflexivity) eq_refl eq_refl eq_refl)
    as [Hnothing _].
  exact (Hnothing [] eq_refl).
Defined.

Lemma delete_of_empty_group_witness :
  let st := Scripted.start [Samples.operation "op-1"; Scripted.AWait (Some Scripted.forbidden)]
              Samples.empty_group in
  resourceComputeInstanceGroupManagerDelete
    (helpers := Scripted.helpers) (cloud := Scripted.cloud) st
  = (Ok tt, mkSt [] (SetId Samples.empty_group "")
              [CDelete "my-project" "us-central1-a" "igm-1";
               COperationWait "op-1" "my-project" deleting]).
Proof.
  intros st.
  exact (delete_of_empty_group (helpers := Scripted.helpers) (cloud := Scripted.cloud) st
           {| Project := "my-project"; Zone := "us-central1-a"; Name := "igm-1" |}
           "my-project"%string "us-central1-a"%string "op-1"%string
           [Scripted.AWait (Some Scripted.forbidden)] 0 (Some Scripted.forbidden) []
           ltac:(vm_compute; reflexivity) eq_refl eq_refl eq_refl eq_refl
           ltac:(lia) eq_refl).
Defined.

Lemma create_refused_witness :
  let st := Scripted.start [Scripted.AOperation (Failed Scripted.forbidden)]
              Samples.to_create in
  resourceComputeInstanceGroupManagerCreate
    (helpers := Scripted.helpers) (cloud := Scripted.cloud) (inserts := Samples.inserts) st
  = (Err ("Error creating InstanceGroupManager: " +:+ Scripted.forbidden),
     mkSt [] Samples.to_create []).
Proof.
  intros st.
  refine (create_refused (helpers := Scripted.helpers) (cloud := Scripted.cloud)
            (inserts := Samples.inserts) st
            "my-project"%string "us-central1-a"%string _ Scripted.forbidden []
            eq_refl eq_refl _ eq_refl).
  vm_compute. reflexivity.
Defined.

Lemma create_stores_id_witness :
  let st := Scripted.start [Samples.operation "op-1"; Scripted.AWait (Some Scripted.forbidden)]
              Samples.to_create in
  let out := resourceComputeInstanceGroupManagerCreate
               (helpers := Scripted.helpers) (cloud := Scripted.cloud)
               (inserts := Samples.inserts) st in
  out = (Err Scripted.forbidden,
         mkSt [] (SetId Samples.to_create "my-project/us-central1-a/igm-1")
           [COperationWait "op-1" "my-project" creating])
  /\ parseInstanceGroupManagerId (ProjectRegex (Helpers := Scripted.helpers))
       (rd_Id (data out.2))
     = Ok {| Project := "my-project"; Zone := "us-central1-a"; Name := "igm-1" |}.
Proof.
  intros st out.
  assert (Hm : exists m, create_manager (helpers := Scripted.helpers) (data st) = Ok m
                         /\ InstanceGroupManager.Name m = "igm-1"%string).
  { eexists. split; [vm_compute; reflexivity | reflexivity]. }
  destruct Hm as (m & Hm & Hname).
  destruct (create_stores_id (helpers := Scripted.helpers) (cloud := Scripted.cloud)
              (inserts := Samples.inserts) st
              "my-project"%string "us-central1-a"%string m "op-1"%string
              [Scripted.AWait (Some Scripted.forbidden)] (Some Scripted.forbidden) []
              eq_refl eq_refl Hm eq_refl eq_refl) as [Hrun Hparse].
  rewrite Hname in Hrun, Hparse.
  assert (Hout : out = (Err Scripted.forbidden,
                        mkSt [] (SetId Samples.to_create "my-project/us-central1-a/igm-1")
                          [COperationWait "op-1" "my-project" creating]))
    by exact Hrun.
  split; [exact Hout|]. rewrite Hout. apply Hparse. vm_compute. reflexivity.
Defined.

Lemma create_manager_complete_witness :
  exists m,
    create_manager (helpers := Scripted.helpers) Samples.to_create = Ok m
    /\ asInt (Get Samples.to_create "target_size") = Ok (InstanceGroupManager.TargetSize m)
    /\ InstanceGroupManager.ForceSendFields m = ["TargetSize"%string]
    /\ InstanceGroupManager.UpdatePolicy m <> None.
Proof.
  assert (Hm : exists m, create_manager (helpers := Scripted.helpers) Samples.to_create = Ok m).
  { eexists. vm_compute. reflexivity. }
  destruct Hm as (m & Hm). exists m. split; [exact Hm|].
  destruct (create_manager_complete (helpers := Scripted.helpers) _ _ Hm)
    as (H1 & H2 & _ & _ & _ & _ & H3 & _).
  repeat split; assumption.
Defined.

Lemma versions_expand_flatten_witness :
  let l := [("v1", "templates/t1", Samples.canary)]%string in
  Forall (fun e => one_positive e.2) l
  /\ (vs ← expandVersions ((fun e => configured_version e.1.1 e.1.2 e.2) <$> l);
      flattenVersions (H := Scripted.helpers) vs)
     = Ok ((fun e => flattened_version (H := Scripted.helpers) e.1.1 e.1.2 e.2) <$> l).
Proof.
  intros l.
  assert (Hl : Forall (fun e => one_positive e.2) l).
  { constructor; [|constructor]. exists 20. split; [right; split; reflexivity | lia]. }
  exact (conj Hl (versions_expand_flatten (H := Scripted.helpers) l Hl)).
Defined.
